(** * cdsodatacli: token leases, presence check, download executor and
      scheduling loop

    A shallow embedding of [cdsodatacli/fetch_access_token.py],
    [cdsodatacli/utils.py] and [cdsodatacli/download.py].  Python code that
    touches the file system, the clocks, the random generator or the network
    is written in a state-and-exception monad [M] over a [World]; everything
    the outside world decides (clock readings, random draws, server answers,
    which paths the operating system refuses to modify) is read from an
    environment [Env]. *)

From Stdlib Require Import ZArith QArith Qround Qabs String Ascii List Bool Lia.
From stdpp Require Import gmap strings.

Import ListNotations.
Local Open Scope string_scope.
Local Open Scope Z_scope.

(** ** Python strings *)

(** [s.split(sep)] for a separator of one character. *)
Fixpoint split_on (sep : ascii) (s : string) : list string :=
  match s with
  | EmptyString => [EmptyString]
  | String c s' =>
      if Ascii.eqb c sep then EmptyString :: split_on sep s'
      else match split_on sep s' with
           | [] => [String c EmptyString]
           | p :: ps => String c p :: ps
           end
  end.

(** [s.replace(old, new)] for a non-empty [old]: non-overlapping occurrences,
    left to right.  [skip] counts the characters of an occurrence that was
    already replaced. *)
Fixpoint replace_from (old new : string) (skip : nat) (s : string) : string :=
  match s with
  | EmptyString => EmptyString
  | String c s' =>
      match skip with
      | S k => replace_from old new k s'
      | O =>
          if String.prefix old s
          then new +:+ replace_from old new (String.length old - 1) s'
          else String c (replace_from old new 0 s')
      end
  end.

Definition replace (old new s : string) : string := replace_from old new 0 s.

Definition startswith (pre s : string) : bool := String.prefix pre s.

Definition endswith (suf s : string) : bool :=
  let n := String.length s in
  let m := String.length suf in
  (m <=? n)%nat && String.eqb (substring (n - m) m s) suf.

(** [sub in s] on two strings. *)
Fixpoint contains (sub s : string) : bool :=
  String.prefix sub s ||
  match s with
  | EmptyString => false
  | String _ s' => contains sub s'
  end.

(** [os.path.basename] and [os.path.join] (POSIX, two arguments). *)
Definition basename (p : string) : string :=
  List.last (split_on "/" p) EmptyString.

Definition path_join (a b : string) : string :=
  if startswith "/" b then b
  else if String.eqb a "" || endswith "/" a then a +:+ b
  else a +:+ "/" +:+ b.

(** [str(x)] of a value that may be [None], as [%s] formats it. *)
Definition pystr (o : option string) : string :=
  match o with Some s => s | None => "None" end.

(** ** Exceptions *)

Inductive exn_class :=
| OSError | ValueError | IndexError | KeyError | TypeError | NameError
| AttributeError | AssertionError
| RequestException | ChunkedEncodingError | JSONDecodeError
| BadZipFile | ShutilError | OtherException.

Record exn := Exn { exn_cls : exn_class; exn_msg : string }.

Definition exn_class_eqb (a b : exn_class) : bool :=
  match a, b with
  | OSError, OSError | ValueError, ValueError | IndexError, IndexError
  | KeyError, KeyError | TypeError, TypeError | NameError, NameError
  | AttributeError, AttributeError | AssertionError, AssertionError
  | RequestException, RequestException
  | ChunkedEncodingError, ChunkedEncodingError
  | JSONDecodeError, JSONDecodeError | BadZipFile, BadZipFile
  | ShutilError, ShutilError | OtherException, OtherException => true
  | _, _ => false
  end.

(** The part of the class hierarchy the handlers of the program depend on:
    [requests]' exceptions derive from [IOError], which is [OSError];
    [shutil.Error] derives from [OSError] too; the JSON decoding error raised
    by [Response.json] is a [RequestException] in recent versions of
    [requests] and a [ValueError] in all of them. *)
Definition issubclass (c parent : exn_class) : bool :=
  exn_class_eqb c parent ||
  match c, parent with
  | RequestException, OSError => true
  | ChunkedEncodingError, (RequestException | OSError) => true
  | JSONDecodeError, (RequestException | OSError | ValueError) => true
  | ShutilError, OSError => true
  | _, _ => false
  end.

Definition isinstance (e : exn) (c : exn_class) : bool :=
  issubclass (exn_cls e) c.

Inductive res (A : Type) :=
| Ok (a : A)
| Raise (e : exn).
Arguments Ok {A} a.
Arguments Raise {A} e.

(** ** The world *)

(** A path holds a regular file (bytes and permission bits) or a directory. *)
Inductive node :=
| File (data : string) (mode : Z)
| Dir.

(** Times: [datetime] values and their differences are counted in
    microseconds, the resolution of Python's [datetime]; [time.time()]
    readings are rationals. *)
Definition datetime := Z.
Definition timedelta := Z.

Definition total_seconds (d : timedelta) : Q := d # 1000000.

(** The form posted to the identity endpoint. *)
Record payload := Payload {
  client_id : string;
  username : string;
  password : string;
  grant_type : string
}.

(** A streamed GET of the download endpoint. *)
Record get_request := GetRequest {
  get_url : string;
  get_authorization : string
}.

Record World := mkWorld {
  w_fs : gmap string node;
  w_clock : nat;               (* clock readings taken so far *)
  w_rand : nat;                (* random draws taken so far *)
  w_race : nat;                (* completion-order draws taken so far *)
  w_posted : list payload;     (* requests sent to the identity endpoint *)
  w_gets : list get_request    (* requests sent to the download endpoint *)
}.

(** JSON values, as [Response.json] returns them. *)
#[local] Unset Elimination Schemes.
Inductive json :=
| JNull
| JBool (b : bool)
| JNum (z : Z)
| JStr (s : string)
| JArr (items : list json)
| JObj (fields : list (string * json)).
#[local] Set Elimination Schemes.

Inductive json_body :=
| JsonMalformed
| JsonValue (v : json).

Record post_response := PostResponse {
  post_status_code : Z;
  post_text : string;
  post_json : json_body
}.

Inductive post_outcome :=
| PostRaises (msg : string)          (* a [RequestException]: timeout, ... *)
| PostReturns (r : post_response).

(** The [content-length] header, after [int(...)]. *)
Inductive content_length :=
| CLAbsent
| CLInt (n : Z)
| CLMalformed.

(** How the iteration over the body ends. *)
Inductive stream_end :=
| StreamDone
| StreamChunkedEncodingError
| StreamException (msg : string).

Record get_response := GetResponse {
  status_code : Z;
  reason : string;
  transfer_encoding_chunked : bool;
  header_content_length : content_length;
  body_chunks : list string;
  body_end : stream_end
}.

Inductive get_outcome :=
| GetRaises (msg : string)
| GetReturns (r : get_response).

(** What [zipfile.ZipFile(f).testzip()] does on the bytes of a file. *)
Inductive zip_outcome :=
| ZipSound                       (* [testzip()] returns [None] *)
| ZipBadMember (name : string)   (* [testzip()] returns a member name *)
| ZipBadZipFile                  (* [BadZipFile] raised *)
| ZipOSError                     (* [OSError] raised *)
| ZipOtherError (e : exn).       (* anything else, e.g. [zlib.error] *)

(** The configuration dictionary ([get_conf]); [groups] maps the name of an
    account group to its logins and passwords, in key order. *)
Record Conf := mkConf {
  URL_identity : string;
  URL_download : string;
  token_directory : string;
  active_session_directory : string;
  pre_spool : string;
  spool : string;
  archive : string;
  groups : list (string * list (string * string))
}.

(** Everything decided outside the program. *)
Record Env := mkEnv {
  e_today : nat -> datetime;       (* [datetime.datetime.today()], by reading *)
  e_time : nat -> Q;               (* [time.time()], by reading *)
  e_random : nat -> nat;           (* the draws of [random.choice] *)
  e_race : nat -> nat;             (* which worker finishes next *)
  (** the paths that the operating system refuses to create, to open for
      writing, to move or to remove, for whatever reason: permissions, a
      parent that is missing or is not a directory, a read-only file
      system *)
  e_denied : string -> bool;
  e_new_mode : Z;                  (* permission bits of a created file *)
  e_identity : list payload -> post_outcome;
  e_download : list get_request -> get_outcome;
  e_zip : string -> zip_outcome;
  (** [datetime.strptime(s, "%Y%m%dt%H%M%S")], [None] for [ValueError], and
      [d.strftime("%Y%m%dt%H%M%S")] *)
  e_strptime : string -> option datetime;
  e_strftime : datetime -> string;
  (** [check_safe_in_archive], which reads the file system only *)
  e_in_archive : string -> gmap string node -> bool;
  (** [str(v)] of a JSON value that is neither a string nor [None] *)
  e_repr : json -> string;
  (** the paths whose permission bits the operating system refuses to
      change *)
  e_chmod_denied : string -> bool;
  (** [template % value] for a string [value] and a template that holds a
      percent sign in another way than one [%s]: the string made, or the
      [TypeError] or [ValueError] raised *)
  e_percent : string -> string -> res string;
  (** whether [glob.glob(pattern)] returns an existing path, for a pattern
      whose directory or name holds a wildcard besides its one star *)
  e_glob : string -> string -> bool
}.

(** ** The monad *)

Definition M (A : Type) : Type := World -> res A * World.

Definition ret {A} (a : A) : M A := fun w => (Ok a, w).

Definition bind {A B} (m : M A) (k : A -> M B) : M B :=
  fun w => match m w with
           | (Ok a, w') => k a w'
           | (Raise e, w') => (Raise e, w')
           end.

Definition raise {A} (c : exn_class) (msg : string) : M A :=
  fun w => (Raise (Exn c msg), w).

Definition reraise {A} (e : exn) : M A := fun w => (Raise e, w).

(** [try: m  except <classes> as e: h e]: the first class of [cs] that the
    exception is an instance of selects the handler; other exceptions pass. *)
Definition try_except {A} (m : M A) (cs : list exn_class) (h : exn -> M A)
  : M A :=
  fun w => match m w with
           | (Ok a, w') => (Ok a, w')
           | (Raise e, w') =>
               if existsb (isinstance e) cs then h e w' else (Raise e, w')
           end.

(** [except Exception]: every exception of the model. *)
Definition try_except_Exception {A} (m : M A) (h : exn -> M A) : M A :=
  fun w => match m w with
           | (Ok a, w') => (Ok a, w')
           | (Raise e, w') => h e w'
           end.

Declare Scope monad_scope.
Delimit Scope monad_scope with monad.
Notation "x <- c1 ;; c2" := (bind c1 (fun x => c2))
  (at level 100, c1 at next level, right associativity) : monad_scope.
Notation "c1 ;;; c2" := (bind c1 (fun _ => c2))
  (at level 100, right associativity) : monad_scope.
Local Open Scope monad_scope.

Definition get_world : M World := fun w => (Ok w, w).
Definition put_fs (fs : gmap string node) : M unit :=
  fun w => (Ok tt, mkWorld fs (w_clock w) (w_rand w) (w_race w)
                     (w_posted w) (w_gets w)).

(** [for x in l: body x], with a loop-carried value. *)
Fixpoint for_each {A S} (l : list A) (body : A -> S -> M S) (s : S) : M S :=
  match l with
  | [] => ret s
  | x :: l' => s' <- body x s ;; for_each l' body s'
  end.

(** ** Operating system, clocks, random generator, network *)

Section Primitives.
Variable E : Env.

Definition with_fs (w : World) (fs : gmap string node) : World :=
  mkWorld fs (w_clock w) (w_rand w) (w_race w) (w_posted w) (w_gets w).

(** [datetime.datetime.today()] *)
Definition datetime_today : M datetime :=
  fun w => (Ok (e_today E (w_clock w)),
            mkWorld (w_fs w) (S (w_clock w)) (w_rand w) (w_race w)
                    (w_posted w) (w_gets w)).

(** [time.time()] *)
Definition time_time : M Q :=
  fun w => (Ok (e_time E (w_clock w)),
            mkWorld (w_fs w) (S (w_clock w)) (w_rand w) (w_race w)
                    (w_posted w) (w_gets w)).

(** [random.choice(l)]: [IndexError] on an empty sequence. *)
Definition random_choice {A} (l : list A) : M A :=
  fun w =>
    match nth_error l (e_random E (w_rand w) mod length l)%nat with
    | Some x => (Ok x, mkWorld (w_fs w) (w_clock w) (S (w_rand w)) (w_race w)
                               (w_posted w) (w_gets w))
    | None => (Raise (Exn IndexError "Cannot choose from an empty sequence"), w)
    end.

(** [os.path.exists(p)] *)
Definition os_path_exists (p : string) : M bool :=
  fun w => (Ok (bool_decide (is_Some (w_fs w !! p))), w).

(** [os.remove(p)]: a missing path, a directory and a refusal of the OS
    all raise [OSError]. *)
Definition os_remove (p : string) : M unit :=
  fun w =>
    match w_fs w !! p with
    | Some (File _ _) =>
        if e_denied E p then (Raise (Exn OSError "Permission denied"), w)
        else (Ok tt, with_fs w (delete p (w_fs w)))
    | Some Dir => (Raise (Exn OSError "Is a directory"), w)
    | None => (Raise (Exn OSError "No such file or directory"), w)
    end.

(** The ancestors of a path: its proper prefixes that end before a slash,
    the root apart. *)
Fixpoint ancestors_from (before rest : string) : list string :=
  match rest with
  | EmptyString => []
  | String c rest' =>
      if Ascii.eqb c "/" then
        (if String.eqb before "" || endswith "/" before then [] else [before])
        ++ ancestors_from (before +:+ "/") rest'
      else ancestors_from (before +:+ String c EmptyString) rest'
  end.

Definition ancestors (p : string) : list string :=
  ancestors_from EmptyString p.

(** The directories of [dirs] that are missing are made. *)
Definition make_missing (dirs : list string) (fs : gmap string node)
  : gmap string node :=
  fold_left (fun fs d => match fs !! d with
                         | None => <[d := Dir]> fs
                         | Some _ => fs
                         end) dirs fs.

(** [os.makedirs(p, exist_ok=True)]: the leaf and every missing ancestor
    are made; when the operating system refuses, nothing is made. *)
Definition os_makedirs_exist_ok (p : string) : M unit :=
  fun w =>
    match w_fs w !! p with
    | Some Dir => (Ok tt, w)
    | Some (File _ _) => (Raise (Exn OSError "File exists"), w)
    | None =>
        if e_denied E p then (Raise (Exn OSError "Permission denied"), w)
        else (Ok tt, with_fs w (<[p := Dir]>
                                  (make_missing (ancestors p) (w_fs w))))
    end.

(** [open(p, "w")] and [open(p, "wb")]: the file is created, or emptied
    when it exists (its permission bits are kept).  A directory that is
    missing above [p] is one of the refusals that [e_denied] answers for. *)
Definition open_for_writing (p : string) : M unit :=
  fun w =>
    if e_denied E p then (Raise (Exn OSError "Permission denied"), w)
    else match w_fs w !! p with
         | Some Dir => (Raise (Exn OSError "Is a directory"), w)
         | Some (File _ m) => (Ok tt, with_fs w (<[p := File "" m]> (w_fs w)))
         | None => (Ok tt, with_fs w (<[p := File "" (e_new_mode E)]> (w_fs w)))
         end.

(** [f.write(chunk)] on the file opened at [p]. *)
Definition file_write (p chunk : string) : M unit :=
  fun w =>
    match w_fs w !! p with
    | Some (File d m) => (Ok tt, with_fs w (<[p := File (d +:+ chunk) m]> (w_fs w)))
    | _ => (Raise (Exn OSError "Bad file descriptor"), w)
    end.

(** The first line of a text, with its line break, as [readlines()[0]]. *)
Fixpoint first_line (s : string) : string :=
  match s with
  | EmptyString => EmptyString
  | String c s' =>
      if Ascii.eqb c "010" then String c EmptyString
      else String c (first_line s')
  end.

(** [open(p).readlines()[0]] *)
Definition read_first_line (p : string) : M string :=
  fun w =>
    match w_fs w !! p with
    | Some (File "" _) => (Raise (Exn IndexError "list index out of range"), w)
    | Some (File d _) => (Ok (first_line d), w)
    | Some Dir => (Raise (Exn OSError "Is a directory"), w)
    | None => (Raise (Exn OSError "No such file or directory"), w)
    end.

(** [shutil.move(src, dst)]: a rename; into [dst] when [dst] is an
    existing directory.  A directory that is missing above the destination
    is one of the refusals that [e_denied] answers for. *)
Definition shutil_move (src dst : string) : M unit :=
  fun w =>
    match w_fs w !! src with
    | None => (Raise (Exn OSError "No such file or directory"), w)
    | Some n =>
        let real_dst :=
          match w_fs w !! dst with
          | Some Dir => path_join dst (basename src)
          | _ => dst
          end in
        if e_denied E src || e_denied E real_dst
        then (Raise (Exn OSError "Permission denied"), w)
        else match w_fs w !! dst, w_fs w !! real_dst with
             | Some Dir, Some _ =>
                 (Raise (Exn ShutilError "Destination path already exists"), w)
             | _, Some Dir => (Raise (Exn OSError "Is a directory"), w)
             | _, _ => (Ok tt, with_fs w (<[real_dst := n]> (delete src (w_fs w))))
             end
    end.

(** [os.chmod(p, mode)] *)
Definition os_chmod (p : string) (mode : Z) : M unit :=
  fun w =>
    match w_fs w !! p with
    | None => (Raise (Exn OSError "No such file or directory"), w)
    | Some n =>
        if e_chmod_denied E p
        then (Raise (Exn OSError "Operation not permitted"), w)
        else match n with
             | File d _ => (Ok tt, with_fs w (<[p := File d mode]> (w_fs w)))
             | Dir => (Ok tt, w)
             end
    end.

(** The characters that [glob] reads as wildcards. *)
Definition has_magic (s : string) : bool :=
  contains "*" s || contains "?" s || contains "[" s.

(** The paths of [d] whose name starts with [pre], ends with [suf] and is
    long enough for both. *)
Definition matches_literally (d pre suf p : string) : bool :=
  let full := path_join d pre in
  startswith full p && endswith suf p &&
  (String.length full + String.length suf <=? String.length p)%nat &&
  negb (contains "/" (substring (String.length full)
                                (String.length p - String.length full) p)).

(** Whether [glob.glob(os.path.join(d, pre + "*" + suf))] returns the
    existing path [p]: when [d], [pre] and [suf] hold no wildcard, the star
    is the only one and the match is literal; otherwise [e_glob] says, as
    it does for a directory that ends with two slashes, which [glob] does
    not return as it is written. *)
Definition glob_matches (d pre suf p : string) : bool :=
  if has_magic d || has_magic pre || has_magic suf || endswith "//" d
  then e_glob E (path_join d (pre +:+ "*" +:+ suf)) p
  else matches_literally d pre suf p.

Definition glob (d pre suf : string) : M (list string) :=
  fun w => (Ok (List.filter (glob_matches d pre suf)
                          (elements (dom (w_fs w)))), w).

(** [requests.post(url_identity, data=payload, ...)] *)
Definition requests_post (pl : payload) : M post_response :=
  fun w =>
    let sent := (w_posted w ++ [pl])%list in
    let w' := mkWorld (w_fs w) (w_clock w) (w_rand w) (w_race w)
                      sent (w_gets w) in
    match e_identity E sent with
    | PostRaises msg => (Raise (Exn RequestException msg), w')
    | PostReturns r => (Ok r, w')
    end.

(** [session.get(url, headers=headers, stream=True, timeout=(30, 600))] *)
Definition session_get (url authorization : string) : M get_response :=
  fun w =>
    let sent := (w_gets w ++ [GetRequest url authorization])%list in
    let w' := mkWorld (w_fs w) (w_clock w) (w_rand w) (w_race w)
                      (w_posted w) sent in
    match e_download E sent with
    | GetRaises msg => (Raise (Exn RequestException msg), w')
    | GetReturns r => (Ok r, w')
    end.

(** [response.raise_for_status()] and [response.ok] of [requests]: an
    error status is one from 400 to 599. *)
Definition is_error_status (code : Z) : bool :=
  (400 <=? code) && (code <? 600).

End Primitives.

(** ** fetch_access_token.py *)

Definition MAX_VALIDITY_ACCESS_TOKEN : Z := 600.

(** [td.total_seconds() >= n] and [td.total_seconds() < n] *)
Definition seconds_ge (td : timedelta) (n : Z) : bool :=
  Qle_bool (inject_Z n) (total_seconds td).

Definition seconds_lt (td : timedelta) (n : Z) : bool :=
  negb (Qle_bool (inject_Z n) (total_seconds td)).

(** [d[k]] and [d.get(k)] on a dictionary kept in key order. *)
Fixpoint dict_get {V} (k : string) (d : list (string * V)) : option V :=
  match d with
  | [] => None
  | (k', v) :: d' => if String.eqb k k' then Some v else dict_get k d'
  end.

Definition dict_getitem {V} (k : string) (d : list (string * V)) : M V :=
  match dict_get k d with
  | Some v => ret v
  | None => raise KeyError k
  end.

(** ["access_token" in data] and [data["access_token"]] on a decoded JSON
    value: a dictionary is searched by key, a list by element, a string by
    substring; the other values do not support the operation. *)
Definition json_contains (k : string) (data : json) : M bool :=
  match data with
  | JObj fields => ret (existsb (fun kv => String.eqb k (fst kv)) fields)
  | JArr items =>
      ret (existsb (fun j => match j with
                             | JStr s => String.eqb k s
                             | _ => false
                             end) items)
  | JStr s => ret (contains k s)
  | _ => raise TypeError "argument is not iterable"
  end.

Definition json_getitem (k : string) (data : json) : M json :=
  match data with
  | JObj fields => dict_getitem k fields
  | _ => raise TypeError "indices must be integers"
  end.

Section FetchAccessToken.
Variable E : Env.

Definition token_file_name (login : string) (d : datetime) : string :=
  "CDSE_access_token_" +:+ login +:+ "_" +:+ e_strftime E d +:+ ".txt".

Definition write_token_semphore_file
    (login : string) (date_generation_access_token : datetime)
    (token_dir : string) (access_token : json) : M (option string) :=
  present <- os_path_exists token_dir ;;
  (if present then ret tt
   else try_except (os_makedirs_exist_ok E token_dir) [OSError]
          (fun _ => ret tt)) ;;;
  let path_semphore_token :=
    path_join token_dir (token_file_name login date_generation_access_token) in
  written <-
    try_except
      (open_for_writing E path_semphore_token ;;;
       match access_token with
       | JStr s => file_write path_semphore_token s
       | _ => raise TypeError "write() argument must be str"
       end ;;;
       ret true)
      [OSError] (fun _ => ret false) ;;
  if written then ret (Some path_semphore_token) else ret None.

(** The four values returned; Python's [None] is [JNull] for the token. *)
Definition token_result : Type :=
  json * option datetime * option string * option string.

Definition no_token : token_result := (JNull, None, None, None).

(** Lines 50-65: the login and the password to submit, [None] when the
    function returns early. *)
Definition choose_credentials (conf : Conf) (account_group : string)
    (specific_account passwd : option string) : M (option (string * string)) :=
  match specific_account with
  | None =>
      group <- dict_getitem account_group (groups conf) ;;
      let all_accounts := map fst group in
      match all_accounts with
      | [] => ret None
      | first :: _ =>
          login <- random_choice E all_accounts ;;
          match passwd with
          | None => p <- dict_getitem first group ;; ret (Some (login, p))
          | Some p => ret (Some (login, p))
          end
      end
  | Some login =>
      match passwd with
      | None =>
          group <- dict_getitem account_group (groups conf) ;;
          match dict_get login group with
          | None => ret None
          | Some p => ret (Some (login, p))
          end
      | Some p => ret (Some (login, p))
      end
  end.

(** Lines 78-100: the decoded answer, [None] when one of the two handlers
    returned. *)
Definition fetch_token_data (pl : payload) : M (option json) :=
  try_except
    (response <- requests_post E pl ;;
     (if is_error_status (post_status_code response)
      then raise RequestException "HTTPError" else ret tt) ;;;
     match post_json response with
     | JsonMalformed => raise JSONDecodeError "Expecting value"
     | JsonValue data => ret (Some data)
     end)
    [RequestException; JSONDecodeError] (fun _ => ret None).

Definition get_bearer_access_token (conf : Conf)
    (specific_account passwd : option string) (account_group : string)
  : M token_result :=
  creds <- choose_credentials conf account_group specific_account passwd ;;
  match creds with
  | None => ret no_token
  | Some (login, passwd) =>
      let pl := Payload "cdse-public" login passwd "password" in
      date_generation_access_token <- datetime_today E ;;
      answer <- fetch_token_data pl ;;
      match answer with
      | None => ret no_token
      | Some data =>
          found <- json_contains "access_token" data ;;
          if negb found
          then ret (JNull, Some date_generation_access_token, Some login, None)
          else
            token <- json_getitem "access_token" data ;;
            path_semphore_token <-
              write_token_semphore_file login date_generation_access_token
                (token_directory conf) token ;;
            ret (token, Some date_generation_access_token, Some login,
                 path_semphore_token)
      end
  end.

(** One turn of the loop of [get_list_of_exising_token] over the files the
    pattern matched. *)
Definition keep_if_unexpired (ll : string) (lst_token : list string)
  : M (list string) :=
  let filename := basename ll in
  let parts := split_on "_" (replace ".txt" "" filename) in
  if (length parts <? 2)%nat then ret lst_token
  else
    let date_str := List.last parts EmptyString in
    match e_strptime E date_str with
    | None => ret lst_token
    | Some date_generation_access_token =>
        now <- datetime_today E ;;
        if seconds_lt (now - date_generation_access_token)
             MAX_VALIDITY_ACCESS_TOKEN
        then ret (lst_token ++ [ll])%list
        else ret lst_token
    end.

Definition get_list_of_exising_token (token_dir : string)
    (account : option string) : M (list string) :=
  lst_token0 <-
    match account with
    | Some a => glob E token_dir ("CDSE_access_token_" +:+ a +:+ "_") ".txt"
    | None => glob E token_dir "CDSE_access_token_" ".txt"
    end ;;
  for_each lst_token0 keep_if_unexpired [].

Definition remove_semaphore_token_file (token_dir login : string)
    (date_generation_access_token : datetime) : M unit :=
  let path_token :=
    path_join token_dir (token_file_name login date_generation_access_token) in
  present <- os_path_exists path_token ;;
  if present then
    now <- datetime_today E ;;
    if seconds_ge (now - date_generation_access_token)
         MAX_VALIDITY_ACCESS_TOKEN
    then try_except (os_remove E path_token) [OSError] (fun _ => ret tt)
    else ret tt
  else ret tt.

End FetchAccessToken.

(** ** utils.py *)

Section Utils.
Variable E : Env.

(** [with zipfile.ZipFile(f, 'r') as zf: if zf.testzip() is not None: raise
    zipfile.BadZipFile(...)] *)
Definition test_zip (f : string) : M unit :=
  fun w =>
    match w_fs w !! f with
    | Some (File d _) =>
        match e_zip E d with
        | ZipSound => (Ok tt, w)
        | ZipBadMember _ =>
            (Raise (Exn BadZipFile "Corrupted file content inside zip"), w)
        | ZipBadZipFile => (Raise (Exn BadZipFile "File is not a zip file"), w)
        | ZipOSError => (Raise (Exn OSError "Input/output error"), w)
        | ZipOtherError e => (Raise e, w)
        end
    | Some Dir => (Raise (Exn OSError "Is a directory"), w)
    | None => (Raise (Exn OSError "No such file or directory"), w)
    end.

Definition outputdir_candidates (outputdir safename : string) : list string :=
  [ path_join outputdir (safename +:+ ".zip");
    path_join outputdir safename;
    path_join outputdir (replace ".SAFE" ".zip" safename) ].

(** The first candidate that exists, [None] when there is none. *)
Fixpoint first_existing (candidates : list string) : M (option string) :=
  match candidates with
  | [] => ret None
  | f :: rest =>
      present <- os_path_exists f ;;
      if present then ret (Some f) else first_existing rest
  end.

Definition check_safe_in_outputdir (outputdir safename : string) : M bool :=
  potential_file <- first_existing (outputdir_candidates outputdir safename) ;;
  match potential_file with
  | None => ret false
  | Some f =>
      if String.eqb f "" then ret false
      else if endswith ".zip" f then
        try_except (test_zip f ;;; ret true) [BadZipFile; OSError]
          (fun _ =>
             try_except (os_remove E f) [OSError] (fun _ => ret tt) ;;;
             ret false)
      else ret true
  end.

Definition check_safe_in_spool (conf : Conf) (safename : string) : M bool :=
  found <- first_existing
             [ path_join (spool conf) safename;
               path_join (spool conf) (safename +:+ ".zip");
               path_join (spool conf) (replace ".SAFE" ".zip" safename) ] ;;
  ret (match found with Some _ => true | None => false end).

Definition check_safe_in_archive (conf : Conf) (safename : string) : M bool :=
  fun w => (Ok (e_in_archive E safename (w_fs w)), w).

End Utils.

(** ** download.py: the download executor *)

Definition chunksize : Z := 8192.

(** A download speed in Mo/second: the number that the float stands for,
    a quotient being taken before its rounding to a double; [None] is
    [np.nan]. *)
Definition speed_t : Type := option Q.

(** Python's floats are the doubles of IEEE 754.  [round_double q] is the
    double nearest to the rational [q], ties to the even mantissa, for a [q]
    in the range of the normal doubles: with [2^e <= |q| < 2^(e+1)], the
    mantissa is [|q| / 2^(e-52)] rounded to an integer. *)
Definition round_half_even (q : Q) : Z :=
  let f := Qfloor q in
  match Qcompare (q - inject_Z f) (1 # 2) with
  | Lt => f
  | Gt => f + 1
  | Eq => if Z.even f then f else f + 1
  end.

Definition binade (a : Q) : Z :=
  let e := Z.log2 (Qnum a) - Z.log2 (Zpos (Qden a)) in
  if Qle_bool (Qpower 2 e) a then e else e - 1.

Definition round_double (q : Q) : Q :=
  if Qeq_bool q 0 then 0%Q
  else
    let a := Qabs q in
    let ulp := Qpower 2 (binade a - 52) in
    let m := (inject_Z (round_half_even (a / ulp)) * ulp)%Q in
    if Qle_bool 0 q then m else (- m)%Q.

(** A quotient that no double holds: [int / int] raises [OverflowError]. *)
Definition double_overflows (q : Q) : bool :=
  Qle_bool (Qpower 2 1024) (Qabs (round_double q)).

(** [int(x)] of a float: the integer part, towards zero. *)
Definition int_of_float (x : Q) : Z := Z.quot (Qnum x) (Zpos (Qden x)).

(** [int(int(response.headers.get("content-length", 0)) / 1000 / 1000)]: a
    division of integers, rounded to a double, a division of doubles and
    the integer part; [None] when [int(...)] of the header or the first
    division raises. *)
Definition read_megabytes (cl : content_length) : option Z :=
  match cl with
  | CLAbsent => Some 0
  | CLInt n =>
      if double_overflows (inject_Z n / 1000)
      then None
      else Some (int_of_float
                   (round_double (round_double (inject_Z n / 1000) / 1000)))
  | CLMalformed => None
  end.

Definition megabytes_of (cl : content_length) : M Z :=
  match read_megabytes cl with
  | Some total_length => ret total_length
  | None =>
      match cl with
      | CLInt _ =>
          raise OtherException "integer division result too large for a float"
      | _ => raise ValueError "invalid literal for int()"
      end
  end.

Definition Qpositive (q : Q) : bool := negb (Qle_bool q 0).

Section Executor.
Variable E : Env.
Variable conf : Conf.

(** Lines 103-105: the chunks are written, then the iterator ends or
    raises. *)
Definition stream_body (tmp : string) (chunks : list string)
    (last_event : stream_end) : M unit :=
  for_each chunks
    (fun chunk _ =>
       if String.eqb chunk "" then ret tt else file_write tmp chunk) tt ;;;
  match last_event with
  | StreamDone => ret tt
  | StreamChunkedEncodingError =>
      raise ChunkedEncodingError "Connection broken"
  | StreamException msg => raise OtherException msg
  end.

(** Lines 80-117: [status], [status_meaning] and, when it was assigned,
    [total_length]. *)
Definition request_and_stream (url headers output_filepath_tmp : string)
  : M (Z * string * option Z) :=
  try_except_Exception
    (open_for_writing E output_filepath_tmp ;;;
     response <- session_get E url headers ;;
     let status := status_code response in
     let status_meaning := reason response in
     if negb (is_error_status (status_code response)) then
       total_length <- megabytes_of (header_content_length response) ;;
       streamed <-
         try_except_Exception
           (stream_body output_filepath_tmp (body_chunks response)
              (body_end response) ;;;
            ret (status, status_meaning))
           (fun e =>
              if isinstance e ChunkedEncodingError
              then ret (-1, "ChunkedEncodingError")
              else ret (-1, "StreamError: " +:+ exn_msg e)) ;;
       ret (fst streamed, snd streamed, Some total_length)
     else ret (status, status_meaning, None))
    (fun e => ret (-1, "RequestError: " +:+ exn_msg e, None)).

(** Lines 136-146: the move to the output path and the permission bits. *)
Definition publish (status_meaning output_filepath_tmp output_filepath : string)
  : M string :=
  try_except_Exception
    (shutil_move E output_filepath_tmp output_filepath ;;;
     os_chmod E output_filepath 509 ;;;
     ret status_meaning)
    (fun _ => ret "MoveFileError").

(** Lines 68-78: the starting time, and the staging directory made when it
    is missing. *)
Definition enter_try : M Q :=
  t0 <- time_time E ;;
  present <- os_path_exists (pre_spool conf) ;;
  (if present then ret tt else os_makedirs_exist_ok E (pre_spool conf)) ;;;
  ret t0.

Definition tmp_path (output_filepath : string) : string :=
  path_join (pre_spool conf) (basename output_filepath +:+ ".tmp").

(** Lines 120-125 *)
Definition remove_failed_tmp (status : Z) (output_filepath_tmp : string)
  : M unit :=
  tmp_present <- os_path_exists output_filepath_tmp ;;
  if ((negb (status =? 200)) || (status =? -1)) && tmp_present
  then try_except (os_remove E output_filepath_tmp) [OSError]
         (fun _ => ret tt)
  else ret tt.

(** [session] carries the same authorization header as [headers]; the model
    keeps the header only.  [semaphore_token_file] is handed back as it
    came, whatever it is. *)
Definition CDS_Odata_download_one_product_v2 {T : Type}
    (headers url output_filepath : string) (semaphore_token_file : T)
  : M (speed_t * string * string * T) :=
  t0 <- enter_try ;;
  let output_filepath_tmp := tmp_path output_filepath in
  let safename_base := replace ".zip" "" (basename output_filepath) in
  outcome <- request_and_stream url headers output_filepath_tmp ;;
  let '(status, status_meaning, total_length) := outcome in
  remove_failed_tmp status output_filepath_tmp ;;;
  t1 <- time_time E ;;
  let elapsed_time := Qminus t1 t0 in
  if status =? 200 then
    total <- match total_length with
             | Some n => ret n
             | None => raise NameError "total_length"
             end ;;
    let speed :=
      if Qpositive elapsed_time
      then Qdiv (inject_Z total) elapsed_time else 0%Q in
    status_meaning' <- publish status_meaning output_filepath_tmp
                         output_filepath ;;
    ret (Some speed, status_meaning', safename_base, semaphore_token_file)
  else ret (None, status_meaning, safename_base, semaphore_token_file).

End Executor.

(** ** download.py: the scheduling loop *)

(** A row of the data frame [df2]: [status] is 0 for a product not treated
    yet, 1 for a successful download and -1 for a download in error. *)
Record row := Row {
  df_safe : string;
  df_status : Z;
  df_id : string;
  df_urls : string;
  df_outputpath : string
}.

(** A row of [dfproductDownloaddable], the batch one round downloads. *)
Record slot := Slot {
  slot_safe : string;
  slot_header : string;
  slot_url : string;
  slot_output_path : string;
  slot_token_semaphore : string;
  slot_session_semaphore : string
}.

(** What [download.py] imports from [cdsodatacli/session.py]. *)
Record SessionModule := mkSessionModule {
  MAX_SESSION_PER_ACCOUNT : nat;
  get_sessions_download_available :
    Conf -> list row -> list string -> string -> M (list slot);
  remove_semaphore_session_file :
    string -> option string -> option string -> M unit
}.

(** [l[i]] for a non-negative [i] *)
Definition list_getitem {A} (l : list A) (i : nat) : M A :=
  match nth_error l i with
  | Some x => ret x
  | None => raise IndexError "list index out of range"
  end.

(** [df2.loc[df2["safe"] == name, "status"] = v] *)
Definition set_status (name : string) (v : Z) (df : list row) : list row :=
  map (fun r => if String.eqb (df_safe r) name
                then Row (df_safe r) v (df_id r) (df_urls r) (df_outputpath r)
                else r) df.

(** [errors_per_account[login] += 1] on a [defaultdict(int)], kept in
    insertion order. *)
Fixpoint increment (login : string) (d : list (string * nat))
  : list (string * nat) :=
  match d with
  | [] => [(login, 1%nat)]
  | (k, n) :: d' =>
      if String.eqb login k then (k, S n) :: d'
      else (k, n) :: increment login d'
  end.

(** The number of occurrences of a character. *)
Fixpoint count_char (c : ascii) (s : string) : nat :=
  match s with
  | EmptyString => O
  | String c' s' => ((if Ascii.eqb c' c then 1 else 0) + count_char c s')%nat
  end.

(** A template with one [%s] and no other percent sign. *)
Definition simple_template (template : string) : bool :=
  (count_char "%" template =? 1)%nat && contains "%s" template.

(** What [template % value] makes of a simple template. *)
Definition percent_s (template value : string) : string :=
  replace "%s" value template.

(** [template % value] for a string [value]: a template without percent
    sign raises [TypeError] (not all arguments converted); for a template
    that is not simple, [e_percent] says what is made or raised. *)
Definition format_with (E : Env) (template value : string) : M string :=
  if negb (contains "%" template)
  then raise TypeError "not all arguments converted during string formatting"
  else if simple_template template then ret (percent_s template value)
  else fun w => (e_percent E template value, w).

(** The element at position [k] and the others. *)
Fixpoint take_out {A} (k : nat) (l : list A) : option (A * list A) :=
  match l, k with
  | [], _ => None
  | x :: l', O => Some (x, l')
  | x :: l', S k' =>
      match take_out k' l' with
      | Some (y, rest) => Some (y, x :: rest)
      | None => None
      end
  end.

Inductive loop_exit :=
| NothingPending      (* the condition of the [while] became false *)
| AllBlacklisted.     (* the [break] of line 262 *)

Record sched := Sched {
  df2 : list row;
  blacklist : list string;
  all_speeds : list speed_t
}.

Section Scheduler.
Variable E : Env.
Variable session : SessionModule.
Variable conf : Conf.

Definition filter_product_already_present (df : list row) (outputdir : string)
    (force_download : bool) : M (list row) :=
  for_each df
    (fun r todo =>
       let safename_product := df_safe r in
       archived <- check_safe_in_archive E conf safename_product ;;
       to_download <-
         (if archived then ret force_download
          else
            spooled <- check_safe_in_spool conf safename_product ;;
            if spooled then ret force_download
            else
              in_outdir <- check_safe_in_outputdir E outputdir
                             safename_product ;;
              if in_outdir then ret force_download else ret true) ;;
       if to_download : bool then
         url_product <- format_with E (URL_download conf) (df_id r) ;;
         ret (todo ++
              [Row safename_product (df_status r) (df_id r) url_product
                 (path_join outputdir (safename_product +:+ ".zip"))])%list
       else ret todo)
    [].

(** [as_completed(future_to_url)]: the futures [0 .. n-1], each once, in
    the order the workers finish. *)
Fixpoint as_completed_from (n : nat) (waiting : list nat) : M (list nat) :=
  match n with
  | O => ret []
  | S n' =>
      fun w =>
        match take_out (e_race E (w_race w) mod length waiting)%nat waiting with
        | None => (Ok [], w)
        | Some (jj, rest) =>
            bind (as_completed_from n' rest) (fun l => ret (jj :: l))
              (mkWorld (w_fs w) (w_clock w) (w_rand w) (S (w_race w))
                       (w_posted w) (w_gets w))
        end
  end.

Definition as_completed (n : nat) : M (list nat) :=
  as_completed_from n (seq 0 n).

(** What the loop of line 289 carries from one future to the next. *)
Definition harvest : Type :=
  list row * list speed_t * list (string * nat).

(** Lines 291-350 for the future of index [jj]: the worker runs
    [CDS_Odata_download_one_product_v2], [future.result()] returns its
    tuple or raises what it raised. *)
Definition harvest_future (batch : list slot) (jj : nat) (h : harvest)
  : M harvest :=
  let '(df, speeds, errors_per_account) := h in
  match nth_error batch jj with
  | None => ret h
  | Some g =>
      try_except_Exception
        (result <- CDS_Odata_download_one_product_v2 E conf (slot_header g)
                     (slot_url g) (slot_output_path g)
                     (slot_token_semaphore g) ;;
         let '(speed, status_meaning, safename_base, semaphore_token_file) :=
           result in
         let parts := split_on "_" (basename semaphore_token_file) in
         login <- list_getitem parts 3 ;;
         stamp <- list_getitem parts 4 ;;
         date_generation_access_token <-
           match e_strptime E (replace ".txt" "" stamp) with
           | Some d => ret d
           | None => raise ValueError "time data does not match format"
           end ;;
         remove_semaphore_token_file E (token_directory conf) login
           date_generation_access_token ;;;
         remove_semaphore_session_file session
           (active_session_directory conf) (Some safename_base)
           (Some login) ;;;
         if String.eqb status_meaning "OK"
         then ret (set_status safename_base 1 df, (speeds ++ [speed])%list,
                   errors_per_account)
         else ret (set_status safename_base (-1) df, speeds,
                   increment login errors_per_account))
        (fun _ =>
           let safename_err := slot_safe g in
           let session_sem_err := slot_session_semaphore g in
           present <- os_path_exists session_sem_err ;;
           (if present
            then try_except (os_remove E session_sem_err) [OSError]
                   (fun _ => ret tt)
            else ret tt) ;;;
           ret (set_status safename_err (-1) df, speeds, errors_per_account))
  end.

(** Lines 272-352: the workers of one round and the harvest of their
    results, from empty error counters. *)
Definition harvest_round (batch : list slot) (st : sched) : M harvest :=
  order <- as_completed (length batch) ;;
  for_each order (harvest_future batch) (df2 st, all_speeds st, []).

(** Lines 354-357 *)
Definition newly_blacklisted (errors_per_account : list (string * nat))
  : list string :=
  map fst
    (List.filter (fun kv => (MAX_SESSION_PER_ACCOUNT session <=? snd kv)%nat)
       errors_per_account).

(** One turn of the [while] of line 242: [inl] to go on, [inr] at the
    [break].  [time.sleep(10)] changes nothing the model keeps. *)
Definition scheduling_round (account_group : string) (st : sched)
  : M (sched + sched) :=
  let subset_to_treat := List.filter (fun r => df_status r =? 0) (df2 st) in
  dfproductDownloaddable <-
    get_sessions_download_available session conf subset_to_treat
      (blacklist st) account_group ;;
  if (length dfproductDownloaddable =? 0)%nat then
    accounts <- dict_getitem account_group (groups conf) ;;
    if (length accounts <=? length (blacklist st))%nat
    then ret (inr st)
    else ret (inl st)
  else
    h <- harvest_round dfproductDownloaddable st ;;
    let '(df, speeds, errors_per_account) := h in
    ret (inl (Sched df
                (blacklist st ++ newly_blacklisted errors_per_account)%list
                speeds)).

(** The [while] loop, for at most [fuel] turns; [None] when the turns ran
    out before the loop was left. *)
Fixpoint while_loop (fuel : nat) (account_group : string) (st : sched)
  : M (option (loop_exit * sched)) :=
  match fuel with
  | O => ret None
  | S fuel' =>
      if existsb (fun r => df_status r =? 0) (df2 st) then
        next <- scheduling_round account_group st ;;
        match next with
        | inl st' => while_loop fuel' account_group st'
        | inr st' => ret (Some (AllBlacklisted, st'))
        end
      else ret (Some (NothingPending, st))
  end.

(** The counters [cpt] feed the log only and are left out. *)
Definition download_list_product_multithread_v2 (fuel : nat)
    (list_id list_safename : list string) (outputdir account_group : string)
    (check_on_disk : bool) : M (option (list row)) :=
  (if (length list_id =? length list_safename)%nat then ret tt
   else raise AssertionError "") ;;;
  let df := map (fun p => Row (fst p) 0 (snd p) "" "")
                (combine list_safename list_id) in
  let force_download := negb check_on_disk in
  todo <- filter_product_already_present df outputdir force_download ;;
  final <- while_loop fuel account_group (Sched todo [] []) ;;
  match final with
  | None => ret None
  | Some (_, st) =>
      remove_semaphore_session_file session (active_session_directory conf)
        None None ;;;
      ret (Some (df2 st))
  end.

End Scheduler.

(** ** download.py: the sequential download *)

(** The variables [access_token], [date_generation_access_token],
    [specific_account], [path_semphore_token] and [headers] of
    [download_list_product]. *)
Record held := Held {
  held_access_token : json;
  held_date : option datetime;
  held_account : option string;
  held_path : option string;
  held_headers : string
}.

Section Sequential.
Variable E : Env.
Variable session : SessionModule.
Variable conf : Conf.

(** ["%s" % v] on what [get_bearer_access_token] returns as a token *)
Definition format_token (v : json) : string :=
  match v with
  | JStr s => s
  | JNull => "None"
  | JBool true => "True"
  | JBool false => "False"
  | _ => e_repr E v
  end.

Definition bearer (access_token : json) : string :=
  "Bearer " +:+ format_token access_token.

(** Lines 394-412: a token to start with. *)
Definition initial_token (specific_account specific_passwd : option string)
  : M (json * option datetime * option string) :=
  lst_usable_tokens <- get_list_of_exising_token E (token_directory conf) None ;;
  match lst_usable_tokens with
  | [] =>
      r <- get_bearer_access_token E conf specific_account specific_passwd
             "logins" ;;
      let '(access_token, date_generation_access_token, _, path_semphore_token)
        := r in
      ret (access_token, date_generation_access_token, path_semphore_token)
  | _ =>
      path_semphore_token <- random_choice E lst_usable_tokens ;;
      stamp <- list_getitem (split_on "_" (basename path_semphore_token)) 4 ;;
      date_generation_access_token <-
        match e_strptime E (replace ".txt" "" stamp) with
        | Some d => ret d
        | None => raise ValueError "time data does not match format"
        end ;;
      access_token <- read_first_line path_semphore_token ;;
      ret (JStr access_token, Some date_generation_access_token,
           Some path_semphore_token)
  end.

(** Lines 442-455: the token the next download is made with. *)
Definition renew_if_expired (h : held) : M held :=
  now <- datetime_today E ;;
  date_generation_access_token <-
    match held_date h with
    | Some d => ret d
    | None => raise TypeError "unsupported operand type(s) for -"
    end ;;
  if seconds_ge (now - date_generation_access_token)
       MAX_VALIDITY_ACCESS_TOKEN
  then
    r <- get_bearer_access_token E conf (held_account h) None "logins" ;;
    let '(access_token, date', specific_account, path_semphore_token) := r in
    ret (Held access_token date' specific_account path_semphore_token
           (bearer access_token))
  else ret h.

(** Lines 426-484 for one product. *)
Definition download_product (outputdir id_product safename_product : string)
    (h : held) : M held :=
  url_product <- format_with E (URL_download conf) id_product ;;
  archived <- check_safe_in_archive E conf safename_product ;;
  if archived then ret h
  else
    spooled <- check_safe_in_spool conf safename_product ;;
    if spooled then ret h
    else
      h1 <- renew_if_expired h ;;
      let output_filepath :=
        path_join outputdir (safename_product +:+ ".zip") in
      r <- CDS_Odata_download_one_product_v2 E conf (held_headers h1)
             url_product output_filepath (held_path h1) ;;
      let '(_, _, safename_base, path_semphore_token) := r in
      date_generation_access_token <-
        match held_date h1 with
        | Some d => ret d
        | None => raise AttributeError "'NoneType' object has no attribute 'strftime'"
        end ;;
      remove_semaphore_token_file E (token_directory conf)
        (pystr (held_account h1)) date_generation_access_token ;;;
      remove_semaphore_session_file session (active_session_directory conf)
        (Some safename_base) (held_account h1) ;;;
      ret (Held (held_access_token h1) (held_date h1) (held_account h1)
             path_semphore_token (held_headers h1)).

(** The speeds and the counters feed the log only and are left out. *)
Definition download_list_product (list_id list_safename : list string)
    (outputdir : string) (specific_account specific_passwd : option string)
  : M unit :=
  (if (length list_id =? length list_safename)%nat then ret tt
   else raise AssertionError "") ;;;
  t <- initial_token specific_account specific_passwd ;;
  let '(access_token, date_generation_access_token, path_semphore_token) := t in
  match access_token with
  | JNull => ret tt
  | _ =>
      for_each (combine list_id list_safename)
        (fun p h => download_product outputdir (fst p) (snd p) h)
        (Held access_token date_generation_access_token specific_account
           path_semphore_token (bearer access_token)) ;;;
      ret tt
  end.

End Sequential.

(** ** session.py, from the specification *)

Section SessionFromSpec.
Variable E : Env.
Variable max_session_per_account : nat.

(** Modelled from the spec: [cdsodatacli/session.py] is not among the
    sources.  A session lease is a file of the active-session directory
    named from the login and the product name.  *)
Definition session_file_name (login safename : string) : string :=
  "CDSE_active_session_" +:+ login +:+ "_" +:+ safename +:+ ".txt".

(** Modelled from the spec: the missing [delete] of the lease store,
    which is idempotent and ignores a missing lease. *)
Definition delete_lease (p : string) : M unit :=
  try_except (os_remove E p) [OSError] (fun _ => ret tt).

(** Modelled from the spec: the missing [remove_semaphore_session_file],
    which releases the slot of one (login, product) pair, or sweeps all
    the session leases when neither is given. *)
Definition spec_remove_semaphore_session_file (session_dir : string)
    (safename login : option string) : M unit :=
  match safename, login with
  | Some s, Some l =>
      delete_lease (path_join session_dir (session_file_name l s))
  | _, _ =>
      leases <- glob E session_dir "CDSE_active_session_" ".txt" ;;
      for_each leases (fun p _ => delete_lease p) tt
  end.

(** Modelled from the spec: the missing [acquire] of the token manager
    (4.2) for one login: an unexpired lease chosen at random when there is
    one, a new token from the identity endpoint otherwise. *)
Definition spec_acquire (conf : Conf) (account_group login : string)
  : M (option (string * string)) :=
  leases <- get_list_of_exising_token E (token_directory conf) (Some login) ;;
  match leases with
  | [] =>
      r <- get_bearer_access_token E conf (Some login) None account_group ;;
      match r with
      | (JStr token, _, _, Some lease) => ret (Some (token, lease))
      | _ => ret None
      end
  | _ =>
      lease <- random_choice E leases ;;
      token <- read_first_line lease ;;
      ret (Some (token, lease))
  end.

(** Modelled from the spec: the part of the missing admission controller
    (4.3) for one account that is not blacklisted: the remaining capacity,
    a token, then up to that many pending items not granted yet in this
    round, each with a new session lease. *)
Definition spec_admit_account (conf : Conf) (account_group : string)
    (pending : list row) (login : string) (grants : list slot)
  : M (list slot) :=
  let session_dir := active_session_directory conf in
  current <- glob E session_dir ("CDSE_active_session_" +:+ login +:+ "_")
               ".txt" ;;
  let capacity := (max_session_per_account - length current)%nat in
  acquired <- spec_acquire conf account_group login ;;
  match acquired with
  | None => ret grants
  | Some (token, token_lease) =>
      let free :=
        List.filter (fun r => negb (existsb (fun g => String.eqb (slot_safe g)
                                                  (df_safe r)) grants))
               pending in
      for_each (firstn capacity free)
        (fun r gs =>
           let lease :=
             path_join session_dir (session_file_name login (df_safe r)) in
           open_for_writing E lease ;;;
           ret (gs ++ [Slot (df_safe r) ("Bearer " +:+ token) (df_urls r)
                         (df_outputpath r) token_lease lease])%list)
        grants
  end.

(** Modelled from the spec: the missing [get_sessions_download_available],
    the admission controller (4.3). *)
Definition spec_get_sessions_download_available (conf : Conf)
    (pending : list row) (blacklisted : list string) (account_group : string)
  : M (list slot) :=
  accounts <- dict_getitem account_group (groups conf) ;;
  for_each accounts
    (fun account grants =>
       if existsb (String.eqb (fst account)) blacklisted then ret grants
       else spec_admit_account conf account_group pending (fst account) grants)
    [].

Definition session_from_spec : SessionModule :=
  mkSessionModule max_session_per_account
    spec_get_sessions_download_available
    spec_remove_semaphore_session_file.

End SessionFromSpec.

(** ** A calendar for the sample runs *)

(** Days since 1970-01-01 of a date of the proleptic Gregorian calendar, and
    back. *)
Definition days_from_civil (y m d : Z) : Z :=
  let y' := if m <=? 2 then y - 1 else y in
  let era := y' / 400 in
  let yoe := y' - era * 400 in
  let mp := if 2 <? m then m - 3 else m + 9 in
  let doy := (153 * mp + 2) / 5 + d - 1 in
  let doe := yoe * 365 + yoe / 4 - yoe / 100 + doy in
  era * 146097 + doe - 719468.

Definition civil_from_days (z : Z) : Z * Z * Z :=
  let z := z + 719468 in
  let era := z / 146097 in
  let doe := z - era * 146097 in
  let yoe := (doe - doe / 1460 + doe / 36524 - doe / 146096) / 365 in
  let y := yoe + era * 400 in
  let doy := doe - (365 * yoe + yoe / 4 - yoe / 100) in
  let mp := (5 * doy + 2) / 153 in
  let d := doy - (153 * mp + 2) / 5 + 1 in
  let m := if mp <? 10 then mp + 3 else mp - 9 in
  (if m <=? 2 then y + 1 else y, m, d).

Definition digit (n : Z) : ascii := ascii_of_nat (48 + Z.to_nat (n mod 10)).

Fixpoint zero_padded (width : nat) (n : Z) : string :=
  match width with
  | O => EmptyString
  | S w => zero_padded w (n / 10) +:+ String (digit n) EmptyString
  end.

Fixpoint digits_value (acc : Z) (s : string) : option Z :=
  match s with
  | EmptyString => Some acc
  | String c s' =>
      let n := Z.of_nat (nat_of_ascii c) - 48 in
      if (0 <=? n) && (n <=? 9) then digits_value (10 * acc + n) s' else None
  end.

(** [d.strftime("%Y%m%dt%H%M%S")] *)
Definition strftime_token (d : datetime) : string :=
  let secs := d / 1000000 in
  let '(y, m, dd) := civil_from_days (secs / 86400) in
  let rest := secs mod 86400 in
  zero_padded 4 y +:+ zero_padded 2 m +:+ zero_padded 2 dd +:+ "t" +:+
  zero_padded 2 (rest / 3600) +:+ zero_padded 2 (rest mod 3600 / 60) +:+
  zero_padded 2 (rest mod 60).

(** [datetime.strptime(s, "%Y%m%dt%H%M%S")] on the zero-padded stamps that
    [strftime] writes; [None] stands for [ValueError]. *)
Definition strptime_token (s : string) : option datetime :=
  if negb (String.length s =? 15)%nat then None
  else if negb (String.eqb (substring 8 1 s) "t") then None
  else
    match digits_value 0 (substring 0 4 s), digits_value 0 (substring 4 2 s),
          digits_value 0 (substring 6 2 s), digits_value 0 (substring 9 2 s),
          digits_value 0 (substring 11 2 s), digits_value 0 (substring 13 2 s)
    with
    | Some y, Some m, Some dd, Some hh, Some mm, Some ss =>
        let days := days_from_civil y m dd in
        let '(y', m', dd') := civil_from_days days in
        if (1 <=? y) && (y =? y') && (m =? m') && (dd =? dd') &&
           (hh <? 24) && (mm <? 60) && (ss <? 60)
        then Some ((days * 86400 + hh * 3600 + mm * 60 + ss) * 1000000)
        else None
    | _, _, _, _, _, _ => None
    end.

(** ** Sample configuration, environments and worlds *)

Definition sample_conf : Conf :=
  mkConf "https://identity.example/token"
         "https://download.example/Products(%s)/$value"
         "/tokens" "/sessions" "/pre_spool" "/spool" "/archive"
         [("logins", [("alice", "pw-alice"); ("bob", "pw-bob")])].

(** 2024-01-01 00:00:00 *)
Definition sample_midnight : datetime := 1704067200000000.

(** An environment in which the [n]-th clock reading falls [n] seconds after
    [start] and the OS refuses nothing but the paths of [denied]; the
    templates and the patterns of the samples need neither [e_percent] nor
    [e_glob]. *)
Definition sample_env (start : datetime) (random : nat -> nat)
    (denied : string -> bool) (identity : list payload -> post_outcome)
    (download : list get_request -> get_outcome) (zip : string -> zip_outcome)
  : Env :=
  mkEnv (fun n => start + Z.of_nat n * 1000000)
        (fun n => inject_Z (Z.of_nat n))
        random (fun _ => 0%nat) denied 420 identity download zip
        strptime_token strftime_token (fun _ _ => false) (fun _ => "")
        denied
        (fun _ _ => Raise (Exn ValueError "unsupported format character"))
        (fun _ _ => false).

Definition nothing_denied : string -> bool := fun _ => false.

Definition identity_grants (token : string) : list payload -> post_outcome :=
  fun _ => PostReturns
             (PostResponse 200 "" (JsonValue (JObj [("access_token", JStr token)]))).

Definition download_answers (r : get_response) : list get_request -> get_outcome :=
  fun _ => GetReturns r.

Definition zip_always (o : zip_outcome) : string -> zip_outcome := fun _ => o.

Definition empty_world : World := mkWorld ∅ 0 0 0 [] [].

Definition world_with (files : list (string * node)) : World :=
  mkWorld (list_to_map files) 0 0 0 [] [].

(** A token lease of alice issued at the sample midnight. *)
Definition alice_lease : string :=
  "/tokens/CDSE_access_token_alice_20240101t000000.txt".

(** ** What a computation leaves unchanged: the notions *)

(** [keeps R m]: every run of [m] relates the world before to the world
    after, whether it returns or raises. *)
Definition keeps {A} (R : World -> World -> Prop) (m : M A) : Prop :=
  forall w, R w (snd (m w)).

Definition same_fs (w w' : World) : Prop := w_fs w' = w_fs w.
Definition same_posted (w w' : World) : Prop := w_posted w' = w_posted w.

(** ** The answers of the identity endpoint *)

(** An answer on which [fetch_token_data] gives up: no answer at all, an
    error status of [raise_for_status] (400 to 599), or a body that is not
    JSON. *)
Definition endpoint_rejects (o : post_outcome) : Prop :=
  match o with
  | PostRaises _ => True
  | PostReturns r =>
      (400 <= post_status_code r < 600) \/ post_json r = JsonMalformed
  end.

(** An answer with a body that is not JSON or with a status outside 200 to
    299. *)
Definition malformed_or_not_2xx (o : post_outcome) : Prop :=
  match o with
  | PostRaises _ => False
  | PostReturns r =>
      post_json r = JsonMalformed \/ ~ (200 <= post_status_code r < 300)
  end.

(** An identity endpoint that answers 302 with a token in a JSON body. *)
Definition identity_redirects (token : string) : list payload -> post_outcome :=
  fun _ => PostReturns
             (PostResponse 302 "" (JsonValue (JObj [("access_token", JStr token)]))).

Definition identity_malformed : list payload -> post_outcome :=
  fun _ => PostReturns (PostResponse 200 "<html>" JsonMalformed).

Definition sample_download_ok : list get_request -> get_outcome :=
  download_answers (GetResponse 200 "OK" false CLAbsent [] StreamDone).

(** ** The integrity test of an archive *)

(** The archive fails the test: [testzip()] names a corrupt member, or the
    file is not a ZIP archive at all. *)
Definition zip_fails (o : zip_outcome) : Prop :=
  match o with
  | ZipBadMember _ | ZipBadZipFile => True
  | _ => False
  end.



Definition sample_outdir_zip : string := "/out/S1A_IW_GRDH.SAFE.zip".

(** ** The outcomes of a download *)

(** The bytes that the chunks of a body add up to. *)
Definition body_bytes (chunks : list string) : string :=
  fold_right String.append EmptyString chunks.

Definition is_RequestError (status_meaning : string) : Prop :=
  exists msg, status_meaning = "RequestError: " +:+ msg.

Definition is_StreamError (status_meaning : string) : Prop :=
  exists msg, status_meaning = "StreamError: " +:+ msg.

(** The [try] block of the executor, entered in the world [w0], meets a
    status that is not 2xx or an exception before or during the streaming:
    the temporary file cannot be opened, the request raises, the status is
    outside 200 to 299, the content length is not a number or is too large
    for a float, or the iteration over the body raises. *)
Definition transfer_fails (E : Env) (url headers tmp : string) (w0 : World)
  : Prop :=
  e_denied E tmp = true \/ w_fs w0 !! tmp = Some Dir \/
  match e_download E (w_gets w0 ++ [GetRequest url headers])%list with
  | GetRaises _ => True
  | GetReturns r =>
      ~ (200 <= status_code r < 300) \/
      read_megabytes (header_content_length r) = None \/
      body_end r <> StreamDone
  end.

(** The streaming of the body is reached in the world [w0] and [r] is the
    response streamed. *)
Definition streams (E : Env) (url headers tmp : string) (w0 : World)
    (r : get_response) : Prop :=
  e_denied E tmp = false /\ w_fs w0 !! tmp <> Some Dir /\
  e_download E (w_gets w0 ++ [GetRequest url headers])%list = GetReturns r /\
  is_error_status (status_code r) = false /\
  read_megabytes (header_content_length r) <> None.

(** The world in which the executor enters its [try] block. *)
Definition world_at_try (E : Env) (conf : Conf) (w : World) : World :=
  snd (enter_try E conf w).

(** The world after the temporary file was opened, the request sent and
    [data] written. *)
Definition after_request (w0 : World) (url headers tmp data : string) (mode : Z)
  : World :=
  mkWorld (<[tmp := File data mode]> (w_fs w0)) (w_clock w0) (w_rand w0)
          (w_race w0) (w_posted w0) (w_gets w0 ++ [GetRequest url headers])%list.


(** [os.remove] succeeds on [p]: a regular file the OS lets go. *)
Definition removable (E : Env) (p : string) (fs : gmap string node) : bool :=
  match fs !! p with
  | Some (File _ _) => negb (e_denied E p)
  | _ => false
  end.

(** The world after one more clock reading. *)
Definition tick (w : World) : World :=
  mkWorld (w_fs w) (S (w_clock w)) (w_rand w) (w_race w) (w_posted w) (w_gets w).

(** The world after [os.remove(p)] with [OSError] passed over. *)
Definition without (E : Env) (p : string) (w : World) : World :=
  if removable E p (w_fs w) then with_fs w (delete p (w_fs w)) else w.

(** ** Strings without a separator *)

Fixpoint no_sep (sep : ascii) (s : string) : bool :=
  match s with
  | EmptyString => true
  | String c s' => negb (Ascii.eqb c sep) && no_sep sep s'
  end.

(** ** Sample downloads *)

Definition sample_url : string := "https://download.example/Products(42)/$value".
Definition sample_output : string := "/out/S1A_IW_GRDH.zip".
Definition sample_tmp : string := "/pre_spool/S1A_IW_GRDH.zip.tmp".

(** A world with the staging directory and the output directory. *)
Definition staged_world : World :=
  world_with [("/pre_spool", Dir); ("/out", Dir)].

(** [int(int(content-length) / 1000 / 1000)] as the floats give it, 0
    without the header. *)
Definition megabytes (cl : content_length) : Z :=
  match read_megabytes cl with
  | Some total_length => total_length
  | None => 0
  end.

(** The speed that the executor reports for [total] megabytes in
    [elapsed_time] seconds. *)
Definition reported_speed (total : Z) (elapsed_time : Q) : Q :=
  if Qpositive elapsed_time then Qdiv (inject_Z total) elapsed_time else 0%Q.

(** ** What a computation returns: the notions *)

(** [returns P m]: whenever [m] returns, the value returned satisfies [P]. *)
Definition returns {A} (P : A -> Prop) (m : M A) : Prop :=
  forall w a w', m w = (Ok a, w') -> P a.

(** [total m]: [m] never raises. *)
Definition total {A} (m : M A) : Prop :=
  forall w, exists a w', m w = (Ok a, w').

(** ** Statuses *)

Definition pending (r : row) : bool := df_status r =? 0.

Definition terminal (r : row) : Prop := df_status r = 1 \/ df_status r = -1.

Definition known_status (r : row) : Prop :=
  df_status r = 0 \/ df_status r = 1 \/ df_status r = -1.

(** The state a round hands over, whether the loop goes on or stops. *)
Definition handed_over (next : sched + sched) : sched :=
  match next with inl st => st | inr st => st end.

(** ** A sample run: one account, three products, a failing server *)

Definition single_account_conf : Conf :=
  mkConf "https://identity.example/token"
         "https://download.example/Products(%s)/$value"
         "/tokens" "/sessions" "/pre_spool" "/spool" "/archive"
         [("logins", [("alice", "pw-alice")])].

Definition failing_env : Env :=
  sample_env sample_midnight (fun _ => 0%nat) nothing_denied
    (identity_grants "tok")
    (download_answers
       (GetResponse 500 "Internal Server Error" false CLAbsent [] StreamDone))
    (zip_always ZipSound).

Definition three_products : list row :=
  [ Row "P1" 0 "id1" "https://download.example/Products(id1)/$value" "/out/P1.zip";
    Row "P2" 0 "id2" "https://download.example/Products(id2)/$value" "/out/P2.zip";
    Row "P3" 0 "id3" "https://download.example/Products(id3)/$value" "/out/P3.zip" ].

(** ** Requests to the download endpoint: the notions *)

Definition same_gets (w w' : World) : Prop := w_gets w' = w_gets w.

Definition same_clock (w w' : World) : Prop := w_clock w' = w_clock w.

(** ** Token leases: the notions *)

(** The stamp of a lease file, as [get_list_of_exising_token] reads it. *)
Definition lease_stamp (ll : string) : string :=
  List.last (split_on "_" (replace ".txt" "" (basename ll))) EmptyString.

(** A lease issued at [issued_at] is younger than the validity window at
    the instant [now]. *)
Definition still_valid (now issued_at : datetime) : Prop :=
  (total_seconds (now - issued_at)%Z < inject_Z MAX_VALIDITY_ACCESS_TOKEN)%Q.

Definition expired (now issued_at : datetime) : Prop :=
  (inject_Z MAX_VALIDITY_ACCESS_TOKEN <= total_seconds (now - issued_at)%Z)%Q.

(** ** Paths a computation may change: the notion *)

(** The file systems of [w] and [w'] agree on every path that is not one of
    [paths]. *)
Definition outside (paths : list string) (w w' : World) : Prop :=
  forall p, ~ In p paths -> w_fs w' !! p = w_fs w !! p.

(** ** The rows to download: the notion *)

(** The row of [df_todownload] that [filter_product_already_present] makes
    from a row of [df], for a simple template of the URL: the URL and the
    output path are filled in. *)
Definition todo_row (conf : Conf) (outputdir : string) (r : row) : row :=
  Row (df_safe r) (df_status r) (df_id r)
      (percent_s (URL_download conf) (df_id r))
      (path_join outputdir (df_safe r +:+ ".zip")).

(** What the harvest of a round never changes in a row: everything but the
    status. *)
Definition row_product (r : row) : string * string * string * string :=
  (df_safe r, df_id r, df_urls r, df_outputpath r).

(** A sample session module for the runs below: its admission grants
    nothing and its release does nothing. *)
Definition session_without_slot (max_sessions : nat) : SessionModule :=
  mkSessionModule max_sessions
    (fun _ _ _ _ => ret [])
    (fun _ _ _ => ret tt).

(** ** The requests of a download: the notions *)

(** [open(p, "wb")] succeeds in the world [w]. *)
Definition can_open (E : Env) (p : string) (w : World) : bool :=
  negb (e_denied E p) &&
  match w_fs w !! p with Some Dir => false | _ => true end.

(** The staging directory is missing and cannot be made: the executor
    raises before its [try] block. *)
Definition staging_refused (E : Env) (conf : Conf) (w : World) : bool :=
  match w_fs w !! pre_spool conf with
  | None => e_denied E (pre_spool conf)
  | Some _ => false
  end.

(** The requests that a run of the executor from the world [w] sends: one,
    when the [try] block is entered and the temporary file can be opened,
    and none otherwise. *)
Definition requests_of_download (E : Env) (conf : Conf)
    (url headers output_filepath : string) (w : World) : list get_request :=
  if negb (staging_refused E conf w) &&
     can_open E (tmp_path conf output_filepath) w
  then [GetRequest url headers] else [].

(** ** Directories made: the notions *)

(** The world after [os.makedirs(p, exist_ok=True)] made [p] and the
    directories that were missing above it. *)
Definition with_directory (p : string) (w : World) : World :=
  with_fs w (<[p := Dir]> (make_missing (ancestors p) (w_fs w))).

(** The world after [os.makedirs(p, exist_ok=True)] with [OSError] passed
    over, for a path that [os.path.exists] may have found. *)
Definition after_makedirs (E : Env) (p : string) (w : World) : World :=
  match w_fs w !! p with
  | Some _ => w
  | None => if e_denied E p then w else with_directory p w
  end.

(** [os.makedirs(p, exist_ok=True)] has nothing to do or can do its work:
    [p] is a directory, or it is a path that is not empty and is missing,
    no path above it is a regular file and the operating system does not
    refuse to make it. *)
Definition directory_available (E : Env) (p : string) (w : World) : Prop :=
  w_fs w !! p = Some Dir \/
  (w_fs w !! p = None /\ p <> "" /\ e_denied E p = false /\
   forall a data mode, In a (ancestors p) -> w_fs w !! a <> Some (File data mode)).

(** ** Paths below a directory: the notion *)

(** What [os.path.join] puts before a relative name. *)
Definition dir_prefix (a : string) : string :=
  if String.eqb a "" || endswith "/" a then a else a +:+ "/".

(** * Properties *)

(** ** Arithmetic on durations *)

Lemma seconds_ge_iff (td : timedelta) (n : Z) :
  seconds_ge td n = true <-> (inject_Z n <= total_seconds td)%Q.
Proof. unfold seconds_ge. apply Qle_bool_iff. Qed.

Lemma seconds_lt_iff (td : timedelta) (n : Z) :
  seconds_lt td n = true <-> (total_seconds td < inject_Z n)%Q.
Proof.
  unfold seconds_lt. rewrite negb_true_iff.
  split.
  - intros H. apply Qnot_le_lt. intros Hle.
    apply Qle_bool_iff in Hle. congruence.
  - intros H. destruct (Qle_bool (inject_Z n) (total_seconds td)) eqn:Hb; auto.
    apply Qle_bool_iff in Hb. exfalso. eapply Qlt_not_le; eauto.
Qed.


(** ** Releasing a token lease *)

Lemma os_remove_effect E p w :
  (fst (os_remove E p w) = Ok tt /\
   w_fs (snd (os_remove E p w)) = delete p (w_fs w) /\
   e_denied E p = false /\ exists d m, w_fs w !! p = Some (File d m)) \/
  ((exists e, fst (os_remove E p w) = Raise e /\ exn_cls e = OSError) /\
   snd (os_remove E p w) = w /\
   (e_denied E p = true \/ w_fs w !! p = Some Dir \/ w_fs w !! p = None)).
Proof.
  unfold os_remove.
  destruct (w_fs w !! p) as [[d m|]|] eqn:Hp.
  - destruct (e_denied E p) eqn:Hd.
    + right. simpl. eauto 10.
    + left. simpl. eauto 10.
  - right. simpl. eauto 10.
  - right. simpl. eauto 10.
Qed.

(** Removing a file and passing over [OSError]. *)
Lemma remove_quietly_effect E p w :
  let out := try_except (os_remove E p) [OSError] (fun _ => ret tt) w in
  fst out = Ok tt /\
  ((w_fs (snd out) = delete p (w_fs w) /\ e_denied E p = false /\
    exists d m, w_fs w !! p = Some (File d m)) \/
   (snd out = w /\
    (e_denied E p = true \/ w_fs w !! p = Some Dir \/ w_fs w !! p = None))).
Proof.
  unfold try_except.
  destruct (os_remove_effect E p w) as [(Hr & Hfs & Hd & Hf)|((e & Hr & Hc) & Hw & Hwhy)];
    destruct (os_remove E p w) as [r w'] eqn:Hrun; simpl in *; subst.
  - split; [reflexivity|]. left. auto.
  - unfold isinstance. rewrite Hc. simpl. split; [reflexivity|]. right. auto.
Qed.
(** ** What a computation leaves unchanged *)

Section Keeps.
Variable R : World -> World -> Prop.
Hypothesis R_refl : forall w, R w w.
Hypothesis R_trans : forall w1 w2 w3, R w1 w2 -> R w2 w3 -> R w1 w3.

Lemma keeps_ret {A} (a : A) : keeps R (ret a).
Proof. intros w. apply R_refl. Qed.

Lemma keeps_raise {A} c msg : keeps R (@raise A c msg).
Proof. intros w. apply R_refl. Qed.

Lemma keeps_bind {A B} (m : M A) (k : A -> M B) :
  keeps R m -> (forall a, keeps R (k a)) -> keeps R (bind m k).
Proof.
  intros Hm Hk w. unfold bind. specialize (Hm w).
  destruct (m w) as [[a|e] w1]; simpl in *.
  - eapply R_trans; [exact Hm|apply Hk].
  - exact Hm.
Qed.

Lemma keeps_try_except {A} (m : M A) cs h :
  keeps R m -> (forall e, keeps R (h e)) -> keeps R (try_except m cs h).
Proof.
  intros Hm Hh w. unfold try_except. specialize (Hm w).
  destruct (m w) as [[a|e] w1]; simpl in *; [exact Hm|].
  destruct (existsb (isinstance e) cs); simpl; [|exact Hm].
  eapply R_trans; [exact Hm|apply Hh].
Qed.

Lemma keeps_try_except_Exception {A} (m : M A) h :
  keeps R m -> (forall e, keeps R (h e)) ->
  keeps R (try_except_Exception m h).
Proof.
  intros Hm Hh w. unfold try_except_Exception. specialize (Hm w).
  destruct (m w) as [[a|e] w1]; simpl in *; [exact Hm|].
  eapply R_trans; [exact Hm|apply Hh].
Qed.

Lemma keeps_for_each {A S} (l : list A) (body : A -> S -> M S) :
  (forall x s, keeps R (body x s)) -> forall s, keeps R (for_each l body s).
Proof.
  intros Hb. induction l as [|x l IH]; intros s; simpl.
  - apply keeps_ret.
  - apply keeps_bind; auto.
Qed.
End Keeps.

Lemma same_fs_refl w : same_fs w w.
Proof. reflexivity. Qed.
Lemma same_fs_trans w1 w2 w3 : same_fs w1 w2 -> same_fs w2 w3 -> same_fs w1 w3.
Proof. unfold same_fs. congruence. Qed.
Lemma same_posted_refl w : same_posted w w.
Proof. reflexivity. Qed.
Lemma same_posted_trans w1 w2 w3 :
  same_posted w1 w2 -> same_posted w2 w3 -> same_posted w1 w3.
Proof. unfold same_posted. congruence. Qed.

Create HintDb keeps.
#[export] Hint Resolve same_fs_refl same_fs_trans same_posted_refl
  same_posted_trans : keeps.

(** Splits a goal [keeps R m] along the structure of [m]. *)
Ltac keeps_step R_refl R_trans :=
  match goal with
  | |- keeps _ (bind _ _) => apply (keeps_bind _ R_trans); [|intros]
  | |- keeps _ (ret _) => apply (keeps_ret _ R_refl)
  | |- keeps _ (raise _ _) => apply (keeps_raise _ R_refl)
  | |- keeps _ (try_except _ _ _) =>
      apply (keeps_try_except _ R_trans); [|intros]
  | |- keeps _ (try_except_Exception _ _) =>
      apply (keeps_try_except_Exception _ R_trans); [|intros]
  | |- keeps _ (for_each _ _ _) =>
      apply (keeps_for_each _ R_refl R_trans); intros
  | |- keeps _ (dict_getitem _ _) => unfold dict_getitem
  | |- keeps _ (list_getitem _ _) => unfold list_getitem
  | |- keeps _ (match ?x with _ => _ end) => destruct x
  end.

Ltac keeps_fs := repeat keeps_step same_fs_refl same_fs_trans.
Ltac keeps_posted := repeat keeps_step same_posted_refl same_posted_trans.

(** The primitives and the file system *)
Lemma datetime_today_same_fs E : keeps same_fs (datetime_today E).
Proof. intros w. reflexivity. Qed.
Lemma time_time_same_fs E : keeps same_fs (time_time E).
Proof. intros w. reflexivity. Qed.
Lemma random_choice_same_fs E {A} (l : list A) : keeps same_fs (random_choice E l).
Proof. intros w. unfold random_choice. destruct (nth_error _ _); reflexivity. Qed.
Lemma os_path_exists_same_fs p : keeps same_fs (os_path_exists p).
Proof. intros w. reflexivity. Qed.
Lemma requests_post_same_fs E pl : keeps same_fs (requests_post E pl).
Proof. intros w. unfold requests_post. destruct (e_identity E _); reflexivity. Qed.
Lemma session_get_same_fs E u a : keeps same_fs (session_get E u a).
Proof. intros w. unfold session_get. destruct (e_download E _); reflexivity. Qed.
Lemma glob_same_fs E d pre suf : keeps same_fs (glob E d pre suf).
Proof. intros w. reflexivity. Qed.
Lemma read_first_line_same_fs p : keeps same_fs (read_first_line p).
Proof.
  intros w. unfold read_first_line.
  destruct (w_fs w !! p) as [[[|c d] m|]|]; reflexivity.
Qed.

(** The primitives and the requests to the identity endpoint *)
Lemma datetime_today_same_posted E : keeps same_posted (datetime_today E).
Proof. intros w. reflexivity. Qed.
Lemma time_time_same_posted E : keeps same_posted (time_time E).
Proof. intros w. reflexivity. Qed.
Lemma random_choice_same_posted E {A} (l : list A) :
  keeps same_posted (random_choice E l).
Proof. intros w. unfold random_choice. destruct (nth_error _ _); reflexivity. Qed.
Lemma os_path_exists_same_posted p : keeps same_posted (os_path_exists p).
Proof. intros w. reflexivity. Qed.
Lemma os_remove_same_posted E p : keeps same_posted (os_remove E p).
Proof.
  intros w. unfold os_remove.
  destruct (w_fs w !! p) as [[d m|]|]; try reflexivity.
  destruct (e_denied E p); reflexivity.
Qed.
Lemma os_makedirs_same_posted E p : keeps same_posted (os_makedirs_exist_ok E p).
Proof.
  intros w. unfold os_makedirs_exist_ok.
  destruct (w_fs w !! p) as [[d m|]|]; try reflexivity.
  destruct (e_denied E p); reflexivity.
Qed.
Lemma open_for_writing_same_posted E p : keeps same_posted (open_for_writing E p).
Proof.
  intros w. unfold open_for_writing.
  destruct (e_denied E p); [reflexivity|].
  destruct (w_fs w !! p) as [[d m|]|]; reflexivity.
Qed.
Lemma file_write_same_posted p c : keeps same_posted (file_write p c).
Proof.
  intros w. unfold file_write.
  destruct (w_fs w !! p) as [[d m|]|]; reflexivity.
Qed.
Lemma glob_same_posted E d pre suf : keeps same_posted (glob E d pre suf).
Proof. intros w. reflexivity. Qed.
Lemma read_first_line_same_posted p : keeps same_posted (read_first_line p).
Proof.
  intros w. unfold read_first_line.
  destruct (w_fs w !! p) as [[[|c d] m|]|]; reflexivity.
Qed.

#[export] Hint Resolve datetime_today_same_fs time_time_same_fs
  random_choice_same_fs os_path_exists_same_fs requests_post_same_fs
  session_get_same_fs glob_same_fs read_first_line_same_fs
  datetime_today_same_posted time_time_same_posted random_choice_same_posted
  os_path_exists_same_posted os_remove_same_posted os_makedirs_same_posted
  open_for_writing_same_posted file_write_same_posted glob_same_posted
  read_first_line_same_posted : keeps.

Lemma json_contains_keeps R (R_refl : forall w, R w w) k data :
  keeps R (json_contains k data).
Proof. destruct data; intros w; apply R_refl. Qed.

Lemma json_getitem_keeps R (R_refl : forall w, R w w) k data :
  keeps R (json_getitem k data).
Proof.
  destruct data; try (intros w; apply R_refl).
  unfold json_getitem, dict_getitem. destruct (dict_get k fields); intros w; apply R_refl.
Qed.

Lemma write_token_semphore_file_same_posted E login d token_dir tok :
  keeps same_posted (write_token_semphore_file E login d token_dir tok).
Proof.
  unfold write_token_semphore_file. keeps_posted; auto with keeps.
Qed.

Lemma get_list_of_exising_token_same_fs E token_dir account :
  keeps same_fs (get_list_of_exising_token E token_dir account).
Proof.
  unfold get_list_of_exising_token, keep_if_unexpired.
  keeps_fs; auto with keeps.
  all: destruct (length _ <? 2)%nat; keeps_fs; auto with keeps.
  all: destruct (seconds_lt _ _); keeps_fs.
Qed.

Lemma get_list_of_exising_token_same_posted E token_dir account :
  keeps same_posted (get_list_of_exising_token E token_dir account).
Proof.
  unfold get_list_of_exising_token, keep_if_unexpired.
  keeps_posted; auto with keeps.
  all: destruct (length _ <? 2)%nat; keeps_posted; auto with keeps.
  all: destruct (seconds_lt _ _); keeps_posted.
Qed.

(** C5. Releasing a token lease never raises; it leaves the file system as it
    is or deletes the lease file of the login and issue date; it deletes
    only when the age read from the clock is at least the validity window
    of 600 seconds, so a lease still valid is kept; a missing file changes
    nothing, an [OSError] of the removal is passed over, and releasing again
    after a deletion changes nothing. *)
Theorem remove_semaphore_token_file_only_when_expired
    (E : Env) (token_dir login : string) (issued_at : datetime) (w : World) :
  let path := path_join token_dir (token_file_name E login issued_at) in
  let now := e_today E (w_clock w) in
  let out := remove_semaphore_token_file E token_dir login issued_at w in
  fst out = Ok tt /\
  (w_fs (snd out) = w_fs w \/ w_fs (snd out) = delete path (w_fs w)) /\
  (w_fs (snd out) <> w_fs w ->
   (inject_Z MAX_VALIDITY_ACCESS_TOKEN <= total_seconds (now - issued_at)%Z)%Q) /\
  ((total_seconds (now - issued_at)%Z < inject_Z MAX_VALIDITY_ACCESS_TOKEN)%Q ->
   w_fs (snd out) = w_fs w) /\
  (w_fs w !! path = None -> snd out = w) /\
  (e_denied E path = true -> w_fs (snd out) = w_fs w) /\
  ((inject_Z MAX_VALIDITY_ACCESS_TOKEN <= total_seconds (now - issued_at)%Z)%Q ->
   e_denied E path = false ->
   (exists d m, w_fs w !! path = Some (File d m)) ->
   w_fs (snd out) = delete path (w_fs w)) /\
  (forall w2 : World,
     w_fs w2 = delete path (w_fs w) ->
     remove_semaphore_token_file E token_dir login issued_at w2 = (Ok tt, w2)).
Proof.
  intros path now out.
  assert (Hgone : forall w2 : World, w_fs w2 !! path = None ->
            remove_semaphore_token_file E token_dir login issued_at w2 = (Ok tt, w2)).
  { intros w2 Hnone. unfold remove_semaphore_token_file, bind, os_path_exists.
    fold path. rewrite Hnone.
    rewrite bool_decide_eq_false_2 by (intros [x Hx]; discriminate).
    reflexivity. }
  assert (Hcases :
    fst out = Ok tt /\
    ((w_fs (snd out) = w_fs w /\
      (w_fs w !! path = None -> snd out = w)) \/
     (w_fs (snd out) = delete path (w_fs w) /\
      seconds_ge (now - issued_at) MAX_VALIDITY_ACCESS_TOKEN = true /\
      e_denied E path = false /\
      exists d m, w_fs w !! path = Some (File d m))) /\
    (seconds_ge (now - issued_at) MAX_VALIDITY_ACCESS_TOKEN = true ->
     e_denied E path = false ->
     (exists d m, w_fs w !! path = Some (File d m)) ->
     w_fs (snd out) = delete path (w_fs w))).
  { subst out. unfold remove_semaphore_token_file, bind, os_path_exists.
    fold path.
    destruct (w_fs w !! path) as [n|] eqn:Hp.
    - rewrite bool_decide_eq_true_2 by eauto.
      unfold datetime_today. fold now.
      destruct (seconds_ge (now - issued_at) MAX_VALIDITY_ACCESS_TOKEN) eqn:Hage.
      + match goal with
        | |- context [try_except (os_remove E path) ?cs ?h ?w1] =>
            pose proof (remove_quietly_effect E path w1) as Hrm;
            destruct (try_except (os_remove E path) cs h w1) as [r w'] eqn:Hrun
        end.
        simpl in Hrm. destruct Hrm as [Hr Hrm]. simpl. split; [exact Hr|].
        destruct Hrm as [(Hfs & Hd & Hf)|(Hw & Hwhy)].
        * split; [right; rewrite Hp in Hf; auto|]. intros _ _ _. exact Hfs.
        * subst w'. simpl. split.
          -- left. split; [reflexivity|]. intros Hn. congruence.
          -- intros _ Hd (d & m & Hf).
             destruct Hwhy as [Hd'|[Hdir|Hnone]]; congruence.
      + simpl. split; [reflexivity|]. split.
        * left. split; [reflexivity|]. intros Hn. congruence.
        * intros Hc. discriminate.
    - rewrite bool_decide_eq_false_2 by (intros [x Hx]; discriminate).
      simpl. split; [reflexivity|]. split.
      + left. split; [reflexivity|]. reflexivity.
      + intros _ _ (d & m & Hf). discriminate. }
  destruct Hcases as (Hok & Hfs & Hdel).
  split; [exact Hok|].
  split; [destruct Hfs as [[H _]|[H _]]; auto|].
  split.
  { intros Hchg. destruct Hfs as [[H _]|(_ & Hage & _)]; [congruence|].
    apply seconds_ge_iff. exact Hage. }
  split.
  { intros Hyoung. destruct Hfs as [[H _]|(_ & Hage & _)]; [exact H|].
    apply seconds_ge_iff in Hage. exfalso. eapply Qlt_not_le; eauto. }
  split.
  { intros Hnone. destruct Hfs as [[_ H]|(_ & _ & _ & d & m & Hf)]; [auto|congruence]. }
  split.
  { intros Hden. destruct Hfs as [[H _]|(_ & _ & Hd & _)]; [exact H|congruence]. }
  split.
  { intros Hold. apply Hdel. apply seconds_ge_iff. exact Hold. }
  intros w2 Hw2. apply Hgone. rewrite Hw2. apply lookup_delete_eq.
Qed.

(** A lease of alice issued at the sample midnight and released 700 seconds
    later is deleted. *)
Lemma remove_semaphore_token_file_only_when_expired_witness :
  let E := sample_env (sample_midnight + 700 * 1000000) (fun _ => 0%nat)
             nothing_denied (identity_grants "tok")
             (download_answers (GetResponse 200 "OK" false CLAbsent [] StreamDone))
             (zip_always ZipSound) in
  let w := world_with [(alice_lease, File "tok" 420)] in
  w_fs (snd (remove_semaphore_token_file E "/tokens" "alice" sample_midnight w))
  = delete alice_lease (w_fs w).
Proof.
  intros E w.
  destruct (remove_semaphore_token_file_only_when_expired E "/tokens" "alice"
              sample_midnight w) as (_ & _ & _ & _ & _ & _ & H & _).
  apply H.
  - apply Qle_bool_iff. reflexivity.
  - reflexivity.
  - exists "tok", 420. reflexivity.
Defined.

(** ** The credentials submitted to the identity endpoint *)

Lemma nth_error_mod_Some {A} (l : list A) (k : nat) :
  l <> [] -> exists x, nth_error l (k mod length l) = Some x.
Proof.
  intros Hne.
  destruct (nth_error l (k mod length l)) as [x|] eqn:Hn; [eauto|].
  apply nth_error_None in Hn.
  assert (length l <> 0)%nat by (destruct l; simpl; congruence).
  pose proof (Nat.mod_upper_bound k (length l) H). lia.
Qed.

Lemma fetch_token_data_posted E pl w :
  w_posted (snd (fetch_token_data E pl w)) = (w_posted w ++ [pl])%list.
Proof.
  unfold fetch_token_data, try_except, bind, requests_post.
  destruct (e_identity E _) as [msg|r]; simpl; [reflexivity|].
  destruct (is_error_status _); simpl; [reflexivity|].
  destruct (post_json r); reflexivity.
Qed.

Lemma dict_get_In {V} (k : string) (v : V) (d : list (string * V)) :
  NoDup (map fst d) -> In (k, v) d -> dict_get k d = Some v.
Proof.
  induction d as [|[k' v'] d IH]; simpl; intros Hnd Hin; [contradiction|].
  inversion Hnd as [|? ? Hnotin Hnd']; subst.
  destruct Hin as [Heq|Hin].
  - inversion Heq; subst. rewrite String.eqb_refl. reflexivity.
  - destruct (String.eqb k k') eqn:Hk.
    + apply String.eqb_eq in Hk. subst k'. exfalso. apply Hnotin.
      apply list_elem_of_In. change k with (fst (k, v)). apply in_map.
      exact Hin.
    + apply IH; assumption.
Qed.

Lemma choose_credentials_at_random E conf account_group first_login
    first_password others w :
  dict_get account_group (groups conf)
  = Some ((first_login, first_password) :: others) ->
  exists login,
    nth_error (map fst ((first_login, first_password) :: others))
      (e_random E (w_rand w)
       mod length (map fst ((first_login, first_password) :: others)))%nat
    = Some login /\
    choose_credentials E conf account_group None None w
    = (Ok (Some (login, first_password)),
       mkWorld (w_fs w) (w_clock w) (S (w_rand w)) (w_race w) (w_posted w)
               (w_gets w)).
Proof.
  intros Hg.
  destruct (nth_error_mod_Some (map fst ((first_login, first_password) :: others))
              (e_random E (w_rand w))) as [login Hlogin]; [discriminate|].
  exists login. split; [exact Hlogin|].
  unfold choose_credentials, bind, dict_getitem. rewrite Hg. cbn [ret map fst].
  unfold random_choice. cbn [map fst] in Hlogin. rewrite Hlogin.
  cbn [dict_get]. rewrite String.eqb_refl. reflexivity.
Qed.

Lemma after_credentials_posted E conf login passwd w :
  w_posted (snd
    ((date_generation_access_token <- datetime_today E ;;
      answer <- fetch_token_data E (Payload "cdse-public" login passwd "password") ;;
      match answer with
      | None => ret (no_token)
      | Some data =>
          found <- json_contains "access_token" data ;;
          if negb found
          then ret (JNull, Some date_generation_access_token, Some login, None)
          else
            token <- json_getitem "access_token" data ;;
            path_semphore_token <-
              write_token_semphore_file E login date_generation_access_token
                (token_directory conf) token ;;
            ret (token, Some date_generation_access_token, Some login,
                 path_semphore_token)
      end) w))
  = (w_posted w ++ [Payload "cdse-public" login passwd "password"])%list.
Proof.
  unfold bind at 1. unfold datetime_today at 1.
  unfold bind at 1.
  match goal with
  | |- context [fetch_token_data E ?pl ?w1] =>
      pose proof (fetch_token_data_posted E pl w1) as Hp;
      destruct (fetch_token_data E pl w1) as [[answer|e] w2]
  end; simpl in Hp; [|exact Hp].
  rewrite <- Hp.
  destruct answer as [data|]; [|reflexivity].
  match goal with
  | |- w_posted (snd (?m w2)) = _ =>
      assert (Hk : keeps same_posted m); [|exact (Hk w2)]
  end.
  keeps_posted; auto using json_contains_keeps, json_getitem_keeps with keeps.
  destruct (negb a); keeps_posted;
    auto using json_getitem_keeps, write_token_semphore_file_same_posted with keeps.
Qed.

(** C10. Without a login and without a password, the login posted to the
    identity endpoint is the element of the group that the random draw
    selects, and the password posted is the one of the first account of the
    group in key order; whenever the selected login has another password,
    the posted pair is the pair of no configured account, and there is a
    group of two accounts with distinct passwords for which this happens. *)
Theorem get_bearer_access_token_password_of_first_account
    (E : Env) (conf : Conf) (account_group first_login first_password : string)
    (others : list (string * string)) (w : World) :
  dict_get account_group (groups conf)
  = Some ((first_login, first_password) :: others) ->
  let accounts := (first_login, first_password) :: others in
  let out := get_bearer_access_token E conf None None account_group w in
  (exists login,
     nth_error (map fst accounts)
       (e_random E (w_rand w) mod length (map fst accounts))%nat = Some login /\
     w_posted (snd out)
     = (w_posted w ++ [Payload "cdse-public" login first_password "password"])%list /\
     (NoDup (map fst accounts) ->
      dict_get login accounts <> Some first_password ->
      ~ In (login, first_password) accounts)) /\
  (exists (E' : Env) (conf' : Conf) (group' : string)
          (accounts' : list (string * string)) (w' : World) (pl : payload),
     dict_get group' (groups conf') = Some accounts' /\
     (2 <= length accounts')%nat /\
     NoDup (map fst accounts') /\ NoDup (map snd accounts') /\
     w_posted (snd (get_bearer_access_token E' conf' None None group' w'))
     = (w_posted w' ++ [pl])%list /\
     ~ In (username pl, password pl) accounts').
Proof.
  intros Hg accounts out. split.
  - destruct (choose_credentials_at_random E conf account_group first_login
                first_password others w Hg) as (login & Hlogin & Hcred).
    exists login. split; [exact Hlogin|]. split.
    + subst out. unfold get_bearer_access_token. unfold bind at 1.
      rewrite Hcred. cbv beta iota.
      rewrite after_credentials_posted. reflexivity.
    + intros Hnd Hne Hin. apply Hne. apply dict_get_In; assumption.
  - exists (sample_env sample_midnight (fun _ => 1%nat) nothing_denied
              (identity_grants "tok")
              (download_answers (GetResponse 200 "OK" false CLAbsent [] StreamDone))
              (zip_always ZipSound)),
           sample_conf, "logins", [("alice", "pw-alice"); ("bob", "pw-bob")],
           empty_world, (Payload "cdse-public" "bob" "pw-alice" "password").
    split; [reflexivity|]. split; [simpl; lia|].
    split; [apply (bool_decide_unpack _); vm_compute; exact I|].
    split; [apply (bool_decide_unpack _); vm_compute; exact I|].
    split; [vm_compute; reflexivity|].
    simpl. intros [H|[H|[]]]; discriminate.
Qed.

(** The sample group, with the draw that selects bob: bob's login is posted
    with alice's password. *)
Lemma get_bearer_access_token_password_of_first_account_witness :
  let E := sample_env sample_midnight (fun _ => 1%nat) nothing_denied
             (identity_grants "tok")
             (download_answers (GetResponse 200 "OK" false CLAbsent [] StreamDone))
             (zip_always ZipSound) in
  exists login,
    nth_error ["alice"; "bob"] (e_random E 0 mod 2)%nat = Some login /\
    w_posted (snd (get_bearer_access_token E sample_conf None None "logins"
                     empty_world))
    = [Payload "cdse-public" login "pw-alice" "password"].
Proof.
  intros E.
  destruct (get_bearer_access_token_password_of_first_account E sample_conf
              "logins" "alice" "pw-alice" [("bob", "pw-bob")] empty_world
              eq_refl) as [(login & Hlogin & Hposted & _) _].
  exists login. split; [exact Hlogin|exact Hposted].
Defined.

(** ** Token acquisition against an endpoint that rejects *)

Lemma is_error_status_iff code :
  is_error_status code = true <-> 400 <= code < 600.
Proof. unfold is_error_status. rewrite andb_true_iff. lia. Qed.

Lemma fetch_token_data_rejected E pl w :
  endpoint_rejects (e_identity E (w_posted w ++ [pl])%list) ->
  fetch_token_data E pl w
  = (Ok None, mkWorld (w_fs w) (w_clock w) (w_rand w) (w_race w)
                      (w_posted w ++ [pl])%list (w_gets w)).
Proof.
  intros Hrej. unfold fetch_token_data, try_except, bind, requests_post.
  unfold endpoint_rejects in Hrej.
  destruct (e_identity E _) as [msg|r]; [reflexivity|].
  destruct (is_error_status (post_status_code r)) eqn:Hs; [reflexivity|].
  destruct Hrej as [Hcode|Hjson].
  - apply is_error_status_iff in Hcode. congruence.
  - cbn. rewrite Hjson. reflexivity.
Qed.

Lemma choose_credentials_outcome E conf account_group specific_account passwd w :
  let out := choose_credentials E conf account_group specific_account passwd w in
  w_fs (snd out) = w_fs w /\ w_posted (snd out) = w_posted w /\
  ((exists creds, fst out = Ok creds) \/
   fst out = Raise (Exn KeyError account_group)).
Proof.
  unfold choose_credentials, bind, dict_getitem.
  destruct specific_account as [login|].
  - destruct passwd as [p|]; [cbn; eauto|].
    destruct (dict_get account_group (groups conf)) as [group|]; [|cbn; eauto].
    cbn. destruct (dict_get login group); cbn; eauto.
  - destruct (dict_get account_group (groups conf)) as [group|]; [|cbn; eauto].
    cbn [ret]. destruct group as [|[first pw] others]; [cbn; eauto|].
    cbn [map fst].
    destruct (nth_error_mod_Some (first :: map fst others) (e_random E (w_rand w)))
      as [login Hlogin]; [discriminate|].
    unfold random_choice. rewrite Hlogin.
    destruct passwd as [p|]; [cbn; eauto|].
    cbn [dict_get]. rewrite String.eqb_refl. cbn. eauto.
Qed.

(** C6 (amended). When the identity endpoint does not answer, answers with
    an error status (400 to 599) or answers with a body that is not JSON,
    [get_bearer_access_token] returns four [None] (or raises [KeyError]
    for an account group that the configuration does not have, before any
    request), and the file system is left as it was: no token lease is
    written. *)
Theorem get_bearer_access_token_rejected
    (E : Env) (conf : Conf) (specific_account passwd : option string)
    (account_group : string) (w : World) :
  (forall sent, endpoint_rejects (e_identity E sent)) ->
  let out := get_bearer_access_token E conf specific_account passwd
               account_group w in
  (fst out = Ok no_token \/
   (fst out = Raise (Exn KeyError account_group) /\
    w_posted (snd out) = w_posted w)) /\
  w_fs (snd out) = w_fs w.
Proof.
  intros Hrej out. subst out. unfold get_bearer_access_token, bind.
  pose proof (choose_credentials_outcome E conf account_group specific_account
                passwd w) as (Hfs & Hposted & Hres).
  destruct (choose_credentials E conf account_group specific_account passwd w)
    as [r w1]. simpl in Hfs, Hposted, Hres.
  destruct Hres as [[creds ->]| ->].
  - destruct creds as [[login p]|]; [|cbn; auto].
    unfold datetime_today.
    rewrite fetch_token_data_rejected by apply Hrej.
    cbn. auto.
  - cbn. auto.
Qed.

(** Alice's token is asked from an endpoint that answers with a page that is
    not JSON: nothing is returned and nothing is written. *)
Lemma get_bearer_access_token_rejected_witness :
  let E := sample_env sample_midnight (fun _ => 0%nat) nothing_denied
             identity_malformed sample_download_ok (zip_always ZipSound) in
  let out := get_bearer_access_token E sample_conf (Some "alice") None "logins"
               empty_world in
  fst out = Ok no_token /\ w_fs (snd out) = w_fs empty_world.
Proof.
  intros E out.
  destruct (get_bearer_access_token_rejected E sample_conf (Some "alice") None
              "logins" empty_world) as [H Hfs].
  - intros sent. right. reflexivity.
  - split; [|exact Hfs].
    destruct H as [H|[H _]]; [exact H|].
    vm_compute in H. discriminate H.
Defined.

(** C6 as stated fails for a status that is not 2xx and not an error of
    [raise_for_status]: on a 302 answer that carries a token in a JSON
    body, the token is returned and its lease file is written. *)
Lemma get_bearer_access_token_not_2xx_writes_lease :
  let E := sample_env sample_midnight (fun _ => 0%nat) nothing_denied
             (identity_redirects "tok") sample_download_ok
             (zip_always ZipSound) in
  let out := get_bearer_access_token E sample_conf (Some "alice") None "logins"
               empty_world in
  (forall sent, malformed_or_not_2xx (e_identity E sent)) /\
  fst out = Ok (JStr "tok", Some sample_midnight, Some "alice", Some alice_lease) /\
  w_fs (snd out) !! alice_lease = Some (File "tok" 420) /\
  w_fs empty_world !! alice_lease = None.
Proof.
  intros E out. split.
  - intros sent. right. simpl. lia.
  - vm_compute. auto.
Qed.

(** ** The presence check of the output directory *)

Lemma first_existing_find candidates w :
  first_existing candidates w
  = (Ok (find (fun p => bool_decide (is_Some (w_fs w !! p))) candidates), w).
Proof.
  induction candidates as [|f rest IH]; [reflexivity|].
  simpl. unfold bind, os_path_exists.
  destruct (bool_decide (is_Some (w_fs w !! f))); [reflexivity|exact IH].
Qed.

Lemma endswith_zip_not_empty f : endswith ".zip" f = true -> String.eqb f "" = false.
Proof. destruct f; [discriminate|reflexivity]. Qed.




(** ** The download executor: request and streaming *)

Lemma string_app_nil_r (s : string) : s +:+ "" = s.
Proof.
  induction s as [|c s IH]; [reflexivity|].
  change (String c s +:+ "") with (String c (s +:+ "")). f_equal. exact IH.
Qed.

Lemma string_app_assoc (a b c : string) : (a +:+ b) +:+ c = a +:+ (b +:+ c).
Proof.
  induction a as [|x a IH]; [reflexivity|].
  change (String x ((a +:+ b) +:+ c) = String x (a +:+ (b +:+ c))).
  f_equal. exact IH.
Qed.

Lemma with_fs_same w : with_fs w (w_fs w) = w.
Proof. destruct w; reflexivity. Qed.

Lemma open_for_writing_cases E p w :
  ((e_denied E p = true \/ w_fs w !! p = Some Dir) /\
   exists e, open_for_writing E p w = (Raise e, w)) \/
  (e_denied E p = false /\ w_fs w !! p <> Some Dir /\
   exists mode,
     open_for_writing E p w = (Ok tt, with_fs w (<[p := File "" mode]> (w_fs w)))).
Proof.
  unfold open_for_writing. destruct (e_denied E p) eqn:Hd.
  - left. eauto.
  - destruct (w_fs w !! p) as [[d m|]|] eqn:Hp.
    + right. split; [reflexivity|]. split; [discriminate|]. eauto.
    + left. eauto.
    + right. split; [reflexivity|]. split; [discriminate|]. eauto.
Qed.

(** Writing the chunks of a body appends its bytes to the open file. *)
Lemma write_chunks_effect tmp chunks :
  forall w d m,
    w_fs w !! tmp = Some (File d m) ->
    for_each chunks
      (fun chunk _ => if String.eqb chunk "" then ret tt else file_write tmp chunk)
      tt w
    = (Ok tt, with_fs w (<[tmp := File (d +:+ body_bytes chunks) m]> (w_fs w))).
Proof.
  induction chunks as [|c chunks IH]; intros w d m Hf; simpl.
  - rewrite string_app_nil_r, insert_id by exact Hf.
    rewrite with_fs_same. reflexivity.
  - unfold bind. destruct (String.eqb c "") eqn:Hc.
    + apply String.eqb_eq in Hc. subst c. simpl. apply IH. exact Hf.
    + unfold file_write at 1. rewrite Hf.
      rewrite (IH _ (d +:+ c) m) by (simpl; apply lookup_insert_eq).
      unfold with_fs. simpl. rewrite insert_insert_eq, string_app_assoc.
      reflexivity.
Qed.

Lemma stream_body_effect tmp chunks last_event w d m :
  w_fs w !! tmp = Some (File d m) ->
  stream_body tmp chunks last_event w
  = (match last_event with
     | StreamDone => Ok tt
     | StreamChunkedEncodingError =>
         Raise (Exn ChunkedEncodingError "Connection broken")
     | StreamException msg => Raise (Exn OtherException msg)
     end,
     with_fs w (<[tmp := File (d +:+ body_bytes chunks) m]> (w_fs w))).
Proof.
  intros Hf. unfold stream_body, bind.
  rewrite (write_chunks_effect tmp chunks w d m Hf).
  destruct last_event; reflexivity.
Qed.

(** Lines 80-117, case by case. *)
Lemma request_and_stream_cases E url headers tmp w0 :
  ((e_denied E tmp = true \/ w_fs w0 !! tmp = Some Dir) /\
   exists msg, request_and_stream E url headers tmp w0
               = (Ok (-1, "RequestError: " +:+ msg, None), w0)) \/
  (e_denied E tmp = false /\ w_fs w0 !! tmp <> Some Dir /\
   exists mode,
     match e_download E (w_gets w0 ++ [GetRequest url headers])%list with
     | GetRaises msg =>
         request_and_stream E url headers tmp w0
         = (Ok (-1, "RequestError: " +:+ msg, None),
            after_request w0 url headers tmp "" mode)
     | GetReturns r =>
         if is_error_status (status_code r) then
           request_and_stream E url headers tmp w0
           = (Ok (status_code r, reason r, None),
              after_request w0 url headers tmp "" mode)
         else
           match read_megabytes (header_content_length r) with
           | None =>
               exists msg, request_and_stream E url headers tmp w0
               = (Ok (-1, "RequestError: " +:+ msg, None),
                  after_request w0 url headers tmp "" mode)
           | Some total_length =>
               request_and_stream E url headers tmp w0
               = (Ok (match body_end r with
                      | StreamDone => (status_code r, reason r)
                      | StreamChunkedEncodingError => (-1, "ChunkedEncodingError")
                      | StreamException msg => (-1, "StreamError: " +:+ msg)
                      end, Some total_length),
                  after_request w0 url headers tmp (body_bytes (body_chunks r))
                    mode)
           end
     end).
Proof.
  destruct (open_for_writing_cases E tmp w0)
    as [(Hwhy & e & Hopen)|(Hd & Hnd & mode & Hopen)].
  - left. split; [exact Hwhy|]. exists (exn_msg e).
    unfold request_and_stream, try_except_Exception, bind. rewrite Hopen.
    reflexivity.
  - right. split; [exact Hd|]. split; [exact Hnd|]. exists mode.
    unfold request_and_stream, try_except_Exception, bind. rewrite Hopen.
    unfold session_get. cbn [w_gets w_fs w_clock w_rand w_race w_posted with_fs].
    destruct (e_download E _) as [msg|r]; [reflexivity|].
    destruct (is_error_status (status_code r)); cbn [negb]; [reflexivity|].
    unfold megabytes_of.
    destruct (read_megabytes (header_content_length r)) as [total_length|].
    + cbn [ret]. erewrite stream_body_effect by (cbn; apply lookup_insert_eq).
      cbn. rewrite insert_insert_eq.
      destruct (body_end r); reflexivity.
    + destruct (header_content_length r); eexists; reflexivity.
Qed.

(** ** The download executor: after the request *)

Lemma remove_quietly_run E p w :
  try_except (os_remove E p) [OSError] (fun _ => ret tt) w = (Ok tt, without E p w).
Proof.
  unfold try_except, os_remove, without, removable.
  destruct (w_fs w !! p) as [[d m|]|]; try reflexivity.
  destruct (e_denied E p); reflexivity.
Qed.

Lemma remove_failed_tmp_run E status tmp w :
  status <> 200 ->
  remove_failed_tmp E status tmp w = (Ok tt, without E tmp w).
Proof.
  intros Hs. unfold remove_failed_tmp, bind, os_path_exists.
  assert ((status =? 200) = false) as -> by lia. cbn [negb orb andb].
  destruct (bool_decide (is_Some (w_fs w !! tmp))) eqn:Hp.
  - apply remove_quietly_run.
  - apply bool_decide_eq_false in Hp. unfold ret, without, removable.
    destruct (w_fs w !! tmp) as [n|]; [exfalso; apply Hp; eauto|reflexivity].
Qed.

Lemma remove_failed_tmp_200 E tmp w :
  remove_failed_tmp E 200 tmp w = (Ok tt, w).
Proof.
  unfold remove_failed_tmp, bind, os_path_exists. cbn.
  reflexivity.
Qed.

(** A transfer that does not end with status 200 returns its
    classification, no speed, and removes the temporary file. *)
Lemma executor_failed_run {T} E conf headers url out (sem : T) w t0 w0
    status meaning tl w1 :
  enter_try E conf w = (Ok t0, w0) ->
  request_and_stream E url headers (tmp_path conf out) w0
  = (Ok (status, meaning, tl), w1) ->
  status <> 200 ->
  CDS_Odata_download_one_product_v2 E conf headers url out sem w
  = (Ok (None, meaning, replace ".zip" "" (basename out), sem),
     tick (without E (tmp_path conf out) w1)).
Proof.
  intros Henter Hrs Hs.
  unfold CDS_Odata_download_one_product_v2. unfold bind at 1. rewrite Henter.
  unfold bind at 1. rewrite Hrs. cbv beta iota.
  unfold bind at 1. rewrite (remove_failed_tmp_run E status _ w1 Hs).
  unfold bind at 1. unfold time_time at 1. cbv beta iota.
  assert ((status =? 200) = false) as -> by lia.
  reflexivity.
Qed.

(** A transfer that ends with status 200 keeps the temporary file, computes
    the speed from the content length and the two clock readings, and moves
    the file to its place. *)
Lemma executor_200_run {T} E conf headers url out (sem : T) w t0 w0
    meaning total w1 :
  enter_try E conf w = (Ok t0, w0) ->
  request_and_stream E url headers (tmp_path conf out) w0
  = (Ok (200, meaning, Some total), w1) ->
  CDS_Odata_download_one_product_v2 E conf headers url out sem w
  = (let elapsed_time := Qminus (e_time E (w_clock w1)) t0 in
     let speed := if Qpositive elapsed_time
                  then Qdiv (inject_Z total) elapsed_time else 0%Q in
     let published := publish E meaning (tmp_path conf out) out (tick w1) in
     (match fst published with
      | Ok meaning' => Ok (Some speed, meaning', replace ".zip" "" (basename out), sem)
      | Raise e => Raise e
      end, snd published)).
Proof.
  intros Henter Hrs.
  unfold CDS_Odata_download_one_product_v2. unfold bind at 1. rewrite Henter.
  unfold bind at 1. rewrite Hrs. cbv beta iota.
  unfold bind at 1. rewrite remove_failed_tmp_200.
  unfold bind at 1. unfold time_time at 1. cbv beta iota.
  change (200 =? 200) with true. cbv iota.
  unfold bind at 1. cbn [ret]. unfold bind. fold (tick w1).
  destruct (publish E meaning (tmp_path conf out) out (tick w1)) as [[m'|e] w3];
    reflexivity.
Qed.

Lemma enter_try_run E conf w :
  (exists e, fst (enter_try E conf w) = Raise e) \/
  (enter_try E conf w = (Ok (e_time E (w_clock w)), world_at_try E conf w) /\
   w_gets (world_at_try E conf w) = w_gets w /\
   w_clock (world_at_try E conf w) = S (w_clock w) /\
   (w_fs (world_at_try E conf w) = w_fs w \/
    (w_fs w !! pre_spool conf = None /\
     w_fs (world_at_try E conf w)
     = <[pre_spool conf := Dir]>
         (make_missing (ancestors (pre_spool conf)) (w_fs w))))).
Proof.
  unfold world_at_try, enter_try, bind, time_time, os_path_exists.
  cbn [w_fs w_clock].
  destruct (bool_decide (is_Some (w_fs w !! pre_spool conf))) eqn:Hp.
  - right. cbn. repeat split; auto.
  - apply bool_decide_eq_false in Hp.
    unfold os_makedirs_exist_ok. cbn [w_fs].
    destruct (w_fs w !! pre_spool conf) as [n|] eqn:Hn;
      [exfalso; apply Hp; eauto|].
    destruct (e_denied E (pre_spool conf)).
    + left. cbn. eauto.
    + right. cbn. repeat split; auto.
Qed.

Lemma without_other E tmp w p :
  p <> tmp -> w_fs (without E tmp w) !! p = w_fs w !! p.
Proof.
  intros Hp. unfold without. destruct (removable E tmp (w_fs w)); [|reflexivity].
  cbn. apply lookup_delete_ne. congruence.
Qed.

Lemma without_file E tmp w d m :
  w_fs w !! tmp = Some (File d m) -> e_denied E tmp = false ->
  w_fs (without E tmp w) !! tmp = None.
Proof.
  intros Hf Hd. unfold without, removable. rewrite Hf, Hd. cbn.
  apply lookup_delete_eq.
Qed.

Lemma after_request_other w0 url headers tmp data mode p :
  p <> tmp -> w_fs (after_request w0 url headers tmp data mode) !! p = w_fs w0 !! p.
Proof. intros Hp. cbn. apply lookup_insert_ne. congruence. Qed.

Lemma not_StreamError_ChunkedEncodingError : ~ is_StreamError "ChunkedEncodingError".
Proof. intros [msg H]. discriminate H. Qed.

(** C7 (amended). When the [try] block of the executor meets a status that
    is not 2xx or an exception before or during the streaming, the executor
    returns no speed and a classification that is a request error, the
    chunked-encoding error, a stream error or, for a status that is not
    2xx, the reason phrase that the server sent with it (not the status
    code); an exception of the iteration over the body gives the
    chunked-encoding classification or, for any other exception, the
    stream-error classification, and the two differ; the temporary file is
    removed (it is gone afterwards unless the operating system refuses to
    touch it) and no other path is changed. *)
Theorem executor_failure_is_classified {T : Type}
    (E : Env) (conf : Conf) (headers url output_filepath : string)
    (semaphore_token_file : T) (w : World) (t0 : Q) (w0 : World) :
  let tmp := tmp_path conf output_filepath in
  let request := GetRequest url headers in
  enter_try E conf w = (Ok t0, w0) ->
  transfer_fails E url headers tmp w0 ->
  exists status_meaning w',
    CDS_Odata_download_one_product_v2 E conf headers url output_filepath
      semaphore_token_file w
    = (Ok (None, status_meaning, replace ".zip" "" (basename output_filepath),
           semaphore_token_file), w') /\
    (is_RequestError status_meaning \/
     status_meaning = "ChunkedEncodingError" \/
     is_StreamError status_meaning \/
     exists r, e_download E (w_gets w0 ++ [request])%list = GetReturns r /\
               ~ (200 <= status_code r < 300) /\
               status_meaning = reason r) /\
    (forall r, streams E url headers tmp w0 r ->
       (body_end r = StreamChunkedEncodingError ->
        status_meaning = "ChunkedEncodingError") /\
       (forall msg, body_end r = StreamException msg ->
                    status_meaning = "StreamError: " +:+ msg)) /\
    ~ is_StreamError "ChunkedEncodingError" /\
    (e_denied E tmp = false -> w_fs w0 !! tmp <> Some Dir ->
     w_fs w' !! tmp = None) /\
    (forall p, p <> tmp -> w_fs w' !! p = w_fs w0 !! p).
Proof.
  intros tmp request Henter Hfails. subst request.
  (* what lines 80-117 produce, with the facts each case needs *)
  assert (Hrs : exists status meaning tl w1,
    request_and_stream E url headers tmp w0 = (Ok (status, meaning, tl), w1) /\
    status <> 200 /\
    (is_RequestError meaning \/ meaning = "ChunkedEncodingError" \/
     is_StreamError meaning \/
     exists r, e_download E (w_gets w0 ++ [GetRequest url headers])%list
               = GetReturns r /\
               ~ (200 <= status_code r < 300) /\ meaning = reason r) /\
    (forall r, streams E url headers tmp w0 r ->
       (body_end r = StreamChunkedEncodingError ->
        meaning = "ChunkedEncodingError") /\
       (forall msg, body_end r = StreamException msg ->
                    meaning = "StreamError: " +:+ msg)) /\
    ((w1 = w0 /\ (e_denied E tmp = true \/ w_fs w0 !! tmp = Some Dir)) \/
     (e_denied E tmp = false /\
      exists data mode, w1 = after_request w0 url headers tmp data mode))).
  { destruct (request_and_stream_cases E url headers tmp w0)
      as [(Hwhy & msg & Hrun)|(Hd & Hnd & mode & Hrun)].
    - exists (-1), ("RequestError: " +:+ msg), None, w0.
      split; [exact Hrun|]. split; [lia|].
      split; [left; exists msg; reflexivity|]. split.
      + intros r (Hd & Hnd & _). destruct Hwhy; congruence.
      + left. auto.
    - unfold transfer_fails in Hfails.
      destruct Hfails as [Hfd|[Hfdir|Hfails]]; [congruence|congruence|].
      destruct (e_download E (w_gets w0 ++ [GetRequest url headers])%list)
        as [msg|r] eqn:Hget.
      + exists (-1), ("RequestError: " +:+ msg), None,
               (after_request w0 url headers tmp "" mode).
        split; [exact Hrun|]. split; [lia|].
        split; [left; exists msg; reflexivity|]. split.
        * intros r (_ & _ & Hr & _). congruence.
        * right. eauto.
      + destruct (is_error_status (status_code r)) eqn:Herr.
        * apply is_error_status_iff in Herr.
          exists (status_code r), (reason r), None,
                 (after_request w0 url headers tmp "" mode).
          split; [exact Hrun|]. split; [lia|].
          split; [right; right; right; exists r; repeat split; auto; lia|].
          split.
          -- intros r' (_ & _ & Hr & Hok & _). assert (r' = r) by congruence; subst r'.
             apply is_error_status_iff in Herr. congruence.
          -- right. eauto.
        * destruct (read_megabytes (header_content_length r)) as [total_length|]
            eqn:Hcl.
          -- (* a content length that reads, or none *)
             destruct (body_end r) eqn:Hend; eexists _, _, _, _;
               (split; [exact Hrun|]).
             ++ split; [destruct Hfails as [H|[H|H]]; [lia|discriminate|congruence]|].
                split; [right; right; right; exists r; repeat split; auto;
                        destruct Hfails as [H|[H|H]]; [exact H|discriminate|congruence]|].
                split; [|right; eauto].
                intros r' (_ & _ & Hr & _). assert (r' = r) by congruence; subst r'.
                split; [congruence|intros msg Hm; congruence].
             ++ split; [lia|]. split; [right; left; reflexivity|].
                split; [|right; eauto].
                intros r' (_ & _ & Hr & _). assert (r' = r) by congruence; subst r'.
                split; [reflexivity|intros m Hm; congruence].
             ++ split; [lia|]. split; [right; right; left; exists msg; reflexivity|].
                split; [|right; eauto].
                intros r' (_ & _ & Hr & _). assert (r' = r) by congruence; subst r'.
                split; [congruence|intros m Hm; congruence].
          -- (* a content length that is not a number or is too large *)
             destruct Hrun as [msg Hrun].
             exists (-1), ("RequestError: " +:+ msg), None,
                    (after_request w0 url headers tmp "" mode).
             split; [exact Hrun|]. split; [lia|].
             split; [left; exists msg; reflexivity|]. split.
             ++ intros r' (_ & _ & Hr & _ & Hclok). assert (r' = r) by congruence; subst r'.
                congruence.
             ++ right. eauto. }
  destruct Hrs as (status & meaning & tl & w1 & Hrun & Hstatus & Hclass & Hstream & Hw1).
  exists meaning, (tick (without E tmp w1)).
  split; [exact (executor_failed_run E conf headers url output_filepath
                   semaphore_token_file w t0 w0 status meaning tl w1 Henter Hrun
                   Hstatus)|].
  split; [exact Hclass|]. split; [exact Hstream|].
  split; [exact not_StreamError_ChunkedEncodingError|].
  cbn [tick w_fs]. split.
  - intros Hd Hnd. destruct Hw1 as [(-> & [H|H])|(_ & data & mode & ->)];
      [congruence|congruence|].
    apply (without_file E tmp _ data mode); [cbn; apply lookup_insert_eq|exact Hd].
  - intros p Hp. rewrite without_other by exact Hp.
    destruct Hw1 as [(-> & _)|(_ & data & mode & ->)]; [reflexivity|].
    apply after_request_other. exact Hp.
Qed.

(** ** Paths: the temporary path differs from the output path *)

Lemma string_length_app (a b : string) :
  String.length (a +:+ b) = (String.length a + String.length b)%nat.
Proof.
  induction a as [|c a IH]; [reflexivity|].
  change (S (String.length (a +:+ b)) = S (String.length a + String.length b)).
  f_equal. exact IH.
Qed.

Lemma split_on_not_nil sep s : split_on sep s <> [].
Proof.
  destruct s as [|c s]; simpl; [discriminate|].
  destruct (Ascii.eqb c sep); [discriminate|].
  destruct (split_on sep s); discriminate.
Qed.

Lemma no_sep_app sep a b :
  no_sep sep (a +:+ b) = no_sep sep a && no_sep sep b.
Proof.
  induction a as [|c a IH]; [reflexivity|].
  change (negb (Ascii.eqb c sep) && no_sep sep (a +:+ b)
          = negb (Ascii.eqb c sep) && no_sep sep a && no_sep sep b).
  rewrite IH. apply andb_assoc.
Qed.

Lemma split_on_no_sep sep c : no_sep sep c = true -> split_on sep c = [c].
Proof.
  induction c as [|ch c IH]; simpl; [reflexivity|].
  intros H. apply andb_true_iff in H as [Hch Hc].
  apply negb_true_iff in Hch. rewrite Hch, (IH Hc). reflexivity.
Qed.

Lemma split_on_all_no_sep sep s :
  Forall (fun p => no_sep sep p = true) (split_on sep s).
Proof.
  induction s as [|ch s IH]; simpl.
  - constructor; [reflexivity|constructor].
  - destruct (Ascii.eqb ch sep) eqn:Hch.
    + constructor; [reflexivity|exact IH].
    + destruct (split_on sep s) as [|p ps].
      * constructor; [simpl; rewrite Hch; reflexivity|constructor].
      * inversion IH as [|? ? Hp Hps]; subst.
        constructor; [simpl; rewrite Hch, Hp; reflexivity|exact Hps].
Qed.

Lemma last_no_sep sep l :
  Forall (fun p => no_sep sep p = true) l -> no_sep sep (List.last l "") = true.
Proof.
  induction 1 as [|p l Hp Hl IH]; [reflexivity|].
  destruct l; [exact Hp|exact IH].
Qed.

Lemma basename_no_slash p : no_sep "/" (basename p) = true.
Proof. apply last_no_sep, split_on_all_no_sep. Qed.

(** Appending a string without separator extends the last segment. *)
Lemma split_on_app_no_sep sep x c :
  no_sep sep c = true ->
  split_on sep (x +:+ c)
  = (removelast (split_on sep x) ++ [List.last (split_on sep x) "" +:+ c])%list.
Proof.
  intros Hc. induction x as [|ch x IH].
  - change ("" +:+ c) with c. rewrite (split_on_no_sep sep c Hc). reflexivity.
  - change (String ch x +:+ c) with (String ch (x +:+ c)).
    cbn [split_on]. rewrite IH.
    pose proof (split_on_not_nil sep x) as Hne.
    destruct (Ascii.eqb ch sep).
    + destruct (split_on sep x) as [|q qs]; [congruence|]. reflexivity.
    + destruct (split_on sep x) as [|q [|q2 qs]]; [congruence| |]; reflexivity.
Qed.

Lemma basename_app_no_slash x c :
  no_sep "/" c = true -> basename (x +:+ c) = basename x +:+ c.
Proof.
  intros Hc. unfold basename. rewrite (split_on_app_no_sep "/" x c Hc).
  apply last_last.
Qed.

Lemma startswith_slash_no_sep c : no_sep "/" c = true -> startswith "/" c = false.
Proof.
  destruct c as [|ch c]; [reflexivity|].
  intros H. cbn [no_sep] in H. apply andb_true_iff in H as [Hch _].
  apply negb_true_iff in Hch. unfold startswith. cbn [String.prefix].
  destruct (ascii_dec "/" ch) as [<-|Hne]; [|reflexivity].
  rewrite Ascii.eqb_refl in Hch. discriminate.
Qed.

Lemma path_join_relative a c :
  startswith "/" c = false -> exists x, path_join a c = x +:+ c.
Proof.
  intros Hc. unfold path_join. rewrite Hc.
  destruct (String.eqb a "" || endswith "/" a).
  - exists a. reflexivity.
  - exists (a +:+ "/"). rewrite string_app_assoc. reflexivity.
Qed.

Lemma tmp_path_differs conf output_filepath :
  tmp_path conf output_filepath <> output_filepath.
Proof.
  intros Heq.
  assert (Hc : no_sep "/" (basename output_filepath +:+ ".tmp") = true).
  { rewrite no_sep_app, basename_no_slash. reflexivity. }
  destruct (path_join_relative (pre_spool conf)
              (basename output_filepath +:+ ".tmp")
              (startswith_slash_no_sep _ Hc)) as [x Hx].
  unfold tmp_path in Heq. rewrite Hx in Heq.
  apply (f_equal basename) in Heq.
  rewrite (basename_app_no_slash x _ Hc) in Heq.
  apply (f_equal String.length) in Heq.
  rewrite !string_length_app in Heq. simpl in Heq. lia.
Qed.

(** ** The download executor: status 200 *)

Lemma Qpositive_iff q : Qpositive q = true <-> (0 < q)%Q.
Proof.
  unfold Qpositive. rewrite negb_true_iff. split.
  - intros H. apply Qnot_le_lt. intros Hle. apply Qle_bool_iff in Hle. congruence.
  - intros H. destruct (Qle_bool q 0) eqn:Hb; [|reflexivity].
    apply Qle_bool_iff in Hb. exfalso. eapply Qlt_not_le; eauto.
Qed.

(** A response that is streamed to its end: lines 80-117. *)
Lemma request_streamed E url headers tmp w0 r :
  streams E url headers tmp w0 r ->
  body_end r = StreamDone ->
  exists mode,
    request_and_stream E url headers tmp w0
    = (Ok (status_code r, reason r, Some (megabytes (header_content_length r))),
       after_request w0 url headers tmp (body_bytes (body_chunks r)) mode).
Proof.
  intros (Hd & Hnd & Hget & Herr & Hcl) Hend.
  destruct (request_and_stream_cases E url headers tmp w0)
    as [([H|H] & _)|(_ & _ & mode & Hrs)]; [congruence|congruence|].
  rewrite Hget, Herr in Hrs. exists mode. unfold megabytes.
  destruct (read_megabytes (header_content_length r)); [|congruence].
  rewrite Hend in Hrs. exact Hrs.
Qed.

(** A response with status 200 that is streamed to its end: the run of the
    executor, up to the move. *)
Lemma executor_200_streamed {T} E conf headers url out (sem : T) w t0 w0 r :
  enter_try E conf w = (Ok t0, w0) ->
  streams E url headers (tmp_path conf out) w0 r ->
  status_code r = 200 -> body_end r = StreamDone ->
  exists mode,
    let w2 := tick (after_request w0 url headers (tmp_path conf out)
                      (body_bytes (body_chunks r)) mode) in
    let speed :=
      reported_speed (megabytes (header_content_length r))
        (Qminus (e_time E (S (w_clock w))) (e_time E (w_clock w))) in
    let published := publish E (reason r) (tmp_path conf out) out w2 in
    CDS_Odata_download_one_product_v2 E conf headers url out sem w
    = (match fst published with
       | Ok meaning' =>
           Ok (Some speed, meaning', replace ".zip" "" (basename out), sem)
       | Raise e => Raise e
       end, snd published).
Proof.
  intros Henter Hstreams H200 Hend.
  destruct (enter_try_run E conf w) as [[e He]|(Hrun & _ & Hclock & _)];
    [rewrite Henter in He; discriminate|].
  rewrite Hrun in Henter. inversion Henter; subst t0 w0. clear Henter.
  destruct (request_streamed E url headers (tmp_path conf out)
              (world_at_try E conf w) r Hstreams Hend) as [mode Hrs].
  rewrite H200 in Hrs. exists mode.
  rewrite (executor_200_run E conf headers url out sem w _ _ _ _ _ Hrun Hrs).
  cbn [after_request w_clock]. rewrite Hclock. reflexivity.
Qed.

Lemma publish_never_raises E meaning tmp out w :
  exists m, fst (publish E meaning tmp out w) = Ok m /\
            (m = meaning \/ m = "MoveFileError").
Proof.
  unfold publish, try_except_Exception, bind.
  destruct (shutil_move E tmp out w) as [[[]|e] w1]; [|cbn; eauto].
  destruct (os_chmod E out 509 w1) as [[[]|e] w2]; cbn; eauto.
Qed.









(** The divisions of line 99 are divisions of floats: a content length of
    99 999 999 999 999 999 bytes is read as 100 000 000 000 megabytes, and
    one of 10^400 bytes raises [OverflowError]. *)
Example read_megabytes_of_large_lengths :
  read_megabytes (CLInt 99999999999999999) = Some 100000000000 /\
  read_megabytes (CLInt 3500000) = Some 3 /\
  read_megabytes (CLInt (10 ^ 400)) = None.
Proof. repeat split; vm_compute; reflexivity. Qed.

(** C3 (amended). When the GET request returns status 200 and the body is
    streamed to its end, the speed reported is the number of whole megabytes
    of the content-length header, as [int(int(...) / 1000 / 1000)] gives it
    in the floats of Python (0 without the header), divided by the time
    elapsed between the two clock readings of the executor, and 0 when this
    time is not positive; the bytes of the body do not enter it. *)
Theorem executor_speed_from_content_length {T : Type}
    (E : Env) (conf : Conf) (headers url output_filepath : string)
    (semaphore_token_file : T) (w : World) (t0 : Q) (w0 : World)
    (r : get_response) :
  let tmp := tmp_path conf output_filepath in
  let elapsed_time := Qminus (e_time E (S (w_clock w))) (e_time E (w_clock w)) in
  let total_length := megabytes (header_content_length r) in
  enter_try E conf w = (Ok t0, w0) ->
  streams E url headers tmp w0 r ->
  status_code r = 200 ->
  body_end r = StreamDone ->
  exists speed status_meaning w',
    CDS_Odata_download_one_product_v2 E conf headers url output_filepath
      semaphore_token_file w
    = (Ok (Some speed, status_meaning,
           replace ".zip" "" (basename output_filepath), semaphore_token_file),
       w') /\
    speed = reported_speed total_length elapsed_time /\
    ((0 < elapsed_time)%Q -> speed = Qdiv (inject_Z total_length) elapsed_time) /\
    ((elapsed_time <= 0)%Q -> speed = 0%Q).
Proof.
  intros tmp elapsed_time total_length Henter Hstreams H200 Hend.
  destruct (executor_200_streamed E conf headers url output_filepath
              semaphore_token_file w t0 w0 r Henter Hstreams H200 Hend)
    as [mode Hrun].
  cbv zeta in Hrun. fold tmp elapsed_time total_length in Hrun.
  match type of Hrun with
  | context [publish E ?m ?t ?o ?w2] =>
      destruct (publish_never_raises E m t o w2) as (m' & Hm & _);
      rewrite Hm in Hrun
  end.
  eexists _, m', _. split; [exact Hrun|].
  split; [reflexivity|]. unfold reported_speed. split.
  - intros Hpos. apply Qpositive_iff in Hpos. rewrite Hpos. reflexivity.
  - intros Hle. destruct (Qpositive elapsed_time) eqn:Hp; [|reflexivity].
    apply Qpositive_iff in Hp. exfalso. eapply Qlt_not_le; eauto.
Qed.

(** A body announced with 3 500 000 bytes and received in one second is
    reported at 3 Mo/s. *)
Lemma executor_speed_from_content_length_witness :
  let E := sample_env sample_midnight (fun _ => 0%nat) nothing_denied
             (identity_grants "tok")
             (download_answers
                (GetResponse 200 "OK" false (CLInt 3500000) ["PK"; "34"]
                   StreamDone))
             (zip_always ZipSound) in
  exists status_meaning w',
    CDS_Odata_download_one_product_v2 E sample_conf "Bearer tok" sample_url
      sample_output alice_lease staged_world
    = (Ok (Some (Qdiv (inject_Z 3) (Qminus (inject_Z 1) (inject_Z 0))),
           status_meaning, "S1A_IW_GRDH", alice_lease), w').
Proof.
  intros E.
  destruct (executor_speed_from_content_length E sample_conf "Bearer tok"
              sample_url sample_output alice_lease staged_world 0%Q
              (tick staged_world)
              (GetResponse 200 "OK" false (CLInt 3500000) ["PK"; "34"]
                 StreamDone))
    as (speed & m & w' & Hrun & _ & Hpos & _).
  - reflexivity.
  - repeat split; vm_compute; first [reflexivity|discriminate].
  - reflexivity.
  - reflexivity.
  - rewrite Hpos in Hrun by reflexivity. exists m, w'. exact Hrun.
Defined.

(** C3 as stated fails: five bytes downloaded in one second are reported at
    speed 0, which is not the number of bytes divided by the time. *)
Lemma executor_speed_is_not_bytes_per_second :
  let r := GetResponse 200 "OK" false (CLInt 5) ["hello"] StreamDone in
  let E := sample_env sample_midnight (fun _ => 0%nat) nothing_denied
             (identity_grants "tok") (download_answers r)
             (zip_always ZipSound) in
  let out := CDS_Odata_download_one_product_v2 E sample_conf "Bearer tok"
               sample_url sample_output alice_lease staged_world in
  let elapsed_time := Qminus (e_time E 1) (e_time E 0) in
  let bytes_downloaded := Z.of_nat (String.length (body_bytes (body_chunks r))) in
  w_fs (snd out) !! sample_output = Some (File "hello" 509) /\
  bytes_downloaded = 5 /\
  (0 < elapsed_time)%Q /\
  fst out = Ok (Some 0%Q, "OK", "S1A_IW_GRDH", alice_lease) /\
  ~ (0 == Qdiv (inject_Z bytes_downloaded) elapsed_time)%Q.
Proof.
  intros r E out elapsed_time bytes_downloaded.
  split; [vm_compute; reflexivity|]. split; [reflexivity|].
  split; [reflexivity|].
  split; [vm_compute; reflexivity|]. vm_compute. discriminate.
Qed.

(** A body that breaks after two chunks is classified as the
    chunked-encoding error, and the temporary file is removed. *)
Lemma executor_failure_is_classified_witness :
  let r := GetResponse 200 "OK" true CLAbsent ["PK"; "34"]
             StreamChunkedEncodingError in
  let E := sample_env sample_midnight (fun _ => 0%nat) nothing_denied
             (identity_grants "tok") (download_answers r)
             (zip_always ZipSound) in
  exists w',
    CDS_Odata_download_one_product_v2 E sample_conf "Bearer tok" sample_url
      sample_output alice_lease staged_world
    = (Ok (None, "ChunkedEncodingError", "S1A_IW_GRDH", alice_lease), w') /\
    w_fs w' !! sample_tmp = None.
Proof.
  intros r E.
  destruct (executor_failure_is_classified E sample_conf "Bearer tok"
              sample_url sample_output alice_lease staged_world 0%Q
              (tick staged_world))
    as (m & w' & Hrun & _ & Hstream & _ & Hgone & _).
  - reflexivity.
  - right. right. right. right. discriminate.
  - destruct (Hstream r) as [Hchunked _].
    + repeat split; vm_compute; first [reflexivity|discriminate].
    + rewrite (Hchunked eq_refl) in Hrun. exists w'.
      split; [exact Hrun|]. apply Hgone; [reflexivity|discriminate].
Defined.

(** C7 as stated fails: a status that is not 2xx is not classified as the
    HTTP status code but as the reason phrase that the server sent, which
    is free text.  An answer 500 with the reason phrase "OK" is returned
    with the classification of a successful download, and an answer 404
    with the reason phrase "ChunkedEncodingError" with the classification
    of a stream that broke; the status code is not returned. *)
Lemma executor_status_code_not_reported :
  let run r :=
    CDS_Odata_download_one_product_v2
      (sample_env sample_midnight (fun _ => 0%nat) nothing_denied
         (identity_grants "tok") (download_answers r) (zip_always ZipSound))
      sample_conf "Bearer tok" sample_url sample_output alice_lease
      staged_world in
  fst (run (GetResponse 500 "OK" false CLAbsent [] StreamDone))
  = Ok (None, "OK", "S1A_IW_GRDH", alice_lease) /\
  fst (run (GetResponse 404 "ChunkedEncodingError" false CLAbsent [] StreamDone))
  = Ok (None, "ChunkedEncodingError", "S1A_IW_GRDH", alice_lease) /\
  fst (run (GetResponse 200 "OK" true CLAbsent ["PK"; "34"]
              StreamChunkedEncodingError))
  = Ok (None, "ChunkedEncodingError", "S1A_IW_GRDH", alice_lease) /\
  ~ is_RequestError "OK" /\ ~ is_StreamError "OK" /\
  "OK" <> "ChunkedEncodingError" /\ "OK" <> "500".
Proof.
  intros run. repeat split; try (vm_compute; reflexivity); try discriminate;
    intros [msg H]; discriminate H.
Qed.

(** ** What a computation returns *)

Lemma returns_ret {A} (P : A -> Prop) (a : A) : P a -> returns P (ret a).
Proof. intros H w a' w' Heq. inversion Heq; subst. exact H. Qed.

Lemma returns_raise {A} (P : A -> Prop) c msg : returns P (raise c msg).
Proof. intros w a w' Heq. discriminate Heq. Qed.

Lemma returns_bind {A B} (P : B -> Prop) (m : M A) (k : A -> M B) :
  (forall a, returns P (k a)) -> returns P (bind m k).
Proof.
  intros Hk w b w' Heq. unfold bind in Heq.
  destruct (m w) as [[a|e] w1]; [|discriminate].
  exact (Hk a w1 b w' Heq).
Qed.

Lemma returns_bind_with {A B} (Q : A -> Prop) (P : B -> Prop) (m : M A)
    (k : A -> M B) :
  returns Q m -> (forall a, Q a -> returns P (k a)) -> returns P (bind m k).
Proof.
  intros Hm Hk w b w' Heq. unfold bind in Heq.
  destruct (m w) as [[a|e] w1] eqn:Hrun; [|discriminate].
  exact (Hk a (Hm w a w1 Hrun) w1 b w' Heq).
Qed.

Lemma returns_try_except_Exception {A} (P : A -> Prop) (m : M A) h :
  returns P m -> (forall e, returns P (h e)) ->
  returns P (try_except_Exception m h).
Proof.
  intros Hm Hh w a w' Heq. unfold try_except_Exception in Heq.
  destruct (m w) as [[a'|e] w1] eqn:Hrun.
  - inversion Heq; subst. exact (Hm w a w' Hrun).
  - exact (Hh e w1 a w' Heq).
Qed.

Lemma returns_for_each {A S} (I : S -> Prop) (l : list A) (body : A -> S -> M S) :
  (forall x s, I s -> returns I (body x s)) ->
  forall s, I s -> returns I (for_each l body s).
Proof.
  intros Hb. induction l as [|x l IH]; intros s Hs; simpl.
  - apply returns_ret. exact Hs.
  - apply (returns_bind_with I); [apply Hb; exact Hs|].
    intros s' Hs'. apply IH. exact Hs'.
Qed.

(** ** The harvest of a round *)

Lemma set_status_safe name v df :
  map df_safe (set_status name v df) = map df_safe df.
Proof.
  induction df as [|r df IH]; [reflexivity|].
  simpl. rewrite IH. destruct (String.eqb (df_safe r) name); reflexivity.
Qed.

Lemma set_status_known name v df :
  v = 1 \/ v = -1 ->
  Forall known_status df -> Forall known_status (set_status name v df).
Proof.
  intros Hv Hdf. induction Hdf as [|r df Hr Hdf IH]; [constructor|].
  simpl. constructor; [|exact IH].
  destruct (String.eqb (df_safe r) name); [|exact Hr].
  unfold known_status. simpl. tauto.
Qed.

(** The harvest of one future changes the statuses by [set_status] with 1 or
    -1 only, and leaves the products as they are. *)
Lemma harvest_future_statuses E session conf batch jj names :
  forall h,
    (Forall known_status (fst (fst h)) /\ map df_safe (fst (fst h)) = names) ->
    returns (fun h' => Forall known_status (fst (fst h')) /\
                       map df_safe (fst (fst h')) = names)
      (harvest_future E session conf batch jj h).
Proof.
  intros [[df speeds] errors] [Hknown Hnames]. cbn [fst] in *.
  unfold harvest_future.
  destruct (nth_error batch jj) as [g|];
    [|apply returns_ret; cbn; auto].
  apply returns_try_except_Exception.
  - apply returns_bind. intros [[[speed status_meaning] safename_base] token_file].
    apply returns_bind. intros login.
    apply returns_bind. intros stamp.
    apply returns_bind. intros date.
    apply returns_bind. intros _.
    apply returns_bind. intros _.
    destruct (String.eqb status_meaning "OK"); apply returns_ret; cbn [fst];
      (split; [apply set_status_known; auto|rewrite set_status_safe; exact Hnames]).
  - intros e. apply returns_bind. intros present.
    apply returns_bind. intros _.
    apply returns_ret. cbn [fst].
    split; [apply set_status_known; auto|rewrite set_status_safe; exact Hnames].
Qed.

Lemma harvest_round_statuses E session conf batch st :
  Forall known_status (df2 st) ->
  returns (fun h => Forall known_status (fst (fst h)) /\
                    map df_safe (fst (fst h)) = map df_safe (df2 st))
    (harvest_round E session conf batch st).
Proof.
  intros Hknown. unfold harvest_round. apply returns_bind. intros order.
  apply (returns_for_each
           (fun h => Forall known_status (fst (fst h)) /\
                     map df_safe (fst (fst h)) = map df_safe (df2 st))).
  - intros jj h Hh. apply harvest_future_statuses. exact Hh.
  - cbn. auto.
Qed.

(** What a round hands over: the blacklist it received, extended; the same
    products with known statuses; and, at the [break], the state it received
    with a blacklist as long as the account group. *)
Lemma scheduling_round_hands_over E session conf account_group st :
  Forall known_status (df2 st) ->
  returns (fun next =>
             (exists added, blacklist (handed_over next) = blacklist st ++ added)%list /\
             Forall known_status (df2 (handed_over next)) /\
             map df_safe (df2 (handed_over next)) = map df_safe (df2 st) /\
             match next with
             | inl _ => True
             | inr st' =>
                 st' = st /\
                 exists accounts,
                   dict_get account_group (groups conf) = Some accounts /\
                   (length accounts <= length (blacklist st))%nat
             end)
    (scheduling_round E session conf account_group st).
Proof.
  intros Hknown. unfold scheduling_round.
  apply returns_bind. intros batch.
  destruct (length batch =? 0)%nat.
  - unfold dict_getitem.
    destruct (dict_get account_group (groups conf)) as [accounts|] eqn:Hg;
      [|intros w a w' Heq; discriminate Heq].
    apply (returns_bind_with (fun a => a = accounts));
      [intros w a w' Heq; inversion Heq; reflexivity|].
    intros a ->.
    destruct (length accounts <=? length (blacklist st))%nat eqn:Hlen;
      apply returns_ret; cbn.
    + split; [exists []; rewrite app_nil_r; reflexivity|].
      split; [exact Hknown|]. split; [reflexivity|]. split; [reflexivity|].
      exists accounts. split; [reflexivity|]. apply Nat.leb_le. exact Hlen.
    + split; [exists []; rewrite app_nil_r; reflexivity|]. auto.
  - apply (returns_bind_with _ _ _ _ (harvest_round_statuses E session conf batch st Hknown)).
    intros [[df speeds] errors] [Hk Hn]. cbn [fst] in *.
    apply returns_ret. cbn.
    split; [eexists; reflexivity|]. auto.
Qed.

Lemma returns_weaken {A} (P Q : A -> Prop) (m : M A) :
  returns P m -> (forall a, P a -> Q a) -> returns Q m.
Proof. intros Hm HPQ w a w' Heq. apply HPQ. exact (Hm w a w' Heq). Qed.

(** ** The blacklist only grows *)

Lemma scheduling_round_blacklist E session conf account_group st :
  returns (fun next =>
             exists added,
               blacklist (handed_over next) = (blacklist st ++ added)%list)
    (scheduling_round E session conf account_group st).
Proof.
  unfold scheduling_round. apply returns_bind. intros batch.
  destruct (length batch =? 0)%nat.
  - apply returns_bind. intros accounts.
    destruct (length accounts <=? length (blacklist st))%nat;
      apply returns_ret; exists []; cbn; rewrite app_nil_r; reflexivity.
  - apply returns_bind. intros [[df speeds] errors].
    apply returns_ret. cbn. eexists. reflexivity.
Qed.

Lemma while_loop_blacklist E session conf account_group fuel :
  forall st,
    returns (fun final =>
               match final with
               | None => True
               | Some (_, st') =>
                   exists added, blacklist st' = (blacklist st ++ added)%list
               end)
      (while_loop E session conf fuel account_group st).
Proof.
  induction fuel as [|fuel IH]; intros st; simpl.
  - apply returns_ret. exact I.
  - destruct (existsb _ (df2 st)).
    + apply (returns_bind_with _ _ _ _
               (scheduling_round_blacklist E session conf account_group st)).
      intros [st'|st'] [added Hadded]; cbn in Hadded.
      * apply (returns_weaken _ _ _ (IH st')).
        intros [[exit st'']|]; [|auto]. intros [added' Hadded'].
        exists (added ++ added')%list. rewrite Hadded', Hadded.
        symmetry. apply app_assoc.
      * apply returns_ret. exists added. exact Hadded.
    + apply returns_ret. exists []. rewrite app_nil_r. reflexivity.
Qed.

Lemma newly_blacklisted_iff session errors acco :
  In acco (newly_blacklisted session errors) <->
  exists n, In (acco, n) errors /\ (MAX_SESSION_PER_ACCOUNT session <= n)%nat.
Proof.
  unfold newly_blacklisted. rewrite in_map_iff. split.
  - intros ([a n] & Hfst & Hin). cbn in Hfst. subst a.
    apply filter_In in Hin as [Hin Hn]. cbn in Hn.
    exists n. split; [exact Hin|]. apply Nat.leb_le. exact Hn.
  - intros (n & Hin & Hn). exists (acco, n). split; [reflexivity|].
    apply filter_In. split; [exact Hin|]. apply Nat.leb_le. exact Hn.
Qed.

(** C8. A round that downloads a batch hands over the blacklist it received
    followed by every account whose error counter of the round reached
    [MAX_SESSION_PER_ACCOUNT], and by no other account; whatever a round
    does, and however many rounds the loop runs, the blacklist received is
    the beginning of the blacklist handed over: no account leaves it. *)
Theorem blacklist_after_round_is_one_way
    (E : Env) (session : SessionModule) (conf : Conf) (account_group : string)
    (st : sched) (w : World) :
  (forall batch w1 df speeds errors_per_account w2,
     get_sessions_download_available session conf (List.filter pending (df2 st))
       (blacklist st) account_group w = (Ok batch, w1) ->
     batch <> [] ->
     harvest_round E session conf batch st w1
     = (Ok (df, speeds, errors_per_account), w2) ->
     let blacklist' :=
       (blacklist st ++ newly_blacklisted session errors_per_account)%list in
     scheduling_round E session conf account_group st w
     = (Ok (inl (Sched df blacklist' speeds)), w2) /\
     (forall acco n,
        In (acco, n) errors_per_account ->
        (MAX_SESSION_PER_ACCOUNT session <= n)%nat -> In acco blacklist') /\
     (forall acco,
        In acco blacklist' ->
        In acco (blacklist st) \/
        exists n, In (acco, n) errors_per_account /\
                  (MAX_SESSION_PER_ACCOUNT session <= n)%nat)) /\
  (forall next w',
     scheduling_round E session conf account_group st w = (Ok next, w') ->
     exists added, blacklist (handed_over next) = (blacklist st ++ added)%list) /\
  (forall fuel exit st' w',
     while_loop E session conf fuel account_group st w
     = (Ok (Some (exit, st')), w') ->
     (exists added, blacklist st' = (blacklist st ++ added)%list) /\
     (forall acco, In acco (blacklist st) -> In acco (blacklist st'))).
Proof.
  split; [|split].
  - intros batch w1 df speeds errors w2 Hadmit Hbatch Hharvest blacklist'.
    split; [|split].
    + unfold scheduling_round, bind.
      change (fun r : row => df_status r =? 0) with pending.
      rewrite Hadmit.
      destruct batch as [|g batch]; [congruence|]. cbn [length Nat.eqb].
      rewrite Hharvest. reflexivity.
    + intros acco n Hin Hn. apply in_or_app. right.
      apply newly_blacklisted_iff. eauto.
    + intros acco Hin. apply in_app_or in Hin as [Hin|Hin]; [left; exact Hin|].
      right. apply newly_blacklisted_iff. exact Hin.
  - intros next w' Hrun.
    exact (scheduling_round_blacklist E session conf account_group st w next w' Hrun).
  - intros fuel exit st' w' Hrun.
    pose proof (while_loop_blacklist E session conf account_group fuel st w _ w' Hrun)
      as [added Hadded].
    split; [exists added; exact Hadded|].
    intros acco Hin. rewrite Hadded. apply in_or_app. left. exact Hin.
Qed.

(** The sample run: two downloads granted to alice fail in the first round,
    which reaches [MAX_SESSION_PER_ACCOUNT = 2] and blacklists her. *)
Lemma blacklist_after_round_is_one_way_witness :
  let session := session_from_spec failing_env 2 in
  match fst (scheduling_round failing_env session single_account_conf "logins"
               (Sched three_products [] []) empty_world) with
  | Ok (inl st') => blacklist st' = ["alice"]
  | _ => False
  end.
Proof.
  intros session.
  set (st := Sched three_products [] []).
  set (admitted := get_sessions_download_available session single_account_conf
                     (List.filter pending (df2 st)) (blacklist st) "logins"
                     empty_world).
  set (batch := match fst admitted with Ok b => b | Raise _ => [] end).
  set (harvested := harvest_round failing_env session single_account_conf batch
                      st (snd admitted)).
  set (h := match fst harvested with Ok h => h | Raise _ => ([], [], []) end).
  destruct (blacklist_after_round_is_one_way failing_env session
              single_account_conf "logins" st empty_world) as [Hround _].
  destruct (Hround batch (snd admitted) (fst (fst h)) (snd (fst h)) (snd h)
              (snd harvested)) as (Hrun & _).
  - vm_compute. reflexivity.
  - vm_compute. discriminate.
  - vm_compute. reflexivity.
  - rewrite Hrun. vm_compute. reflexivity.
Defined.

(** ** The statuses when the loop is left *)

Lemma bind_Ok_inv {A B} (m : M A) (k : A -> M B) w b w' :
  bind m k w = (Ok b, w') ->
  exists a w1, m w = (Ok a, w1) /\ k a w1 = (Ok b, w').
Proof.
  unfold bind. destruct (m w) as [[a|e] w1]; [eauto|discriminate].
Qed.

Lemma returns_for_each_in {A S} (Q : A -> Prop) (I : S -> Prop) (l : list A)
    (body : A -> S -> M S) :
  (forall x s, Q x -> I s -> returns I (body x s)) ->
  Forall Q l -> forall s, I s -> returns I (for_each l body s).
Proof.
  intros Hb Hl. induction Hl as [|x l Hx Hl IH]; intros s Hs; simpl.
  - apply returns_ret. exact Hs.
  - apply (returns_bind_with I); [apply Hb; assumption|].
    intros s' Hs'. apply IH. exact Hs'.
Qed.

Lemma no_pending_terminal df :
  Forall known_status df -> existsb pending df = false -> Forall terminal df.
Proof.
  intros Hknown. induction Hknown as [|r df Hr Hdf IH]; [constructor|].
  simpl. intros H. apply orb_false_iff in H as [Hp Hrest].
  constructor; [|exact (IH Hrest)].
  unfold pending in Hp. apply Z.eqb_neq in Hp.
  unfold known_status in Hr. unfold terminal. tauto.
Qed.

Lemma some_pending df :
  existsb pending df = true -> Exists (fun r => df_status r = 0) df.
Proof.
  intros H. apply existsb_exists in H as (r & Hin & Hp).
  apply List.Exists_exists. exists r. split; [exact Hin|].
  unfold pending in Hp. apply Z.eqb_eq. exact Hp.
Qed.

(** How the loop is left. *)
Lemma while_loop_exit E session conf account_group fuel :
  forall st,
    Forall known_status (df2 st) ->
    returns (fun final =>
               match final with
               | None => True
               | Some (exit, st') =>
                   Forall known_status (df2 st') /\
                   map df_safe (df2 st') = map df_safe (df2 st) /\
                   match exit with
                   | NothingPending => Forall terminal (df2 st')
                   | AllBlacklisted =>
                       Exists (fun r => df_status r = 0) (df2 st') /\
                       exists accounts,
                         dict_get account_group (groups conf) = Some accounts /\
                         (length accounts <= length (blacklist st'))%nat
                   end
               end)
      (while_loop E session conf fuel account_group st).
Proof.
  induction fuel as [|fuel IH]; intros st Hknown; simpl.
  - apply returns_ret. exact I.
  - change (fun r : row => df_status r =? 0) with pending.
    destruct (existsb pending (df2 st)) eqn:Hpending.
    + apply (returns_bind_with _ _ _ _
               (scheduling_round_hands_over E session conf account_group st Hknown)).
      intros [st'|st'] (_ & Hk & Hn & Hbreak); cbn [handed_over] in *.
      * apply (returns_weaken _ _ _ (IH st' Hk)).
        intros [[exit st'']|]; [|auto]. intros (Hk' & Hn' & Hexit).
        split; [exact Hk'|]. split; [congruence|exact Hexit].
      * destruct Hbreak as (-> & accounts & Hg & Hlen).
        apply returns_ret. split; [exact Hknown|]. split; [reflexivity|].
        split; [apply some_pending; exact Hpending|]. eauto.
    + apply returns_ret. split; [exact Hknown|]. split; [reflexivity|].
      apply no_pending_terminal; assumption.
Qed.

Lemma filter_product_already_present_statuses E conf df outputdir force :
  Forall known_status df ->
  returns (Forall known_status)
    (filter_product_already_present E conf df outputdir force).
Proof.
  intros Hdf. unfold filter_product_already_present.
  apply (returns_for_each_in known_status (Forall known_status));
    [|exact Hdf|constructor].
  intros r todo Hr Htodo.
  apply returns_bind. intros archived.
  apply returns_bind. intros to_download.
  destruct to_download; [|apply returns_ret; exact Htodo].
  apply returns_bind. intros url_product. apply returns_ret.
  apply Forall_app. split; [exact Htodo|].
  constructor; [exact Hr|constructor].
Qed.

Lemma initial_frame_statuses (list_id list_safename : list string) :
  Forall known_status
    (map (fun p => Row (fst p) 0 (snd p) "" "") (combine list_safename list_id)).
Proof.
  apply List.Forall_forall. intros r Hin. apply in_map_iff in Hin as (p & <- & _).
  left. reflexivity.
Qed.

(** C1 (amended). When a run of [download_list_product_multithread_v2]
    completes, the rows returned are those the loop was left with; every
    status is 0, 1 or -1; when the loop was left because no item was pending,
    every item is successful or failed; when it was left by the [break]
    (an empty batch while the blacklist is at least as long as the account
    group), at least one item is still pending, with status 0: the
    remaining items are not marked failed. *)
Theorem download_list_product_multithread_v2_final_statuses
    (E : Env) (session : SessionModule) (conf : Conf) (fuel : nat)
    (list_id list_safename : list string) (outputdir account_group : string)
    (check_on_disk : bool) (w : World) (rows : list row) (w' : World) :
  download_list_product_multithread_v2 E session conf fuel list_id
    list_safename outputdir account_group check_on_disk w
  = (Ok (Some rows), w') ->
  exists todo w1 exit st' w2,
    filter_product_already_present E conf
      (map (fun p => Row (fst p) 0 (snd p) "" "") (combine list_safename list_id))
      outputdir (negb check_on_disk) w = (Ok todo, w1) /\
    while_loop E session conf fuel account_group (Sched todo [] []) w1
    = (Ok (Some (exit, st')), w2) /\
    rows = df2 st' /\
    Forall known_status rows /\
    map df_safe rows = map df_safe todo /\
    match exit with
    | NothingPending => Forall terminal rows
    | AllBlacklisted =>
        Exists (fun r => df_status r = 0) rows /\
        exists accounts,
          dict_get account_group (groups conf) = Some accounts /\
          (length accounts <= length (blacklist st'))%nat
    end.
Proof.
  intros Hrun. unfold download_list_product_multithread_v2 in Hrun.
  apply bind_Ok_inv in Hrun as ([] & w0 & Hassert & Hrun).
  assert (w0 = w) as ->.
  { destruct (length list_id =? length list_safename)%nat;
      [inversion Hassert; reflexivity|discriminate]. }
  apply bind_Ok_inv in Hrun as (todo & w1 & Hfilter & Hrun).
  apply bind_Ok_inv in Hrun as (final & w2 & Hloop & Hrun).
  destruct final as [[exit st']|]; [|inversion Hrun].
  apply bind_Ok_inv in Hrun as ([] & w3 & _ & Hret).
  inversion Hret; subst rows w3.
  exists todo, w1, exit, st', w2.
  split; [exact Hfilter|]. split; [exact Hloop|]. split; [reflexivity|].
  assert (Htodo : Forall known_status todo).
  { exact (filter_product_already_present_statuses E conf _ outputdir _
             (initial_frame_statuses list_id list_safename) w todo w1 Hfilter). }
  exact (while_loop_exit E session conf account_group fuel (Sched todo [] [])
           Htodo w1 _ w2 Hloop).
Qed.

(** The sample run completes: alice is blacklisted after two failures, the
    loop is left by the [break], and a product is still pending. *)
Lemma download_list_product_multithread_v2_final_statuses_witness :
  let session := session_from_spec failing_env 2 in
  let run := download_list_product_multithread_v2 failing_env session
               single_account_conf 5 ["id1"; "id2"; "id3"] ["P1"; "P2"; "P3"]
               "/out" "logins" true empty_world in
  let rows := match fst run with Ok (Some rows) => rows | _ => [] end in
  Exists (fun r => df_status r = 0) rows.
Proof.
  intros session run rows.
  destruct (download_list_product_multithread_v2_final_statuses failing_env
              session single_account_conf 5 ["id1"; "id2"; "id3"]
              ["P1"; "P2"; "P3"] "/out" "logins" true empty_world rows (snd run))
    as (todo & w1 & exit & st' & w2 & _ & _ & _ & _ & _ & Hexit).
  - vm_compute. reflexivity.
  - destruct exit; [exfalso|apply Hexit].
    vm_compute in Hexit.
    inversion Hexit as [|r1 l1 _ H1]; subst.
    inversion H1 as [|r2 l2 _ H2]; subst.
    inversion H2 as [|r3 l3 [H3|H3] _]; discriminate H3.
Defined.

(** C1 as stated fails at the [break]: in the sample run the third product
    is returned with status 0, neither successful nor failed. *)
Lemma download_list_product_multithread_v2_leaves_pending :
  let session := session_from_spec failing_env 2 in
  fst (download_list_product_multithread_v2 failing_env session
         single_account_conf 5 ["id1"; "id2"; "id3"] ["P1"; "P2"; "P3"] "/out"
         "logins" true empty_world)
  = Ok (Some [ Row "P1" (-1) "id1" "https://download.example/Products(id1)/$value"
                 "/out/P1.zip";
               Row "P2" (-1) "id2" "https://download.example/Products(id2)/$value"
                 "/out/P2.zip";
               Row "P3" 0 "id3" "https://download.example/Products(id3)/$value"
                 "/out/P3.zip" ]) /\
  ~ terminal (Row "P3" 0 "id3" "https://download.example/Products(id3)/$value"
                "/out/P3.zip").
Proof.
  intros session. split; [vm_compute; reflexivity|].
  intros [H|H]; discriminate H.
Qed.

(** ** Token leases are read and used while valid *)





(** The primitives and the requests to the download endpoint *)
Lemma same_gets_refl w : same_gets w w.
Proof. reflexivity. Qed.
Lemma same_gets_trans w1 w2 w3 : same_gets w1 w2 -> same_gets w2 w3 -> same_gets w1 w3.
Proof. unfold same_gets. congruence. Qed.
Lemma same_clock_refl w : same_clock w w.
Proof. reflexivity. Qed.
Lemma same_clock_trans w1 w2 w3 :
  same_clock w1 w2 -> same_clock w2 w3 -> same_clock w1 w3.
Proof. unfold same_clock. congruence. Qed.

#[export] Hint Resolve same_gets_refl same_gets_trans same_clock_refl
  same_clock_trans : keeps.

Ltac keeps_gets := repeat keeps_step same_gets_refl same_gets_trans.

Ltac primitive_keeps :=
  intros w;
  repeat match goal with
         | |- context [match ?x with _ => _ end] => destruct x
         end;
  reflexivity.

Lemma datetime_today_same_gets E : keeps same_gets (datetime_today E).
Proof. primitive_keeps. Qed.
Lemma time_time_same_gets E : keeps same_gets (time_time E).
Proof. primitive_keeps. Qed.
Lemma random_choice_same_gets E {A} (l : list A) : keeps same_gets (random_choice E l).
Proof. unfold random_choice. primitive_keeps. Qed.
Lemma os_path_exists_same_gets p : keeps same_gets (os_path_exists p).
Proof. primitive_keeps. Qed.
Lemma os_remove_same_gets E p : keeps same_gets (os_remove E p).
Proof. unfold os_remove. primitive_keeps. Qed.
Lemma os_makedirs_same_gets E p : keeps same_gets (os_makedirs_exist_ok E p).
Proof. unfold os_makedirs_exist_ok. primitive_keeps. Qed.
Lemma open_for_writing_same_gets E p : keeps same_gets (open_for_writing E p).
Proof. unfold open_for_writing. primitive_keeps. Qed.
Lemma file_write_same_gets p c : keeps same_gets (file_write p c).
Proof. unfold file_write. primitive_keeps. Qed.
Lemma shutil_move_same_gets E src dst : keeps same_gets (shutil_move E src dst).
Proof. unfold shutil_move. primitive_keeps. Qed.
Lemma os_chmod_same_gets E p m : keeps same_gets (os_chmod E p m).
Proof. unfold os_chmod. primitive_keeps. Qed.
Lemma glob_same_gets E d pre suf : keeps same_gets (glob E d pre suf).
Proof. primitive_keeps. Qed.
Lemma read_first_line_same_gets p : keeps same_gets (read_first_line p).
Proof. unfold read_first_line. primitive_keeps. Qed.
Lemma requests_post_same_gets E pl : keeps same_gets (requests_post E pl).
Proof. unfold requests_post. primitive_keeps. Qed.

#[export] Hint Resolve datetime_today_same_gets time_time_same_gets
  random_choice_same_gets os_path_exists_same_gets os_remove_same_gets
  os_makedirs_same_gets open_for_writing_same_gets file_write_same_gets
  shutil_move_same_gets os_chmod_same_gets glob_same_gets
  read_first_line_same_gets requests_post_same_gets : keeps.

Lemma choose_credentials_same_gets E conf g sa pw :
  keeps same_gets (choose_credentials E conf g sa pw).
Proof. unfold choose_credentials. keeps_gets; auto with keeps. Qed.

Lemma fetch_token_data_same_gets E pl : keeps same_gets (fetch_token_data E pl).
Proof.
  unfold fetch_token_data. keeps_gets; auto with keeps.
Qed.

Lemma write_token_semphore_file_same_gets E login d token_dir tok :
  keeps same_gets (write_token_semphore_file E login d token_dir tok).
Proof. unfold write_token_semphore_file. keeps_gets; auto with keeps. Qed.

Lemma get_bearer_access_token_same_gets E conf sa pw g :
  keeps same_gets (get_bearer_access_token E conf sa pw g).
Proof.
  unfold get_bearer_access_token. keeps_gets;
    auto using choose_credentials_same_gets, fetch_token_data_same_gets,
      json_contains_keeps, json_getitem_keeps,
      write_token_semphore_file_same_gets with keeps.
Qed.

Lemma renew_if_expired_same_gets E conf h :
  keeps same_gets (renew_if_expired E conf h).
Proof.
  unfold renew_if_expired. keeps_gets;
    auto using get_bearer_access_token_same_gets with keeps.
Qed.

Lemma remove_semaphore_token_file_same_gets E token_dir login d :
  keeps same_gets (remove_semaphore_token_file E token_dir login d).
Proof.
  unfold remove_semaphore_token_file. keeps_gets; auto with keeps.
Qed.

Lemma random_choice_same_clock E {A} (l : list A) : keeps same_clock (random_choice E l).
Proof. unfold random_choice. primitive_keeps. Qed.

Lemma choose_credentials_same_clock E conf g sa pw :
  keeps same_clock (choose_credentials E conf g sa pw).
Proof.
  unfold choose_credentials.
  repeat keeps_step same_clock_refl same_clock_trans;
    auto using random_choice_same_clock.
Qed.


Lemma bind_run {A B} (m : M A) (k : A -> M B) w a w1 :
  m w = (Ok a, w1) -> bind m k w = k a w1.
Proof. intros H. unfold bind. rewrite H. reflexivity. Qed.

Lemma bind_raise {A B} (m : M A) (k : A -> M B) w e w1 :
  m w = (Raise e, w1) -> bind m k w = (Raise e, w1).
Proof. intros H. unfold bind. rewrite H. reflexivity. Qed.

(** The session module modelled from the specification sends no request to
    the download endpoint when it releases session leases. *)
Lemma session_from_spec_same_gets E max_sessions d s l :
  keeps same_gets
    (remove_semaphore_session_file (session_from_spec E max_sessions) d s l).
Proof.
  cbn [remove_semaphore_session_file session_from_spec].
  unfold spec_remove_semaphore_session_file, delete_lease.
  keeps_gets; auto with keeps.
Qed.

Lemma check_safe_in_spool_run conf safename w :
  exists b, check_safe_in_spool conf safename w = (Ok b, w).
Proof.
  unfold check_safe_in_spool, bind. rewrite first_existing_find.
  eexists. reflexivity.
Qed.

Lemma prefix_nil s : String.prefix "" s = true.
Proof. destruct s; reflexivity. Qed.

Lemma format_with_simple E template value w :
  simple_template template = true ->
  format_with E template value w = (Ok (percent_s template value), w).
Proof.
  intros Hs. unfold format_with. rewrite Hs.
  unfold simple_template in Hs. apply andb_true_iff in Hs as [Hcount _].
  destruct (contains "%" template) eqn:Hc; [reflexivity|].
  exfalso. clear - Hcount Hc. apply Nat.eqb_eq in Hcount.
  assert (Hnone : forall s, contains "%" s = false -> count_char "%" s = 0%nat).
  { clear. induction s as [|c s IH]; [reflexivity|].
    cbn [contains count_char String.prefix]. intros H.
    apply orb_false_iff in H as [Hp Hs].
    destruct (Ascii.eqb c "%") eqn:Hc; [|exact (IH Hs)].
    exfalso. apply Ascii.eqb_eq in Hc. subst c.
    destruct (ascii_dec "%" "%") as [_|Hne]; [|congruence].
    rewrite prefix_nil in Hp. discriminate. }
  rewrite (Hnone _ Hc) in Hcount. discriminate.
Qed.

(** * Further properties of the code *)

(** ** The download executor *)

Lemma request_and_stream_shape E url headers tmp w0 :
  exists status meaning tl w1,
    request_and_stream E url headers tmp w0 = (Ok (status, meaning, tl), w1) /\
    (status = 200 -> exists total, tl = Some total) /\
    ((w1 = w0 /\ (e_denied E tmp = true \/ w_fs w0 !! tmp = Some Dir)) \/
     (e_denied E tmp = false /\ w_fs w0 !! tmp <> Some Dir /\
      exists data mode, w1 = after_request w0 url headers tmp data mode)).
Proof.
  destruct (request_and_stream_cases E url headers tmp w0)
    as [(Hwhy & msg & Hrun)|(Hd & Hnd & mode & Hrun)].
  - eexists _, _, _, _. split; [exact Hrun|]. split; [lia|]. left. auto.
  - destruct (e_download E _) as [msg|r].
    + eexists _, _, _, _. split; [exact Hrun|]. split; [lia|]. right. eauto.
    + destruct (is_error_status (status_code r)) eqn:Herr.
      * apply is_error_status_iff in Herr.
        eexists _, _, _, _. split; [exact Hrun|]. split; [lia|]. right. eauto.
      * destruct (read_megabytes (header_content_length r)) as [total_length|].
        -- destruct (body_end r); eexists _, _, _, _;
             (split; [exact Hrun|]); (split; [eauto|]); right; eauto.
        -- destruct Hrun as [msg Hrun].
           eexists _, _, _, _. split; [exact Hrun|]. split; [lia|]. right. eauto.
Qed.

(** Lines 42-150: the two ways out of the executor. *)
Lemma executor_outcomes {T : Type}
    (E : Env) (conf : Conf) (headers url output_filepath : string)
    (semaphore_token_file : T) (w : World) :
  (exists speed status_meaning w',
     CDS_Odata_download_one_product_v2 E conf headers url output_filepath
       semaphore_token_file w
     = (Ok (speed, status_meaning,
            replace ".zip" "" (basename output_filepath), semaphore_token_file),
        w')) \/
  (w_fs w !! pre_spool conf = None /\
   e_denied E (pre_spool conf) = true /\
   exists e,
     exn_cls e = OSError /\
     CDS_Odata_download_one_product_v2 E conf headers url output_filepath
       semaphore_token_file w = (Raise e, tick w)).
Proof.
  destruct (enter_try E conf w) as [[t0|e] w0] eqn:Henter.
  - left.
    destruct (request_and_stream_shape E url headers (tmp_path conf output_filepath) w0)
      as (status & meaning & tl & w1 & Hrun & H200 & _).
    destruct (Z.eq_dec status 200) as [->|Hne].
    + destruct (H200 eq_refl) as [total ->].
      rewrite (executor_200_run E conf headers url output_filepath
                 semaphore_token_file w t0 w0 meaning total w1 Henter Hrun).
      cbv zeta.
      destruct (publish_never_raises E meaning (tmp_path conf output_filepath)
                  output_filepath (tick w1)) as (m & Hm & _).
      rewrite Hm. eauto.
    + rewrite (executor_failed_run E conf headers url output_filepath
                 semaphore_token_file w t0 w0 status meaning tl w1 Henter Hrun Hne).
      eauto.
  - right. revert Henter.
    unfold CDS_Odata_download_one_product_v2, enter_try, bind, time_time,
      os_path_exists. cbn [w_fs].
    destruct (bool_decide (is_Some (w_fs w !! pre_spool conf))) eqn:Hp;
      [discriminate|].
    apply bool_decide_eq_false in Hp.
    unfold os_makedirs_exist_ok. cbn [w_fs].
    destruct (w_fs w !! pre_spool conf) as [n|] eqn:Hn;
      [exfalso; apply Hp; eauto|].
    destruct (e_denied E (pre_spool conf)); [|discriminate].
    intros Heq. inversion Heq; subst. repeat split.
    eexists. split; [|reflexivity]. reflexivity.
Qed.

(** X1. The executor returns its tuple, with the base name of the output
    file and the token semaphore it was given, in every case but one: when
    the staging directory is missing and cannot be created, the [OSError] of
    [os.makedirs] escapes.  In particular [total_length] is always assigned
    when it is read. *)
Theorem executor_returns_unless_staging_fails {T : Type}
    (E : Env) (conf : Conf) (headers url output_filepath : string)
    (semaphore_token_file : T) (w : World) :
  (exists speed status_meaning w',
     CDS_Odata_download_one_product_v2 E conf headers url output_filepath
       semaphore_token_file w
     = (Ok (speed, status_meaning,
            replace ".zip" "" (basename output_filepath), semaphore_token_file),
        w')) \/
  (w_fs w !! pre_spool conf = None /\
   e_denied E (pre_spool conf) = true /\
   exists e,
     exn_cls e = OSError /\
     CDS_Odata_download_one_product_v2 E conf headers url output_filepath
       semaphore_token_file w = (Raise e, tick w)).
Proof. apply executor_outcomes. Qed.

Lemma publish_same_gets E meaning tmp out :
  keeps same_gets (publish E meaning tmp out).
Proof. unfold publish. keeps_gets; auto with keeps. Qed.

Lemma without_gets E p w : w_gets (without E p w) = w_gets w.
Proof. unfold without. destruct (removable E p (w_fs w)); reflexivity. Qed.

(** The world the executor ends in, from the world after the request. *)
Lemma executor_final_gets {T} E conf headers url out (sem : T) w t0 w0
    status meaning tl w1 :
  enter_try E conf w = (Ok t0, w0) ->
  request_and_stream E url headers (tmp_path conf out) w0
  = (Ok (status, meaning, tl), w1) ->
  (status = 200 -> exists total, tl = Some total) ->
  w_gets (snd (CDS_Odata_download_one_product_v2 E conf headers url out sem w))
  = w_gets w1.
Proof.
  intros Henter Hrun H200.
  destruct (Z.eq_dec status 200) as [->|Hne].
  - destruct (H200 eq_refl) as [total ->].
    rewrite (executor_200_run E conf headers url out sem w t0 w0 meaning total w1
               Henter Hrun).
    cbv zeta. cbn [snd].
    exact (publish_same_gets E meaning (tmp_path conf out) out (tick w1)).
  - rewrite (executor_failed_run E conf headers url out sem w t0 w0 status
               meaning tl w1 Henter Hrun Hne).
    cbn [snd tick w_gets]. apply without_gets.
Qed.

(** X2. Once the [try] block is entered, the executor sends exactly one
    request to the download endpoint, for the given URL and with the given
    authorization header, when the temporary file can be opened; it sends
    none when the temporary file cannot be opened (the path is refused or is
    a directory). *)
Theorem executor_sends_one_request {T : Type}
    (E : Env) (conf : Conf) (headers url output_filepath : string)
    (semaphore_token_file : T) (w : World) (t0 : Q) (w0 : World) :
  let tmp := tmp_path conf output_filepath in
  let final := snd (CDS_Odata_download_one_product_v2 E conf headers url
                      output_filepath semaphore_token_file w) in
  enter_try E conf w = (Ok t0, w0) ->
  (e_denied E tmp = false -> w_fs w0 !! tmp <> Some Dir ->
   w_gets final = (w_gets w ++ [GetRequest url headers])%list) /\
  (e_denied E tmp = true \/ w_fs w0 !! tmp = Some Dir ->
   w_gets final = w_gets w).
Proof.
  intros tmp final Henter. subst final.
  destruct (enter_try_run E conf w) as [[e He]|(Hrun0 & Hgets & _)];
    [rewrite Henter in He; discriminate|].
  rewrite Henter in Hrun0. inversion Hrun0; subst t0 w0. clear Hrun0.
  destruct (request_and_stream_shape E url headers tmp (world_at_try E conf w))
    as (status & meaning & tl & w1 & Hrun & H200 & Hw1).
  rewrite (executor_final_gets E conf headers url output_filepath
             semaphore_token_file w _ _ status meaning tl w1 Henter Hrun H200).
  split.
  - intros Hd Hnd.
    destruct Hw1 as [(_ & [H|H])|(_ & _ & data & mode & ->)];
      [congruence|congruence|].
    cbn [after_request w_gets]. rewrite Hgets. reflexivity.
  - intros Hwhy.
    destruct Hw1 as [(-> & _)|(Hd & Hnd & _)]; [exact Hgets|].
    destruct Hwhy; congruence.
Qed.

(** With the staging directory in place and nothing refused, one request
    for the sample URL is sent. *)
Lemma executor_sends_one_request_witness :
  let r := GetResponse 404 "Not Found" false CLAbsent [] StreamDone in
  let E := sample_env sample_midnight (fun _ => 0%nat) nothing_denied
             (identity_grants "tok") (download_answers r)
             (zip_always ZipSound) in
  w_gets (snd (CDS_Odata_download_one_product_v2 E sample_conf "Bearer tok"
                 sample_url sample_output alice_lease staged_world))
  = [GetRequest sample_url "Bearer tok"].
Proof.
  intros r E.
  destruct (executor_sends_one_request E sample_conf "Bearer tok" sample_url
              sample_output alice_lease staged_world 0%Q (tick staged_world))
    as [Hone _].
  - reflexivity.
  - apply Hone; [reflexivity|discriminate].
Defined.

(** X3. The temporary path of a download is never its output path: it is a
    path that ends with the base name of the output path followed by
    ".tmp", so that removing or replacing the temporary file never touches
    a published file of the same product. *)
Theorem temporary_path_is_not_the_output_path
    (conf : Conf) (output_filepath : string) :
  tmp_path conf output_filepath <> output_filepath /\
  (exists dir,
     tmp_path conf output_filepath
     = dir +:+ (basename output_filepath +:+ ".tmp")) /\
  basename (tmp_path conf output_filepath) <> basename output_filepath.
Proof.
  assert (Hc : no_sep "/" (basename output_filepath +:+ ".tmp") = true).
  { rewrite no_sep_app, basename_no_slash. reflexivity. }
  destruct (path_join_relative (pre_spool conf)
              (basename output_filepath +:+ ".tmp")
              (startswith_slash_no_sep _ Hc)) as [x Hx].
  split; [apply tmp_path_differs|]. split; [exists x; exact Hx|].
  unfold tmp_path. rewrite Hx, (basename_app_no_slash x _ Hc).
  intros Heq. apply (f_equal String.length) in Heq.
  rewrite !string_length_app in Heq. simpl in Heq. lia.
Qed.

(** ** Paths that a computation may change *)

Lemma outside_refl paths w : outside paths w w.
Proof. intros p _. reflexivity. Qed.

Lemma outside_trans paths w1 w2 w3 :
  outside paths w1 w2 -> outside paths w2 w3 -> outside paths w1 w3.
Proof. intros H12 H23 p Hp. rewrite (H23 p Hp). exact (H12 p Hp). Qed.

Lemma same_fs_outside paths {A} (m : M A) :
  keeps same_fs m -> keeps (outside paths) m.
Proof. intros Hm w p _. rewrite (Hm w). reflexivity. Qed.

Lemma os_remove_outside E paths p :
  In p paths -> keeps (outside paths) (os_remove E p).
Proof.
  intros Hin w q Hq. unfold os_remove.
  destruct (w_fs w !! p) as [[d m|]|]; try reflexivity.
  destruct (e_denied E p); [reflexivity|]. cbn.
  apply lookup_delete_ne. congruence.
Qed.

Lemma make_missing_other dirs q :
  ~ In q dirs -> forall fs, make_missing dirs fs !! q = fs !! q.
Proof.
  unfold make_missing. induction dirs as [|d dirs IH]; intros Hq fs; [reflexivity|].
  cbn [fold_left]. rewrite IH by (intros H; apply Hq; right; exact H).
  destruct (fs !! d); [reflexivity|].
  apply lookup_insert_ne. intros ->. apply Hq. left. reflexivity.
Qed.

(** What [os.makedirs] makes above a path is a directory afterwards, and
    what existed there is kept. *)
Lemma make_missing_kept dirs q n :
  forall fs, fs !! q = Some n -> make_missing dirs fs !! q = Some n.
Proof.
  unfold make_missing. induction dirs as [|d dirs IH]; intros fs Hq; [exact Hq|].
  cbn [fold_left]. apply IH. destruct (fs !! d) eqn:Hd; [exact Hq|].
  rewrite lookup_insert_ne; [exact Hq|]. intros ->. congruence.
Qed.

Lemma ancestors_from_length a :
  forall rest before,
    In a (ancestors_from before rest) ->
    (String.length before <= String.length a
     < String.length before + String.length rest)%nat.
Proof.
  induction rest as [|c rest IH]; intros before Hin; [destruct Hin|].
  cbn [ancestors_from] in Hin. cbn [String.length].
  destruct (Ascii.eqb c "/").
  - apply in_app_or in Hin as [Hin|Hin].
    + destruct (String.eqb before "" || endswith "/" before); [destruct Hin|].
      destruct Hin as [<-|[]]. lia.
    + apply IH in Hin. rewrite string_length_app in Hin. simpl in Hin. lia.
  - apply IH in Hin. rewrite string_length_app in Hin. simpl in Hin. lia.
Qed.

(** An ancestor of a path is shorter than the path. *)
Lemma ancestors_shorter a p :
  In a (ancestors p) -> (String.length a < String.length p)%nat.
Proof.
  intros Hin. apply ancestors_from_length in Hin. simpl in Hin. lia.
Qed.

Lemma os_makedirs_outside E paths p :
  In p paths -> incl (ancestors p) paths ->
  keeps (outside paths) (os_makedirs_exist_ok E p).
Proof.
  intros Hin Hanc w q Hq. unfold os_makedirs_exist_ok.
  destruct (w_fs w !! p) as [[d m|]|]; try reflexivity.
  destruct (e_denied E p); [reflexivity|]. cbn [snd w_fs with_fs].
  rewrite lookup_insert_ne by congruence.
  apply make_missing_other. intros H. apply Hq, Hanc, H.
Qed.

Lemma open_for_writing_outside E paths p :
  In p paths -> keeps (outside paths) (open_for_writing E p).
Proof.
  intros Hin w q Hq. unfold open_for_writing.
  destruct (e_denied E p); [reflexivity|].
  destruct (w_fs w !! p) as [[d m|]|]; try reflexivity; cbn;
    apply lookup_insert_ne; congruence.
Qed.

Lemma file_write_outside paths p c :
  In p paths -> keeps (outside paths) (file_write p c).
Proof.
  intros Hin w q Hq. unfold file_write.
  destruct (w_fs w !! p) as [[d m|]|]; try reflexivity; cbn.
  apply lookup_insert_ne. congruence.
Qed.

Lemma os_chmod_outside E paths p mode :
  In p paths -> keeps (outside paths) (os_chmod E p mode).
Proof.
  intros Hin w q Hq. unfold os_chmod.
  destruct (w_fs w !! p) as [[d m|]|]; try reflexivity;
    destruct (e_chmod_denied E p); try reflexivity; cbn.
  apply lookup_insert_ne. congruence.
Qed.

Lemma shutil_move_outside E paths src dst :
  In src paths -> In dst paths -> In (path_join dst (basename src)) paths ->
  keeps (outside paths) (shutil_move E src dst).
Proof.
  intros Hsrc Hdst Hinto w q Hq. unfold shutil_move.
  destruct (w_fs w !! src) as [n|]; [|reflexivity].
  assert (Hreal : In (match w_fs w !! dst with
                      | Some Dir => path_join dst (basename src)
                      | _ => dst
                      end) paths).
  { destruct (w_fs w !! dst) as [[d m|]|]; assumption. }
  set (real_dst := match w_fs w !! dst with
                   | Some Dir => path_join dst (basename src)
                   | _ => dst
                   end) in *.
  destruct (e_denied E src || e_denied E real_dst); [reflexivity|].
  destruct (w_fs w !! dst) as [[d m|]|];
    destruct (w_fs w !! real_dst) as [[d' m'|]|]; try reflexivity; cbn;
    (rewrite lookup_insert_ne by congruence; apply lookup_delete_ne; congruence).
Qed.

Ltac keeps_outside paths :=
  repeat keeps_step (outside_refl paths) (outside_trans paths).

(** X4. Whatever the executor does, it changes no path of the file system
    other than the staging directory and the directories above it (which
    [os.makedirs] makes when they are missing), the temporary path, the
    output path and, when the output path is a directory, the path of the
    temporary file's name in that directory. *)
Theorem executor_changes_its_own_paths_only {T : Type}
    (E : Env) (conf : Conf) (headers url output_filepath : string)
    (semaphore_token_file : T) (w : World) (p : string) :
  let tmp := tmp_path conf output_filepath in
  p <> pre_spool conf -> ~ In p (ancestors (pre_spool conf)) ->
  p <> tmp -> p <> output_filepath ->
  p <> path_join output_filepath (basename tmp) ->
  w_fs (snd (CDS_Odata_download_one_product_v2 E conf headers url
               output_filepath semaphore_token_file w)) !! p
  = w_fs w !! p.
Proof.
  intros tmp H1 Hanc H2 H3 H4.
  set (paths := ([pre_spool conf; tmp; output_filepath;
                  path_join output_filepath (basename tmp)]
                 ++ ancestors (pre_spool conf))%list).
  assert (Hincl : incl (ancestors (pre_spool conf)) paths).
  { intros a Ha. apply in_or_app. right. exact Ha. }
  assert (Hk : keeps (outside paths)
                 (CDS_Odata_download_one_product_v2 E conf headers url
                    output_filepath semaphore_token_file)).
  { unfold CDS_Odata_download_one_product_v2, enter_try, request_and_stream,
      remove_failed_tmp, publish, stream_body, megabytes_of. fold tmp.
    keeps_outside paths;
      first [ apply same_fs_outside; auto with keeps; fail
            | apply os_makedirs_outside; [cbn [paths app In]; tauto|exact Hincl]
            | apply open_for_writing_outside; cbn [paths app In]; tauto
            | apply file_write_outside; cbn [paths app In]; tauto
            | apply os_remove_outside; cbn [paths app In]; tauto
            | apply os_chmod_outside; cbn [paths app In]; tauto
            | apply shutil_move_outside; cbn [paths app In]; tauto ]. }
  apply (Hk w p). intros Hin. apply in_app_or in Hin as [Hin|Hin].
  - cbn [In] in Hin. destruct Hin as [H|[H|[H|[H|[]]]]]; congruence.
  - exact (Hanc Hin).
Qed.

(** A product of the output directory other than the one downloaded is left
    as it was. *)
Lemma executor_changes_its_own_paths_only_witness :
  let r := GetResponse 200 "OK" false (CLInt 4) ["PK"; "34"] StreamDone in
  let E := sample_env sample_midnight (fun _ => 0%nat) nothing_denied
             (identity_grants "tok") (download_answers r)
             (zip_always ZipSound) in
  let w := world_with [("/pre_spool", Dir); ("/out", Dir);
                       ("/out/other.zip", File "PK" 509)] in
  w_fs (snd (CDS_Odata_download_one_product_v2 E sample_conf "Bearer tok"
               sample_url sample_output alice_lease w)) !! "/out/other.zip"
  = Some (File "PK" 509).
Proof.
  intros r E w.
  rewrite (executor_changes_its_own_paths_only E sample_conf "Bearer tok"
             sample_url sample_output alice_lease w "/out/other.zip").
  - vm_compute. reflexivity.
  - discriminate.
  - vm_compute. intros [].
  - discriminate.
  - discriminate.
  - discriminate.
Defined.

(** ** Token acquisition: the lease file *)

Lemma token_file_name_relative E login d :
  startswith "/" (token_file_name E login d) = false.
Proof. reflexivity. Qed.

Lemma token_path_not_dir E login d token_dir :
  path_join token_dir (token_file_name E login d) <> token_dir.
Proof.
  unfold path_join. rewrite token_file_name_relative.
  assert (Hlen : (1 <= String.length (token_file_name E login d))%nat).
  { unfold token_file_name. rewrite string_length_app. simpl. lia. }
  destruct (String.eqb token_dir "" || endswith "/" token_dir);
    intros H; apply (f_equal String.length) in H;
    rewrite !string_length_app in H; simpl in H; lia.
Qed.

(** The path of a lease is longer than the token directory: it is none of
    the directories above it. *)
Lemma token_path_not_ancestor E login d token_dir :
  ~ In (path_join token_dir (token_file_name E login d)) (ancestors token_dir).
Proof.
  intros Hin. apply ancestors_shorter in Hin.
  destruct (path_join_relative token_dir (token_file_name E login d)
              (token_file_name_relative E login d)) as [x Hx].
  unfold path_join in Hin. rewrite token_file_name_relative in Hin.
  destruct (String.eqb token_dir "" || endswith "/" token_dir);
    rewrite !string_length_app in Hin; lia.
Qed.

Lemma with_directory_other p q w :
  q <> p -> ~ In q (ancestors p) ->
  w_fs (with_directory p w) !! q = w_fs w !! q.
Proof.
  intros Hq Hanc. unfold with_directory. cbn [w_fs with_fs].
  rewrite lookup_insert_ne by congruence. apply make_missing_other. exact Hanc.
Qed.

Lemma with_directory_kept p q n w :
  w_fs w !! p = None -> w_fs w !! q = Some n ->
  w_fs (with_directory p w) !! q = Some n.
Proof.
  intros Hp Hq. unfold with_directory. cbn [w_fs with_fs].
  rewrite lookup_insert_ne by congruence. apply make_missing_kept. exact Hq.
Qed.

Lemma with_directory_lease E login d token_dir w :
  w_fs (with_directory token_dir w) !! path_join token_dir (token_file_name E login d)
  = w_fs w !! path_join token_dir (token_file_name E login d).
Proof.
  apply with_directory_other;
    [apply token_path_not_dir|apply token_path_not_ancestor].
Qed.

(** Lines 134-138: a failure to make the token directory is passed over. *)
Lemma token_directory_made E token_dir w :
  try_except (os_makedirs_exist_ok E token_dir) [OSError] (fun _ => ret tt) w
  = (Ok tt, after_makedirs E token_dir w).
Proof.
  unfold try_except, os_makedirs_exist_ok, after_makedirs.
  destruct (w_fs w !! token_dir) as [[data m|]|] eqn:Hn; try reflexivity.
  destruct (e_denied E token_dir); reflexivity.
Qed.

Lemma after_makedirs_cases E p w :
  after_makedirs E p w = w \/
  (w_fs w !! p = None /\ e_denied E p = false /\
   after_makedirs E p w = with_directory p w).
Proof.
  unfold after_makedirs. destruct (w_fs w !! p); [left; reflexivity|].
  destruct (e_denied E p); [left; reflexivity|]. right. auto.
Qed.

Lemma after_makedirs_lease E login d token_dir w :
  w_fs (after_makedirs E token_dir w) !! path_join token_dir (token_file_name E login d)
  = w_fs w !! path_join token_dir (token_file_name E login d).
Proof.
  destruct (after_makedirs_cases E token_dir w) as [->|(_ & _ & ->)];
    [reflexivity|apply with_directory_lease].
Qed.

Lemma after_makedirs_other E p q w :
  q <> p -> ~ In q (ancestors p) ->
  w_fs (after_makedirs E p w) !! q = w_fs w !! q.
Proof.
  intros Hq Hanc.
  destruct (after_makedirs_cases E p w) as [->|(_ & _ & ->)];
    [reflexivity|apply with_directory_other; assumption].
Qed.

Lemma after_makedirs_kept E p q n w :
  w_fs w !! q = Some n -> w_fs (after_makedirs E p w) !! q = Some n.
Proof.
  intros Hq.
  destruct (after_makedirs_cases E p w) as [->|(Hnone & _ & ->)];
    [exact Hq|apply with_directory_kept; assumption].
Qed.

Lemma after_makedirs_there E p w :
  is_Some (w_fs w !! p) -> after_makedirs E p w = w.
Proof.
  intros [n Hn]. unfold after_makedirs. rewrite Hn. reflexivity.
Qed.

Lemma after_makedirs_made E p w :
  w_fs w !! p = None -> e_denied E p = false ->
  w_fs (after_makedirs E p w) !! p = Some Dir.
Proof.
  intros Hnone Hcan. unfold after_makedirs, with_directory.
  rewrite Hnone, Hcan. cbn [w_fs with_fs]. apply lookup_insert_eq.
Qed.

(** Lines 144-152 on a token that is a string. *)
Lemma lease_written E p s w0 :
  try_except
    (open_for_writing E p ;;; file_write p s ;;; ret true)
    [OSError] (fun _ => ret false) w0
  = if e_denied E p then (Ok false, w0)
    else match w_fs w0 !! p with
         | Some Dir => (Ok false, w0)
         | Some (File _ m) => (Ok true, with_fs w0 (<[p := File s m]> (w_fs w0)))
         | None =>
             (Ok true, with_fs w0 (<[p := File s (e_new_mode E)]> (w_fs w0)))
         end.
Proof.
  unfold try_except, bind, open_for_writing, file_write.
  destruct (e_denied E p); [reflexivity|].
  destruct (w_fs w0 !! p) as [[data m|]|]; [| reflexivity |];
    cbn [w_fs with_fs]; rewrite lookup_insert_eq; cbn [ret];
    unfold with_fs; cbn [w_fs w_clock w_rand w_race w_posted w_gets];
    rewrite insert_insert_eq; reflexivity.
Qed.

Lemma write_token_semphore_file_run E login d token_dir s w :
  let p := path_join token_dir (token_file_name E login d) in
  let w0 := after_makedirs E token_dir w in
  write_token_semphore_file E login d token_dir (JStr s) w
  = if e_denied E p then (Ok None, w0)
    else match w_fs w0 !! p with
         | Some Dir => (Ok None, w0)
         | Some (File _ m) =>
             (Ok (Some p), with_fs w0 (<[p := File s m]> (w_fs w0)))
         | None =>
             (Ok (Some p),
              with_fs w0 (<[p := File s (e_new_mode E)]> (w_fs w0)))
         end.
Proof.
  intros p w0.
  assert (Hrest : forall w0,
    (written <-
       try_except
         (open_for_writing E p ;;; file_write p s ;;; ret true)
         [OSError] (fun _ => ret false) ;;
     if written then ret (Some p) else ret None) w0
    = if e_denied E p then (Ok None, w0)
      else match w_fs w0 !! p with
           | Some Dir => (Ok None, w0)
           | Some (File _ m) =>
               (Ok (Some p), with_fs w0 (<[p := File s m]> (w_fs w0)))
           | None =>
               (Ok (Some p),
                with_fs w0 (<[p := File s (e_new_mode E)]> (w_fs w0)))
           end).
  { intros w1. unfold bind at 1. rewrite lease_written.
    destruct (e_denied E p); [reflexivity|].
    destruct (w_fs w1 !! p) as [[data m|]|]; reflexivity. }
  unfold write_token_semphore_file. fold p.
  unfold bind at 1. unfold os_path_exists at 1.
  destruct (bool_decide (is_Some (w_fs w !! token_dir))) eqn:Hex.
  - apply bool_decide_eq_true in Hex.
    unfold w0. rewrite (after_makedirs_there E token_dir w Hex).
    unfold bind at 1. cbn [ret]. apply Hrest.
  - unfold bind at 1. rewrite token_directory_made. apply Hrest.
Qed.

(** Lines 118-152 on a token that is a string and a lease path that can be
    opened. *)
Lemma write_token_semphore_file_effect
    (E : Env) (login : string) (d : datetime) (token_dir token : string)
    (w : World) :
  let p := path_join token_dir (token_file_name E login d) in
  e_denied E p = false ->
  w_fs w !! p <> Some Dir ->
  exists w',
    write_token_semphore_file E login d token_dir (JStr token) w
    = (Ok (Some p), w') /\
    w_fs w' !! p
    = Some (File token match w_fs w !! p with
                       | Some (File _ m) => m
                       | _ => e_new_mode E
                       end) /\
    (forall q, q <> p -> q <> token_dir -> ~ In q (ancestors token_dir) ->
               w_fs w' !! q = w_fs w !! q) /\
    (forall q n, q <> p -> w_fs w !! q = Some n -> w_fs w' !! q = Some n) /\
    (is_Some (w_fs w !! token_dir) ->
     forall q, q <> p -> w_fs w' !! q = w_fs w !! q) /\
    (w_fs w !! token_dir = None -> e_denied E token_dir = false ->
     w_fs w' !! token_dir = Some Dir).
Proof.
  intros p Hd Hnd.
  pose proof (token_path_not_dir E login d token_dir) as Hp. fold p in Hp.
  pose proof (write_token_semphore_file_run E login d token_dir token w) as Hrun.
  cbv zeta in Hrun. fold p in Hrun. rewrite Hd in Hrun.
  pose proof (after_makedirs_lease E login d token_dir w) as Hsame.
  fold p in Hsame. rewrite Hsame in Hrun.
  set (w0 := after_makedirs E token_dir w) in *.
  destruct (w_fs w !! p) as [[data m|]|] eqn:Hfile; [|congruence|];
    (eexists; split; [exact Hrun|]); cbn [w_fs with_fs];
    (split; [apply lookup_insert_eq|]);
    (split; [intros q Hq1 Hq2 Hq3; rewrite lookup_insert_ne by congruence;
             apply after_makedirs_other; assumption|]);
    (split; [intros q n Hq1 Hq2; rewrite lookup_insert_ne by congruence;
             apply after_makedirs_kept; exact Hq2|]);
    (split; [intros Hex q Hq; rewrite lookup_insert_ne by congruence;
             unfold w0; rewrite (after_makedirs_there E token_dir w Hex);
             reflexivity|]);
    intros Hnone Hcan; rewrite lookup_insert_ne by congruence;
    apply after_makedirs_made; assumption.
Qed.

(** X5. [write_token_semphore_file] on a token that is a string: when the
    token directory is there or can be made, and the lease path can be
    opened for writing, the path is returned and the lease holds the token
    and nothing else, whatever it held before (a lease that existed keeps
    its permission bits).  The token directory is a directory afterwards.
    No other path changes but the directories that [os.makedirs] makes: the
    token directory and those above it, when the token directory was
    missing; what existed is kept, and nothing but the lease changes when
    the token directory existed. *)
Theorem write_token_semphore_file_stores_token
    (E : Env) (login : string) (d : datetime) (token_dir token : string)
    (w : World) :
  let p := path_join token_dir (token_file_name E login d) in
  directory_available E token_dir w ->
  e_denied E p = false ->
  w_fs w !! p <> Some Dir ->
  exists w',
    write_token_semphore_file E login d token_dir (JStr token) w
    = (Ok (Some p), w') /\
    w_fs w' !! p
    = Some (File token match w_fs w !! p with
                       | Some (File _ m) => m
                       | _ => e_new_mode E
                       end) /\
    w_fs w' !! token_dir = Some Dir /\
    (forall q, q <> p -> q <> token_dir -> ~ In q (ancestors token_dir) ->
               w_fs w' !! q = w_fs w !! q) /\
    (forall q n, q <> p -> w_fs w !! q = Some n -> w_fs w' !! q = Some n) /\
    (w_fs w !! token_dir = Some Dir ->
     forall q, q <> p -> w_fs w' !! q = w_fs w !! q).
Proof.
  intros p Hdir Hd Hnd.
  pose proof (token_path_not_dir E login d token_dir) as Hp. fold p in Hp.
  destruct (write_token_semphore_file_effect E login d token_dir token w Hd Hnd)
    as (w' & Hrun & Hfile & Hother & Hkept & Hthere & Hmade).
  fold p in Hrun, Hfile, Hother, Hkept, Hthere.
  exists w'. split; [exact Hrun|]. split; [exact Hfile|].
  split; [|split; [exact Hother|split; [exact Hkept|]]].
  - destruct Hdir as [Hdir|(Hnone & _ & Hcan & _)].
    + apply Hkept; [congruence|exact Hdir].
    + apply Hmade; assumption.
  - intros Hdir'. apply Hthere. rewrite Hdir'. eexists. reflexivity.
Qed.

(** A second token of alice issued at the same second replaces the first in
    the lease. *)
Lemma write_token_semphore_file_stores_token_witness :
  let E := sample_env sample_midnight (fun _ => 0%nat) nothing_denied
             (identity_grants "tok") sample_download_ok (zip_always ZipSound) in
  let w := world_with [("/tokens", Dir); (alice_lease, File "old-token" 384)] in
  exists w',
    write_token_semphore_file E "alice" sample_midnight "/tokens" (JStr "tok") w
    = (Ok (Some alice_lease), w') /\
    w_fs w' !! alice_lease = Some (File "tok" 384) /\
    w_fs w' !! "/tokens" = Some Dir.
Proof.
  intros E w.
  assert (Hp : path_join "/tokens" (token_file_name E "alice" sample_midnight)
               = alice_lease) by (vm_compute; reflexivity).
  destruct (write_token_semphore_file_stores_token E "alice" sample_midnight
              "/tokens" "tok" w) as (w' & Hrun & Hfile & Hdir & _).
  - left. vm_compute. reflexivity.
  - rewrite Hp. vm_compute. reflexivity.
  - rewrite Hp. vm_compute. discriminate.
  - rewrite Hp in Hrun, Hfile. exists w'. split; [exact Hrun|].
    split; [|exact Hdir]. rewrite Hfile. vm_compute. reflexivity.
Defined.

(** X6. When the lease path cannot be opened for writing (the operating
    system refuses, or the path is a directory), [write_token_semphore_file]
    returns [None] and leaves the lease path as it was: the [IOError] does
    not escape.  No path changes but the directories that [os.makedirs]
    makes when the token directory is missing (the token directory and
    those above it), and what existed is kept. *)
Theorem write_token_semphore_file_refused
    (E : Env) (login : string) (d : datetime) (token_dir token : string)
    (w : World) :
  let p := path_join token_dir (token_file_name E login d) in
  e_denied E p = true \/ w_fs w !! p = Some Dir ->
  exists w',
    write_token_semphore_file E login d token_dir (JStr token) w = (Ok None, w') /\
    w_fs w' !! p = w_fs w !! p /\
    (forall q, q <> token_dir -> ~ In q (ancestors token_dir) ->
               w_fs w' !! q = w_fs w !! q) /\
    (forall q n, w_fs w !! q = Some n -> w_fs w' !! q = Some n).
Proof.
  intros p Hwhy.
  pose proof (write_token_semphore_file_run E login d token_dir token w) as Hrun.
  cbv zeta in Hrun. fold p in Hrun.
  pose proof (after_makedirs_lease E login d token_dir w) as Hsame.
  fold p in Hsame.
  exists (after_makedirs E token_dir w).
  split; [|split; [exact Hsame|split]].
  - rewrite Hrun. destruct (e_denied E p) eqn:Hd; [reflexivity|].
    destruct Hwhy as [Hwhy|Hdir]; [discriminate|].
    rewrite Hsame, Hdir. reflexivity.
  - intros q Hq Hanc. apply after_makedirs_other; assumption.
  - intros q n Hq. apply after_makedirs_kept. exact Hq.
Qed.

(** The lease path of alice is refused: nothing is returned, nothing is
    written. *)
Lemma write_token_semphore_file_refused_witness :
  let E := sample_env sample_midnight (fun _ => 0%nat)
             (fun p => String.eqb p alice_lease)
             (identity_grants "tok") sample_download_ok (zip_always ZipSound) in
  let w := world_with [("/tokens", Dir)] in
  exists w',
    write_token_semphore_file E "alice" sample_midnight "/tokens" (JStr "tok") w
    = (Ok None, w') /\
    w_fs w' !! alice_lease = None.
Proof.
  intros E w.
  assert (Hp : path_join "/tokens" (token_file_name E "alice" sample_midnight)
               = alice_lease) by (vm_compute; reflexivity).
  destruct (write_token_semphore_file_refused E "alice" sample_midnight
              "/tokens" "tok" w) as (w' & Hrun & Hfile & _).
  - left. rewrite Hp. vm_compute. reflexivity.
  - exists w'. split; [exact Hrun|].
    rewrite Hp in Hfile. rewrite Hfile. vm_compute. reflexivity.
Defined.

(** ** Token acquisition: the answers of the identity endpoint *)

Lemma dict_get_existsb {V} (k : string) (d : list (string * V)) :
  existsb (fun kv => String.eqb k (fst kv)) d
  = match dict_get k d with Some _ => true | None => false end.
Proof.
  induction d as [|[k' v] d IH]; [reflexivity|].
  cbn [existsb dict_get fst]. destruct (String.eqb k k'); [reflexivity|exact IH].
Qed.

(** The selection of the credentials draws at most one random number and
    touches nothing else. *)
Lemma choose_credentials_world E conf g sa pw w :
  let w1 := snd (choose_credentials E conf g sa pw w) in
  w_fs w1 = w_fs w /\ w_clock w1 = w_clock w /\ w_posted w1 = w_posted w /\
  w_gets w1 = w_gets w.
Proof.
  intros w1.
  destruct (choose_credentials_outcome E conf g sa pw w) as (Hfs & Hposted & _).
  repeat split; [exact Hfs| |exact Hposted|].
  - exact (choose_credentials_same_clock E conf g sa pw w).
  - exact (choose_credentials_same_gets E conf g sa pw w).
Qed.

(** The world after the clock was read and the form posted. *)
Lemma fetch_token_data_answered E pl w r data :
  e_identity E (w_posted w ++ [pl])%list = PostReturns r ->
  is_error_status (post_status_code r) = false ->
  post_json r = JsonValue data ->
  fetch_token_data E pl w
  = (Ok (Some data), mkWorld (w_fs w) (w_clock w) (w_rand w) (w_race w)
                       (w_posted w ++ [pl])%list (w_gets w)).
Proof.
  intros Hr Hs Hj. unfold fetch_token_data, try_except, bind, requests_post.
  rewrite Hr, Hs. cbn. rewrite Hj. reflexivity.
Qed.

(** Lines 67-115 once the credentials are chosen and the endpoint has
    answered with a JSON value and a status that is not an error. *)
Lemma get_bearer_access_token_answered E conf sa pw g w login p w1 r data :
  choose_credentials E conf g sa pw w = (Ok (Some (login, p)), w1) ->
  let pl := Payload "cdse-public" login p "password" in
  e_identity E (w_posted w ++ [pl])%list = PostReturns r ->
  is_error_status (post_status_code r) = false ->
  post_json r = JsonValue data ->
  let d := e_today E (w_clock w) in
  exists w2,
    w_fs w2 = w_fs w /\ w_posted w2 = (w_posted w ++ [pl])%list /\
    w_gets w2 = w_gets w /\
    get_bearer_access_token E conf sa pw g w
    = (found <- json_contains "access_token" data ;;
       if negb found
       then ret (JNull, Some d, Some login, None)
       else
         token <- json_getitem "access_token" data ;;
         path_semphore_token <-
           write_token_semphore_file E login d (token_directory conf) token ;;
         ret (token, Some d, Some login, path_semphore_token)) w2.
Proof.
  intros Hcreds pl Hr Hs Hj d.
  pose proof (choose_credentials_world E conf g sa pw w) as Hw1.
  rewrite Hcreds in Hw1. cbn [snd] in Hw1.
  destruct Hw1 as (Hfs & Hclock & Hposted & Hgets).
  eexists. split; [|split; [|split]]; cycle 3.
  - unfold get_bearer_access_token.
    rewrite (bind_run _ _ _ _ _ Hcreds). cbv beta iota.
    unfold bind at 1. unfold datetime_today at 1.
    unfold bind at 1.
    rewrite (fetch_token_data_answered E pl _ r data);
      [| cbn [w_posted]; rewrite Hposted; exact Hr | exact Hs | exact Hj].
    rewrite Hclock. reflexivity.
  - exact Hfs.
  - cbn [w_posted]. rewrite Hposted. reflexivity.
  - exact Hgets.
Qed.

(** X7. When the identity endpoint answers the chosen credentials with a
    status that is not an error and a JSON object whose [access_token] is a
    string, and the lease path can be opened for writing,
    [get_bearer_access_token] returns the token, the date read before the
    request, the login and the path of the lease, and the lease holds the
    token; one form was posted. *)
Theorem get_bearer_access_token_grants
    (E : Env) (conf : Conf) (specific_account passwd : option string)
    (account_group : string) (w w1 : World) (login p : string)
    (r : post_response) (fields : list (string * json)) (token : string) :
  choose_credentials E conf account_group specific_account passwd w
  = (Ok (Some (login, p)), w1) ->
  let pl := Payload "cdse-public" login p "password" in
  e_identity E (w_posted w ++ [pl])%list = PostReturns r ->
  is_error_status (post_status_code r) = false ->
  post_json r = JsonValue (JObj fields) ->
  dict_get "access_token" fields = Some (JStr token) ->
  let d := e_today E (w_clock w) in
  let path := path_join (token_directory conf) (token_file_name E login d) in
  e_denied E path = false ->
  w_fs w !! path <> Some Dir ->
  exists w' mode,
    get_bearer_access_token E conf specific_account passwd account_group w
    = (Ok (JStr token, Some d, Some login, Some path), w') /\
    w_fs w' !! path = Some (File token mode) /\
    w_posted w' = (w_posted w ++ [pl])%list.
Proof.
  intros Hcreds pl Hr Hs Hj Htok d path Hd Hnd.
  destruct (get_bearer_access_token_answered E conf specific_account passwd
              account_group w login p w1 r (JObj fields) Hcreds Hr Hs Hj)
    as (w2 & Hfs & Hposted & _ & Hrun).
  rewrite Hrun. clear Hrun.
  unfold bind at 1. cbn [json_contains ret].
  rewrite dict_get_existsb, Htok. cbn [negb].
  unfold bind at 1. cbn [json_getitem]. unfold dict_getitem. rewrite Htok.
  cbn [ret].
  destruct (write_token_semphore_file_effect E login
              (e_today E (w_clock w)) (token_directory conf) token w2)
    as (w' & Hwrite & Hfile & _ & _).
  - exact Hd.
  - rewrite Hfs. exact Hnd.
  - fold d in Hwrite. fold path in Hwrite, Hfile.
    rewrite (bind_run _ _ _ _ _ Hwrite).
    eexists w', _. split; [reflexivity|]. split; [exact Hfile|].
    pose proof (write_token_semphore_file_same_posted E login d
                  (token_directory conf) (JStr token) w2) as Hk.
    rewrite Hwrite in Hk. unfold same_posted in Hk. cbn [snd] in Hk.
    rewrite Hk. exact Hposted.
Qed.

(** Alice asks for a token with her configured password; the endpoint
    grants "tok". *)
Lemma get_bearer_access_token_grants_witness :
  let E := sample_env sample_midnight (fun _ => 0%nat) nothing_denied
             (identity_grants "tok") sample_download_ok (zip_always ZipSound) in
  exists w' mode,
    get_bearer_access_token E sample_conf (Some "alice") None "logins" empty_world
    = (Ok (JStr "tok", Some sample_midnight, Some "alice", Some alice_lease), w') /\
    w_fs w' !! alice_lease = Some (File "tok" mode) /\
    w_posted w' = [Payload "cdse-public" "alice" "pw-alice" "password"].
Proof.
  intros E.
  assert (Hp : path_join (token_directory sample_conf)
                 (token_file_name E "alice" (e_today E (w_clock empty_world)))
               = alice_lease) by (vm_compute; reflexivity).
  destruct (get_bearer_access_token_grants E sample_conf (Some "alice") None
              "logins" empty_world empty_world "alice" "pw-alice"
              (PostResponse 200 "" (JsonValue (JObj [("access_token", JStr "tok")])))
              [("access_token", JStr "tok")] "tok")
    as (w' & mode & Hrun & Hfile & Hposted).
  - vm_compute. reflexivity.
  - reflexivity.
  - reflexivity.
  - reflexivity.
  - reflexivity.
  - rewrite Hp. vm_compute. reflexivity.
  - rewrite Hp. vm_compute. discriminate.
  - rewrite Hp in Hrun, Hfile. exists w', mode.
    split; [exact Hrun|]. split; [exact Hfile|exact Hposted].
Defined.

(** X8. When the identity endpoint answers the chosen credentials with a
    status that is not an error and a JSON object without [access_token],
    [get_bearer_access_token] returns no token and no lease path, but it
    does return the date read before the request and the login; nothing is
    written. *)
Theorem get_bearer_access_token_answer_without_token
    (E : Env) (conf : Conf) (specific_account passwd : option string)
    (account_group : string) (w w1 : World) (login p : string)
    (r : post_response) (fields : list (string * json)) :
  choose_credentials E conf account_group specific_account passwd w
  = (Ok (Some (login, p)), w1) ->
  let pl := Payload "cdse-public" login p "password" in
  e_identity E (w_posted w ++ [pl])%list = PostReturns r ->
  is_error_status (post_status_code r) = false ->
  post_json r = JsonValue (JObj fields) ->
  dict_get "access_token" fields = None ->
  exists w',
    get_bearer_access_token E conf specific_account passwd account_group w
    = (Ok (JNull, Some (e_today E (w_clock w)), Some login, None), w') /\
    w_fs w' = w_fs w /\
    w_posted w' = (w_posted w ++ [pl])%list.
Proof.
  intros Hcreds pl Hr Hs Hj Htok.
  destruct (get_bearer_access_token_answered E conf specific_account passwd
              account_group w login p w1 r (JObj fields) Hcreds Hr Hs Hj)
    as (w2 & Hfs & Hposted & _ & Hrun).
  rewrite Hrun. clear Hrun.
  unfold bind at 1. cbn [json_contains ret].
  rewrite dict_get_existsb, Htok. cbn [negb ret].
  exists w2. auto.
Qed.

(** The endpoint answers alice with an error description in a JSON object
    and the status 200. *)
Lemma get_bearer_access_token_answer_without_token_witness :
  let answer := PostResponse 200 "" (JsonValue (JObj [("error", JStr "invalid_grant")])) in
  let E := sample_env sample_midnight (fun _ => 0%nat) nothing_denied
             (fun _ => PostReturns answer) sample_download_ok
             (zip_always ZipSound) in
  exists w',
    get_bearer_access_token E sample_conf (Some "alice") None "logins" empty_world
    = (Ok (JNull, Some sample_midnight, Some "alice", None), w') /\
    w_fs w' = w_fs empty_world.
Proof.
  intros answer E.
  destruct (get_bearer_access_token_answer_without_token E sample_conf
              (Some "alice") None "logins" empty_world empty_world "alice"
              "pw-alice" answer [("error", JStr "invalid_grant")])
    as (w' & Hrun & Hfs & _).
  - vm_compute. reflexivity.
  - reflexivity.
  - reflexivity.
  - reflexivity.
  - reflexivity.
  - exists w'. split; [exact Hrun|exact Hfs].
Defined.

(** X9. A token that is not a string is not handled: when the answer is a
    JSON object whose [access_token] is not a string (a number, [null], an
    object) and the lease path can be opened, the [TypeError] of
    [fid.write] escapes from [get_bearer_access_token], and the lease file
    is left behind, empty. *)
Theorem get_bearer_access_token_token_not_a_string
    (E : Env) (conf : Conf) (specific_account passwd : option string)
    (account_group : string) (w w1 : World) (login p : string)
    (r : post_response) (fields : list (string * json)) (token : json) :
  choose_credentials E conf account_group specific_account passwd w
  = (Ok (Some (login, p)), w1) ->
  let pl := Payload "cdse-public" login p "password" in
  e_identity E (w_posted w ++ [pl])%list = PostReturns r ->
  is_error_status (post_status_code r) = false ->
  post_json r = JsonValue (JObj fields) ->
  dict_get "access_token" fields = Some token ->
  (forall s, token <> JStr s) ->
  let path := path_join (token_directory conf)
                (token_file_name E login (e_today E (w_clock w))) in
  e_denied E path = false ->
  w_fs w !! path <> Some Dir ->
  exists e w' mode,
    get_bearer_access_token E conf specific_account passwd account_group w
    = (Raise e, w') /\
    exn_cls e = TypeError /\
    w_fs w' !! path = Some (File "" mode).
Proof.
  intros Hcreds pl Hr Hs Hj Htok Hnot path Hd Hnd.
  destruct (get_bearer_access_token_answered E conf specific_account passwd
              account_group w login p w1 r (JObj fields) Hcreds Hr Hs Hj)
    as (w2 & Hfs & Hposted & _ & Hrun).
  rewrite Hrun. clear Hrun.
  unfold bind at 1. cbn [json_contains ret].
  rewrite dict_get_existsb, Htok. cbn [negb].
  unfold bind at 1. cbn [json_getitem]. unfold dict_getitem. rewrite Htok.
  cbn [ret].
  pose proof (token_path_not_dir E login (e_today E (w_clock w))
                (token_directory conf)) as Hp. fold path in Hp.
  unfold bind at 1. unfold write_token_semphore_file. fold path.
  assert (Hrest : forall w0,
    w_fs w0 !! path = w_fs w !! path ->
    exists e w' mode,
      bind (try_except
              (open_for_writing E path ;;;
               match token with
               | JStr s => file_write path s
               | _ => raise TypeError "write() argument must be str"
               end ;;;
               ret true)
              [OSError] (fun _ => ret false))
        (fun written => if written then ret (Some path) else ret None) w0
      = (Raise e, w') /\
      exn_cls e = TypeError /\ w_fs w' !! path = Some (File "" mode)).
  { intros w0 Hsame. unfold bind, try_except, open_for_writing. rewrite Hd, Hsame.
    destruct (w_fs w !! path) as [[data m|]|]; [|congruence|];
      destruct token; try (exfalso; eapply Hnot; reflexivity);
      cbn; eexists _, _, _; (split; [reflexivity|]);
      (split; [reflexivity|]); apply lookup_insert_eq. }
  assert (Hgoal : forall w0,
    w_fs w0 !! path = w_fs w !! path ->
    forall k : World -> res (option string) * World,
      k = bind (try_except
              (open_for_writing E path ;;;
               match token with
               | JStr s => file_write path s
               | _ => raise TypeError "write() argument must be str"
               end ;;;
               ret true)
              [OSError] (fun _ => ret false))
        (fun written => if written then ret (Some path) else ret None) ->
    exists e w' mode,
      match k w0 with
      | (Ok a, w') =>
          ret (token, Some (e_today E (w_clock w)), Some login, a) w'
      | (Raise e, w') => (Raise e, w')
      end = (Raise e, w') /\
      exn_cls e = TypeError /\ w_fs w' !! path = Some (File "" mode)).
  { intros w0 Hsame k ->.
    destruct (Hrest w0 Hsame) as (e & w' & mode & Hrun & Hcls & Hfile).
    rewrite Hrun. exists e, w', mode. auto. }
  unfold bind at 1. unfold os_path_exists at 1.
  destruct (bool_decide (is_Some (w_fs w2 !! token_directory conf))).
  - unfold bind at 1. cbn [ret].
    apply (Hgoal w2); [rewrite Hfs; reflexivity|reflexivity].
  - unfold bind at 1. rewrite token_directory_made.
    apply (Hgoal (after_makedirs E (token_directory conf) w2)); [|reflexivity].
    unfold path. rewrite after_makedirs_lease, Hfs. reflexivity.
Qed.

(** The endpoint answers alice with [{"access_token": null}]. *)
Lemma get_bearer_access_token_token_not_a_string_witness :
  let answer := PostResponse 200 "" (JsonValue (JObj [("access_token", JNull)])) in
  let E := sample_env sample_midnight (fun _ => 0%nat) nothing_denied
             (fun _ => PostReturns answer) sample_download_ok
             (zip_always ZipSound) in
  exists e w' mode,
    get_bearer_access_token E sample_conf (Some "alice") None "logins" empty_world
    = (Raise e, w') /\
    exn_cls e = TypeError /\
    w_fs w' !! alice_lease = Some (File "" mode).
Proof.
  intros answer E.
  assert (Hp : path_join (token_directory sample_conf)
                 (token_file_name E "alice" (e_today E (w_clock empty_world)))
               = alice_lease) by (vm_compute; reflexivity).
  destruct (get_bearer_access_token_token_not_a_string E sample_conf
              (Some "alice") None "logins" empty_world empty_world "alice"
              "pw-alice" answer [("access_token", JNull)] JNull)
    as (e & w' & mode & Hrun & Hcls & Hfile).
  - vm_compute. reflexivity.
  - reflexivity.
  - reflexivity.
  - reflexivity.
  - reflexivity.
  - discriminate.
  - rewrite Hp. vm_compute. reflexivity.
  - rewrite Hp. vm_compute. discriminate.
  - rewrite Hp in Hfile. exists e, w', mode. auto.
Defined.

(** X10. Without credentials to submit, [get_bearer_access_token] returns
    four [None] at once: for an account group without account when no
    account is given, and for a given account that the group does not have
    when no password is given.  Nothing is drawn, read, posted or written. *)
Theorem get_bearer_access_token_without_credentials
    (E : Env) (conf : Conf) (specific_account passwd : option string)
    (account_group : string) (w : World) :
  (specific_account = None /\
   dict_get account_group (groups conf) = Some []) \/
  (exists login group,
     specific_account = Some login /\ passwd = None /\
     dict_get account_group (groups conf) = Some group /\
     dict_get login group = None) ->
  get_bearer_access_token E conf specific_account passwd account_group w
  = (Ok no_token, w).
Proof.
  intros [(-> & Hg)|(login & group & -> & -> & Hg & Hl)];
    unfold get_bearer_access_token, choose_credentials, bind, dict_getitem;
    rewrite Hg; cbn; [reflexivity|].
  rewrite Hl. reflexivity.
Qed.

(** Carol has no password in the sample configuration. *)
Lemma get_bearer_access_token_without_credentials_witness :
  let E := sample_env sample_midnight (fun _ => 0%nat) nothing_denied
             (identity_grants "tok") sample_download_ok (zip_always ZipSound) in
  get_bearer_access_token E sample_conf (Some "carol") None "logins" empty_world
  = (Ok no_token, empty_world).
Proof.
  intros E.
  apply (get_bearer_access_token_without_credentials E sample_conf
           (Some "carol") None "logins" empty_world).
  right. exists "carol", [("alice", "pw-alice"); ("bob", "pw-bob")].
  repeat split; reflexivity.
Defined.

(** ** The presence check of the output directory: the other cases *)

Lemma check_safe_in_outputdir_run E outputdir safename w :
  check_safe_in_outputdir E outputdir safename w
  = match find (fun p => bool_decide (is_Some (w_fs w !! p)))
            (outputdir_candidates outputdir safename) with
    | None => (Ok false, w)
    | Some f =>
        if String.eqb f "" then (Ok false, w)
        else if endswith ".zip" f then
          try_except (test_zip E f ;;; ret true) [BadZipFile; OSError]
            (fun _ =>
               try_except (os_remove E f) [OSError] (fun _ => ret tt) ;;;
               ret false) w
        else (Ok true, w)
    end.
Proof.
  unfold check_safe_in_outputdir, bind. rewrite first_existing_find.
  destruct (find _ _) as [f|]; [|reflexivity].
  destruct (String.eqb f ""); [reflexivity|].
  destruct (endswith ".zip" f); reflexivity.
Qed.

Lemma test_zip_same_world E f w : snd (test_zip E f w) = w.
Proof.
  unfold test_zip. destruct (w_fs w !! f) as [[data m|]|]; try reflexivity.
  destruct (e_zip E data); reflexivity.
Qed.

(** X11. The only change [check_safe_in_outputdir] ever makes is the
    removal of the first existing candidate, when its name ends with .zip,
    and it then returns [False]; in every other case, also when an
    exception escapes, it leaves everything as it was.  It never creates or
    rewrites a file and never touches a candidate after the first existing
    one. *)
Theorem check_safe_in_outputdir_only_removes_tested_archive
    (E : Env) (outputdir safename : string) (w : World) :
  let out := check_safe_in_outputdir E outputdir safename w in
  snd out = w \/
  (exists f,
     fst (first_existing (outputdir_candidates outputdir safename) w)
     = Ok (Some f) /\
     endswith ".zip" f = true /\
     fst out = Ok false /\
     snd out = without E f w).
Proof.
  intros out. subst out. rewrite check_safe_in_outputdir_run.
  rewrite first_existing_find. cbn [fst].
  destruct (find _ _) as [f|]; [|left; reflexivity].
  destruct (String.eqb f ""); [left; reflexivity|].
  destruct (endswith ".zip" f) eqn:Hzip; [|left; reflexivity].
  pose proof (remove_quietly_run E f) as Hremove.
  set (quietly := try_except (os_remove E f) [OSError] (fun _ => ret tt)) in *.
  unfold try_except, bind.
  pose proof (test_zip_same_world E f w) as Hsame.
  destruct (test_zip E f w) as [[[]|e] w1]; cbn [snd] in Hsame; subst w1.
  - left. reflexivity.
  - destruct (existsb (isinstance e) [BadZipFile; OSError]); [|left; reflexivity].
    right. exists f. rewrite Hremove. auto.
Qed.

(** X12. When no candidate whose name ends with .zip exists (and the empty
    path does not exist), [check_safe_in_outputdir] tests nothing and
    changes nothing: it returns whether one of the candidates exists. *)
Theorem check_safe_in_outputdir_without_archive
    (E : Env) (outputdir safename : string) (w : World) :
  w_fs w !! "" = None ->
  (forall f, In f (outputdir_candidates outputdir safename) ->
             endswith ".zip" f = true -> w_fs w !! f = None) ->
  check_safe_in_outputdir E outputdir safename w
  = (Ok (existsb (fun p => bool_decide (is_Some (w_fs w !! p)))
           (outputdir_candidates outputdir safename)), w).
Proof.
  intros Hempty Hnozip. rewrite check_safe_in_outputdir_run.
  destruct (find _ _) as [f|] eqn:Hfind.
  - apply find_some in Hfind as [Hin Hex].
    assert (Hany : existsb (fun p => bool_decide (is_Some (w_fs w !! p)))
                     (outputdir_candidates outputdir safename) = true).
    { apply existsb_exists. exists f. split; assumption. }
    rewrite Hany. apply bool_decide_eq_true in Hex.
    destruct (String.eqb f "") eqn:Hf.
    + apply String.eqb_eq in Hf. subst f. rewrite Hempty in Hex.
      destruct Hex as [n Hn]. discriminate.
    + destruct (endswith ".zip" f) eqn:Hzip; [|reflexivity].
      rewrite (Hnozip f Hin Hzip) in Hex. destruct Hex as [n Hn]. discriminate.
  - assert (Hany : existsb (fun p => bool_decide (is_Some (w_fs w !! p)))
                     (outputdir_candidates outputdir safename) = false).
    { destruct (existsb _ _) eqn:Hex; [|reflexivity].
      apply existsb_exists in Hex as (f & Hin & Hf).
      rewrite (find_none _ _ Hfind f Hin) in Hf. discriminate. }
    rewrite Hany. reflexivity.
Qed.

(** The unpacked product is in the output directory: it is reported present
    without any test. *)
Lemma check_safe_in_outputdir_without_archive_witness :
  let E := sample_env sample_midnight (fun _ => 0%nat) nothing_denied
             (identity_grants "tok") sample_download_ok
             (zip_always ZipBadZipFile) in
  let w := world_with [("/out/S1A_IW_GRDH.SAFE", Dir)] in
  check_safe_in_outputdir E "/out" "S1A_IW_GRDH.SAFE" w = (Ok true, w).
Proof.
  intros E w.
  rewrite (check_safe_in_outputdir_without_archive E "/out" "S1A_IW_GRDH.SAFE" w).
  - vm_compute. reflexivity.
  - vm_compute. reflexivity.
  - intros f Hin Hzip. cbn [outputdir_candidates In] in Hin.
    destruct Hin as [<-|[<-|[<-|[]]]]; try (vm_compute; reflexivity).
    vm_compute in Hzip. discriminate Hzip.
Defined.

(** X13. An exception of the integrity test that is neither [BadZipFile]
    nor [OSError] escapes from [check_safe_in_outputdir], and the archive
    is kept. *)
Theorem check_safe_in_outputdir_unexpected_error
    (E : Env) (outputdir safename f data : string) (mode : Z) (e : exn)
    (w : World) :
  fst (first_existing (outputdir_candidates outputdir safename) w) = Ok (Some f) ->
  endswith ".zip" f = true ->
  w_fs w !! f = Some (File data mode) ->
  e_zip E data = ZipOtherError e ->
  isinstance e BadZipFile = false ->
  isinstance e OSError = false ->
  check_safe_in_outputdir E outputdir safename w = (Raise e, w).
Proof.
  intros Hfirst Hzip Hfile Hother Hbad Hos.
  rewrite first_existing_find in Hfirst. cbn [fst] in Hfirst.
  rewrite check_safe_in_outputdir_run.
  destruct (find _ _) as [f'|]; [|discriminate].
  assert (f' = f) by congruence. subst f'.
  rewrite (endswith_zip_not_empty f Hzip), Hzip.
  unfold try_except, bind, test_zip. rewrite Hfile, Hother.
  cbn [existsb]. rewrite Hbad, Hos. reflexivity.
Qed.

(** An archive with a compression method that the library does not
    support. *)
Lemma check_safe_in_outputdir_unexpected_error_witness :
  let e := Exn OtherException "compression method is not supported" in
  let E := sample_env sample_midnight (fun _ => 0%nat) nothing_denied
             (identity_grants "tok") sample_download_ok
             (zip_always (ZipOtherError e)) in
  let w := world_with [(sample_outdir_zip, File "PK..." 509)] in
  check_safe_in_outputdir E "/out" "S1A_IW_GRDH.SAFE" w = (Raise e, w).
Proof.
  intros e E w.
  apply (check_safe_in_outputdir_unexpected_error E "/out" "S1A_IW_GRDH.SAFE"
           sample_outdir_zip "PK..." 509 e w);
    vm_compute; reflexivity.
Defined.

(** ** The products to download *)

Lemma check_safe_in_outputdir_cases E outputdir safename w :
  (exists b w', check_safe_in_outputdir E outputdir safename w = (Ok b, w')) \/
  (exists e data,
     check_safe_in_outputdir E outputdir safename w = (Raise e, w) /\
     e_zip E data = ZipOtherError e).
Proof.
  rewrite check_safe_in_outputdir_run.
  destruct (find _ _) as [f|]; [|left; eauto].
  destruct (String.eqb f ""); [left; eauto|].
  destruct (endswith ".zip" f); [|left; eauto].
  pose proof (remove_quietly_run E f) as Hremove.
  set (quietly := try_except (os_remove E f) [OSError] (fun _ => ret tt)) in *.
  unfold try_except, bind, test_zip.
  destruct (w_fs w !! f) as [[data m|]|];
    [|cbn; rewrite Hremove; left; eauto..].
  destruct (e_zip E data) eqn:Hzip;
    try (cbn; rewrite ?Hremove; left; eauto; fail).
  destruct (existsb (isinstance e) [BadZipFile; OSError]).
  - rewrite Hremove. left. eauto.
  - right. eauto.
Qed.

(** A loop that appends to [todo] the rows of the products it keeps. *)
Lemma keeps_rows_in_order E conf outputdir (force_download : bool)
    (body : row -> list row -> M (list row)) :
  (forall r todo w,
     (exists (b : bool) w',
        body r todo w
        = (Ok (if b then (todo ++ [todo_row conf outputdir r])%list else todo), w') /\
        (force_download = true -> b = true)) \/
     (exists e w' data,
        body r todo w = (Raise e, w') /\ e_zip E data = ZipOtherError e)) ->
  forall df todo w,
    (exists kept w',
       for_each df body todo w
       = (Ok (todo ++ map (todo_row conf outputdir) kept)%list, w') /\
       sublist kept df /\
       (force_download = true -> kept = df)) \/
    (exists e w' data,
       for_each df body todo w = (Raise e, w') /\
       e_zip E data = ZipOtherError e).
Proof.
  intros Hbody. induction df as [|r df IH]; intros todo w.
  - left. exists [], w. cbn [for_each map]. rewrite app_nil_r.
    split; [reflexivity|]. split; [constructor|reflexivity].
  - cbn [for_each].
    destruct (Hbody r todo w)
      as [(b & w1 & Hrun & Hforce)|(e & w1 & data & Hrun & Hzip)].
    + rewrite (bind_run _ _ _ _ _ Hrun). destruct b.
      * destruct (IH (todo ++ [todo_row conf outputdir r])%list w1)
          as [(kept & w' & Hrest & Hsub & Hall)|(e & w' & data & Hrest & Hzip)].
        -- left. exists (r :: kept), w'.
           rewrite Hrest. cbn [map]. rewrite <- app_assoc. cbn [app].
           split; [reflexivity|]. split; [constructor; exact Hsub|].
           intros Hf. rewrite (Hall Hf). reflexivity.
        -- right. exists e, w', data. auto.
      * destruct (IH todo w1)
          as [(kept & w' & Hrest & Hsub & Hall)|(e & w' & data & Hrest & Hzip)].
        -- left. exists kept, w'.
           split; [exact Hrest|]. split; [constructor; exact Hsub|].
           intros Hf. specialize (Hforce Hf). discriminate.
        -- right. exists e, w', data. auto.
    + right. exists e, w1, data. unfold bind. rewrite Hrun. auto.
Qed.

(** Lines 164-175: whether a product is to be downloaded. *)
Lemma to_download_cases {A} E conf outputdir (force_download : bool) safename
    (k : bool -> M A) w :
  let body :=
    archived <- check_safe_in_archive E conf safename ;;
    to_download <-
      (if archived then ret force_download
       else
         spooled <- check_safe_in_spool conf safename ;;
         if spooled then ret force_download
         else
           in_outdir <- check_safe_in_outputdir E outputdir safename ;;
           if in_outdir then ret force_download else ret true) ;;
    k to_download in
  (exists (b : bool) w',
     body w = k b w' /\ (force_download = true -> b = true)) \/
  (exists e data, body w = (Raise e, w) /\ e_zip E data = ZipOtherError e).
Proof.
  intros body.
  assert (Harch : check_safe_in_archive E conf safename w
                  = (Ok (e_in_archive E safename (w_fs w)), w)) by reflexivity.
  destruct (check_safe_in_spool_run conf safename w) as [spooled Hspool].
  destruct (e_in_archive E safename (w_fs w)).
  { left. exists force_download, w. split; [|auto].
    unfold body. rewrite (bind_run _ _ _ _ _ Harch). reflexivity. }
  destruct spooled.
  { left. exists force_download, w. split; [|auto].
    unfold body. rewrite (bind_run _ _ _ _ _ Harch).
    unfold bind. rewrite Hspool. reflexivity. }
  destruct (check_safe_in_outputdir_cases E outputdir safename w)
    as [(b & w' & Hrun)|(e & data & Hrun & Hzip)].
  - left. exists (if b then force_download else true), w'. split.
    + unfold body. rewrite (bind_run _ _ _ _ _ Harch).
      unfold bind. rewrite Hspool, Hrun. destruct b; reflexivity.
    + destruct b; auto.
  - right. exists e, data. split; [|exact Hzip].
    unfold body. rewrite (bind_run _ _ _ _ _ Harch).
    unfold bind. rewrite Hspool, Hrun. reflexivity.
Qed.

(** Lines 176-190 for a template of the URL that holds [%s] once and no
    other [%]. *)
Lemma row_added E conf outputdir r todo (to_download : bool) w :
  simple_template (URL_download conf) = true ->
  (if to_download then
     url_product <- format_with E (URL_download conf) (df_id r) ;;
     ret (todo ++
          [Row (df_safe r) (df_status r) (df_id r) url_product
             (path_join outputdir (df_safe r +:+ ".zip"))])%list
   else ret todo) w
  = (Ok (if to_download then (todo ++ [todo_row conf outputdir r])%list else todo), w).
Proof.
  intros Hsimple. destruct to_download; [|reflexivity].
  rewrite (bind_run _ _ _ _ _ (format_with_simple E _ (df_id r) w Hsimple)).
  reflexivity.
Qed.

(** X14. For a template of the URL that holds [%s] once and no other [%],
    [filter_product_already_present] returns rows of the frame it was
    given, in the order of the frame, each with the URL made from its
    identifier and the output path made from its name; with
    [force_download] it returns all of them.  The only exception that
    escapes is one of the integrity test that is neither [BadZipFile] nor
    [OSError]. *)
Theorem filter_product_already_present_rows
    (E : Env) (conf : Conf) (df : list row) (outputdir : string)
    (force_download : bool) (w : World) :
  simple_template (URL_download conf) = true ->
  let out := filter_product_already_present E conf df outputdir force_download w in
  (exists kept,
     fst out = Ok (map (todo_row conf outputdir) kept) /\
     sublist kept df /\
     (force_download = true -> kept = df)) \/
  (exists e data, fst out = Raise e /\ e_zip E data = ZipOtherError e).
Proof.
  intros Hsimple out. subst out. unfold filter_product_already_present.
  match goal with
  | |- context [for_each df ?body [] w] =>
      destruct (keeps_rows_in_order E conf outputdir force_download body)
        with (df := df) (todo := @nil row) (w := w)
        as [(kept & w' & Hrun & Hsub & Hall)|(e & w' & data & Hrun & Hzip)]
  end.
  - intros r todo w0. cbv beta zeta.
    match goal with
    | |- context [bind (check_safe_in_archive _ _ _) (fun archived => bind _ ?k)] =>
        destruct (to_download_cases E conf outputdir force_download (df_safe r)
                    k w0)
          as [(b & w' & Hrun & Hforce)|(e & data & Hrun & Hzip)];
          cbv zeta in Hrun
    end.
    + left. exists b, w'. rewrite Hrun.
      split; [apply row_added; exact Hsimple|exact Hforce].
    + right. exists e, w0, data. rewrite Hrun. auto.
  - left. exists kept. rewrite Hrun. auto.
  - right. exists e, data. rewrite Hrun. auto.
Qed.

(** Two products, the second of which lies in the spool: the first one is
    to be downloaded, from the URL of its identifier. *)
Lemma filter_product_already_present_rows_witness :
  let E := sample_env sample_midnight (fun _ => 0%nat) nothing_denied
             (identity_grants "tok") sample_download_ok (zip_always ZipSound) in
  let df := [Row "P1" 0 "id1" "" ""; Row "P2" 0 "id2" "" ""] in
  let w := world_with [("/spool", Dir); ("/spool/P2", Dir); ("/out", Dir)] in
  simple_template (URL_download sample_conf) = true /\
  fst (filter_product_already_present E sample_conf df "/out" false w)
  = Ok [Row "P1" 0 "id1" "https://download.example/Products(id1)/$value"
          "/out/P1.zip"] /\
  ((exists kept,
      fst (filter_product_already_present E sample_conf df "/out" false w)
      = Ok (map (todo_row sample_conf "/out") kept) /\
      sublist kept df /\
      (false = true -> kept = df)) \/
   (exists e data,
      fst (filter_product_already_present E sample_conf df "/out" false w)
      = Raise e /\ e_zip E data = ZipOtherError e)).
Proof.
  intros E df w. split; [reflexivity|]. split; [vm_compute; reflexivity|].
  apply (filter_product_already_present_rows E sample_conf df "/out" false w).
  reflexivity.
Defined.

(** ** The harvest of a round: exceptions *)

Lemma set_status_product name v df :
  map row_product (set_status name v df) = map row_product df.
Proof.
  unfold set_status. rewrite map_map. apply map_ext. intros r.
  destruct (String.eqb (df_safe r) name); reflexivity.
Qed.

(** Lines 331-350: the handler of the harvest loop never raises. *)
Lemma harvest_handler_run E g (h : harvest) w :
  (present <- os_path_exists (slot_session_semaphore g) ;;
   (if present
    then try_except (os_remove E (slot_session_semaphore g)) [OSError]
           (fun _ => ret tt)
    else ret tt) ;;;
   ret h) w
  = (Ok h, without E (slot_session_semaphore g) w).
Proof.
  unfold bind at 1. unfold os_path_exists at 1.
  destruct (bool_decide (is_Some (w_fs w !! slot_session_semaphore g))) eqn:Hp.
  - rewrite (bind_run _ _ _ _ _ (remove_quietly_run E _ w)). reflexivity.
  - apply bool_decide_eq_false in Hp. unfold bind, ret, without, removable.
    destruct (w_fs w !! slot_session_semaphore g) as [n|];
      [exfalso; apply Hp; eauto|reflexivity].
Qed.

Lemma harvest_future_total E session conf batch jj h :
  total (harvest_future E session conf batch jj h).
Proof.
  intros w. destruct h as [[df speeds] errors]. unfold harvest_future.
  destruct (nth_error batch jj) as [g|]; [|eexists _, _; reflexivity].
  unfold try_except_Exception.
  match goal with
  | |- context [match ?m w with _ => _ end] => destruct (m w) as [[a|e] w1]
  end.
  - eexists _, _. reflexivity.
  - rewrite harvest_handler_run. eexists _, _. reflexivity.
Qed.

Lemma harvest_future_products E session conf batch jj products :
  forall h,
    map row_product (fst (fst h)) = products ->
    returns (fun h' => map row_product (fst (fst h')) = products)
      (harvest_future E session conf batch jj h).
Proof.
  intros [[df speeds] errors] Hproducts. cbn [fst] in *.
  unfold harvest_future.
  destruct (nth_error batch jj) as [g|]; [|apply returns_ret; cbn; auto].
  apply returns_try_except_Exception.
  - apply returns_bind. intros [[[speed status_meaning] safename_base] token_file].
    apply returns_bind. intros login.
    apply returns_bind. intros stamp.
    apply returns_bind. intros date.
    apply returns_bind. intros _.
    apply returns_bind. intros _.
    destruct (String.eqb status_meaning "OK"); apply returns_ret; cbn [fst];
      rewrite set_status_product; exact Hproducts.
  - intros e. apply returns_bind. intros present.
    apply returns_bind. intros _.
    apply returns_ret. cbn [fst]. rewrite set_status_product. exact Hproducts.
Qed.

Lemma as_completed_from_total E n :
  forall waiting, total (as_completed_from E n waiting).
Proof.
  induction n as [|n IH]; intros waiting w; [eexists _, _; reflexivity|].
  cbn [as_completed_from].
  destruct (take_out _ waiting) as [[jj rest]|]; [|eexists _, _; reflexivity].
  unfold bind.
  match goal with
  | |- context [as_completed_from E n rest ?w1] =>
      destruct (IH rest w1) as (l & w' & Hrun); rewrite Hrun
  end.
  eexists _, _. reflexivity.
Qed.

Lemma for_each_total_with {A S} (I : S -> Prop) (body : A -> S -> M S) :
  (forall x s, total (body x s)) ->
  (forall x s, I s -> returns I (body x s)) ->
  forall l s w, I s ->
    exists s' w', for_each l body s w = (Ok s', w') /\ I s'.
Proof.
  intros Htotal Hinv. induction l as [|x l IH]; intros s w Hs.
  - exists s, w. split; [reflexivity|exact Hs].
  - cbn [for_each]. destruct (Htotal x s w) as (s1 & w1 & Hrun).
    rewrite (bind_run _ _ _ _ _ Hrun).
    apply IH. exact (Hinv x s Hs w s1 w1 Hrun).
Qed.

(** X15. The harvest of a round never raises, whatever the workers, the
    release of the token lease and the session module do: an exception
    raised for one future is handled for that future and the loop goes on.
    It changes nothing in the frame but statuses: the products, their
    identifiers, URLs and output paths are those it received, in the same
    order. *)
Theorem harvest_round_never_raises
    (E : Env) (session : SessionModule) (conf : Conf) (batch : list slot)
    (st : sched) (w : World) :
  exists df speeds errors_per_account w',
    harvest_round E session conf batch st w
    = (Ok (df, speeds, errors_per_account), w') /\
    map row_product df = map row_product (df2 st).
Proof.
  unfold harvest_round.
  destruct (as_completed_from_total E (length batch) (seq 0 (length batch)) w)
    as (order & w1 & Horder).
  unfold as_completed. rewrite (bind_run _ _ _ _ _ Horder).
  destruct (for_each_total_with
              (fun h : harvest => map row_product (fst (fst h))
                                  = map row_product (df2 st))
              (harvest_future E session conf batch)
              (harvest_future_total E session conf batch)
              (fun jj h Hh => harvest_future_products E session conf batch jj
                                _ h Hh)
              order (df2 st, all_speeds st, []) w1 eq_refl)
    as ([[df speeds] errors] & w' & Hrun & Hinv).
  exists df, speeds, errors, w'. split; [exact Hrun|exact Hinv].
Qed.

(** Lines 42-150: what the executor returns carries the token semaphore it
    was given. *)
Lemma executor_hands_back {T} E conf headers url out (sem : T) w
    speed meaning base sem' w' :
  CDS_Odata_download_one_product_v2 E conf headers url out sem w
  = (Ok (speed, meaning, base, sem'), w') ->
  sem' = sem.
Proof.
  intros Hrun.
  destruct (executor_outcomes E conf headers url out sem w)
    as [(speed0 & meaning0 & w0 & Hok)|(_ & _ & e & _ & Hraise)];
    rewrite Hrun in *; [|discriminate].
  inversion Hok. reflexivity.
Qed.

(** X16. The harvest reads the login and the date of a token lease from
    the fourth and fifth parts of its file name between underscores.  When
    the name has no such parts, or the fifth part without ".txt" does not
    read as a date (for instance for a login with an underscore), the
    product of the future is recorded in error whatever the outcome of its
    download, no error is counted for the account and no speed is
    recorded. *)
Theorem harvest_future_token_name_not_parsed
    (E : Env) (session : SessionModule) (conf : Conf) (batch : list slot)
    (jj : nat) (g : slot) (df : list row) (speeds : list speed_t)
    (errors_per_account : list (string * nat)) (w : World) :
  nth_error batch jj = Some g ->
  let parts := split_on "_" (basename (slot_token_semaphore g)) in
  (nth_error parts 3 = None \/
   nth_error parts 4 = None \/
   exists stamp, nth_error parts 4 = Some stamp /\
                 e_strptime E (replace ".txt" "" stamp) = None) ->
  fst (harvest_future E session conf batch jj (df, speeds, errors_per_account) w)
  = Ok (set_status (slot_safe g) (-1) df, speeds, errors_per_account).
Proof.
  intros Hg parts Hname. unfold harvest_future. rewrite Hg.
  unfold try_except_Exception.
  match goal with
  | |- context [match ?m w with _ => _ end] =>
      assert (Hraises : exists e w1, m w = (Raise e, w1))
  end.
  { unfold bind at 1.
    destruct (CDS_Odata_download_one_product_v2 E conf (slot_header g)
                (slot_url g) (slot_output_path g) (slot_token_semaphore g) w)
      as [[[[[speed meaning] base] sem]|e] w1] eqn:Hrun; [|eauto].
    apply executor_hands_back in Hrun. subst sem. fold parts.
    unfold bind at 1. unfold list_getitem at 1.
    destruct (nth_error parts 3) as [login|] eqn:H3; [|cbn; eauto].
    cbn [ret]. unfold bind at 1. unfold list_getitem at 1.
    destruct (nth_error parts 4) as [stamp|] eqn:H4; [|cbn; eauto].
    cbn [ret]. unfold bind at 1.
    destruct Hname as [Hname|[Hname|(stamp' & Hs & Hparse)]]; try discriminate.
    inversion Hs; subst stamp'. rewrite Hparse. cbn. eauto. }
  destruct Hraises as (e & w1 & ->).
  rewrite harvest_handler_run. reflexivity.
Qed.

(** The lease of the login "a_b": its name has the login's second half
    where the date is expected; the download itself succeeds. *)
Lemma harvest_future_token_name_not_parsed_witness :
  let r := GetResponse 200 "OK" false (CLInt 4) ["PK"; "34"] StreamDone in
  let E := sample_env sample_midnight (fun _ => 0%nat) nothing_denied
             (identity_grants "tok") (download_answers r)
             (zip_always ZipSound) in
  let g := Slot "S1A_IW_GRDH" "Bearer tok" sample_url sample_output
             "/tokens/CDSE_access_token_a_b_20240101t000000.txt"
             "/sessions/CDSE_active_session_a_b_S1A_IW_GRDH.txt" in
  let df := [Row "S1A_IW_GRDH" 0 "42" sample_url sample_output] in
  fst (harvest_future E (session_without_slot 1) sample_conf [g] 0
         (df, [], []) staged_world)
  = Ok ([Row "S1A_IW_GRDH" (-1) "42" sample_url sample_output], [], []).
Proof.
  intros r E g df.
  rewrite (harvest_future_token_name_not_parsed E (session_without_slot 1)
             sample_conf [g] 0 g df [] [] staged_world).
  - reflexivity.
  - reflexivity.
  - right. right. exists "b". split; vm_compute; reflexivity.
Defined.

(** ** The scheduling loop: waiting *)

(** X17. The [while] loop of the scheduler has no bound of its own: as
    long as a product is pending, the admission grants no slot and fewer
    accounts are blacklisted than the group has, a turn of the loop leaves
    the state as it was and the loop goes on; whatever number of turns is
    allowed, they run out before the loop is left. *)
Theorem while_loop_waits_without_end
    (E : Env) (session : SessionModule) (conf : Conf) (account_group : string)
    (st : sched) (accounts : list (string * string)) :
  (forall pending blacklisted w, exists w',
     get_sessions_download_available session conf pending blacklisted
       account_group w = (Ok [], w')) ->
  dict_get account_group (groups conf) = Some accounts ->
  (length (blacklist st) < length accounts)%nat ->
  existsb (fun r => df_status r =? 0) (df2 st) = true ->
  forall fuel w,
    fst (while_loop E session conf fuel account_group st w) = Ok None.
Proof.
  intros Hnone Hgroup Hshort Hpending.
  induction fuel as [|fuel IH]; intros w; [reflexivity|].
  cbn [while_loop]. rewrite Hpending.
  unfold scheduling_round.
  destruct (Hnone (List.filter (fun r => df_status r =? 0) (df2 st))
              (blacklist st) w) as [w' Hrun].
  unfold bind at 1. unfold bind at 1. rewrite Hrun.
  cbn [length Nat.eqb]. unfold dict_getitem. rewrite Hgroup.
  unfold bind at 1. cbn [ret].
  assert ((length accounts <=? length (blacklist st))%nat = false) as ->
    by (apply Nat.leb_gt; exact Hshort).
  apply IH.
Qed.

(** Three products are pending and no slot is ever granted: after a hundred
    turns the loop is still running. *)
Lemma while_loop_waits_without_end_witness :
  fst (while_loop failing_env (session_without_slot 1) single_account_conf 100
         "logins" (Sched three_products [] []) empty_world)
  = Ok None.
Proof.
  apply (while_loop_waits_without_end failing_env (session_without_slot 1)
           single_account_conf "logins" (Sched three_products [] [])
           [("alice", "pw-alice")]).
  - intros pending blacklisted w. exists w. reflexivity.
  - reflexivity.
  - simpl. lia.
  - reflexivity.
Defined.

(** ** Nothing to download *)

Lemma loop_keeps_nothing w (body : row -> list row -> M (list row)) :
  forall df,
    (forall r todo, In r df -> body r todo w = (Ok todo, w)) ->
    forall todo, for_each df body todo w = (Ok todo, w).
Proof.
  induction df as [|r df IH]; intros Hbody todo; [reflexivity|].
  cbn [for_each].
  rewrite (bind_run _ _ _ _ _ (Hbody r todo (or_introl eq_refl))).
  apply IH. intros r' todo' Hin. apply Hbody. right. exact Hin.
Qed.

(** X18. With [check_on_disk], when every product of the listing is in the
    archive or in the spool, [download_list_product_multithread_v2] plans
    nothing: no admission is asked for, nothing is requested, and after the
    final sweep of the session leases the frame returned is empty. *)
Theorem download_list_product_multithread_v2_all_present
    (E : Env) (session : SessionModule) (conf : Conf) (fuel : nat)
    (list_id list_safename : list string) (outputdir account_group : string)
    (w : World) :
  length list_id = length list_safename ->
  (forall safename, In safename list_safename ->
     e_in_archive E safename (w_fs w) = true \/
     fst (check_safe_in_spool conf safename w) = Ok true) ->
  download_list_product_multithread_v2 E session conf (S fuel) list_id
    list_safename outputdir account_group true w
  = (remove_semaphore_session_file session (active_session_directory conf)
       None None ;;;
     ret (Some [])) w.
Proof.
  intros Hlen Hpresent. unfold download_list_product_multithread_v2.
  assert ((length list_id =? length list_safename)%nat = true) as ->
    by (apply Nat.eqb_eq; exact Hlen).
  unfold bind at 1. cbn [ret negb].
  unfold filter_product_already_present.
  unfold bind at 1.
  rewrite (loop_keeps_nothing w).
  - reflexivity.
  - intros r todo Hin. cbv beta zeta.
    assert (Hname : In (df_safe r) list_safename).
    { apply in_map_iff in Hin as ([name id] & <- & Hin).
      apply in_combine_l in Hin. exact Hin. }
    unfold bind at 1. unfold check_safe_in_archive at 1.
    destruct (e_in_archive E (df_safe r) (w_fs w)) eqn:Harchived;
      [reflexivity|].
    destruct (Hpresent _ Hname) as [Ha|Hspool]; [congruence|].
    destruct (check_safe_in_spool_run conf (df_safe r) w) as [spooled Hrun].
    rewrite Hrun in Hspool. cbn [fst] in Hspool. inversion Hspool; subst spooled.
    unfold bind at 1. unfold bind at 1. rewrite Hrun. reflexivity.
Qed.

(** The two products of the listing are in the spool. *)
Lemma download_list_product_multithread_v2_all_present_witness :
  let w := world_with [("/spool/P1.SAFE", Dir); ("/spool/P2.zip", File "PK" 420)] in
  download_list_product_multithread_v2 failing_env (session_without_slot 1)
    single_account_conf 1 ["id1"; "id2"] ["P1.SAFE"; "P2.SAFE"] "/out" "logins"
    true w
  = (Ok (Some []), w).
Proof.
  intros w.
  rewrite (download_list_product_multithread_v2_all_present failing_env
             (session_without_slot 1) single_account_conf 0 ["id1"; "id2"]
             ["P1.SAFE"; "P2.SAFE"] "/out" "logins" w).
  - reflexivity.
  - reflexivity.
  - intros safename [<-|[<-|[]]]; right; vm_compute; reflexivity.
Defined.

(** ** The sequential download without a token *)

Lemma choose_credentials_returns E conf account_group group specific_account
    passwd w :
  dict_get account_group (groups conf) = Some group ->
  exists creds w1,
    choose_credentials E conf account_group specific_account passwd w
    = (Ok creds, w1).
Proof.
  intros Hg.
  destruct (choose_credentials_outcome E conf account_group specific_account
              passwd w) as (_ & _ & [[creds Hok]|Hraise]).
  - destruct (choose_credentials E conf account_group specific_account passwd w)
      as [r w1]. cbn [fst] in Hok. subst r. eauto.
  - exfalso. revert Hraise.
    unfold choose_credentials, bind, dict_getitem. rewrite Hg. cbn [ret].
    destruct specific_account as [login|].
    + destruct passwd as [p|]; [discriminate|].
      destruct (dict_get login group); discriminate.
    + destruct group as [|[first pw] others]; [discriminate|].
      cbn [map fst].
      destruct (nth_error_mod_Some (first :: map fst others)
                  (e_random E (w_rand w))) as [login Hlogin]; [discriminate|].
      unfold random_choice. rewrite Hlogin.
      destruct passwd as [p|]; [discriminate|].
      cbn [dict_get]. rewrite String.eqb_refl. discriminate.
Qed.

(** Against an endpoint that rejects, with the account group in the
    configuration: four [None], and neither the file system nor the
    requests to the download endpoint change. *)
Lemma get_bearer_access_token_rejected_run E conf specific_account passwd
    account_group group w :
  (forall sent, endpoint_rejects (e_identity E sent)) ->
  dict_get account_group (groups conf) = Some group ->
  exists w',
    get_bearer_access_token E conf specific_account passwd account_group w
    = (Ok no_token, w') /\
    w_fs w' = w_fs w /\ w_gets w' = w_gets w.
Proof.
  intros Hrej Hg.
  destruct (choose_credentials_returns E conf account_group group
              specific_account passwd w Hg) as (creds & w1 & Hcreds).
  pose proof (choose_credentials_world E conf account_group specific_account
                passwd w) as Hw1.
  rewrite Hcreds in Hw1. cbn [snd] in Hw1. destruct Hw1 as (Hfs & _ & _ & Hgets).
  unfold get_bearer_access_token. rewrite (bind_run _ _ _ _ _ Hcreds).
  destruct creds as [[login p]|]; [|exists w1; auto].
  unfold bind at 1. unfold datetime_today at 1. unfold bind at 1.
  rewrite fetch_token_data_rejected by apply Hrej.
  eexists. split; [reflexivity|]. cbn. auto.
Qed.

Lemma filter_nil_none {A} (f : A -> bool) (l : list A) :
  (forall x, In x l -> f x = false) -> List.filter f l = [].
Proof.
  induction l as [|x l IH]; intros H; [reflexivity|].
  cbn [List.filter]. rewrite (H x (or_introl eq_refl)).
  apply IH. intros y Hy. apply H. right. exact Hy.
Qed.

Lemma no_lease_listed E token_dir w :
  (forall p, is_Some (w_fs w !! p) ->
             glob_matches E token_dir "CDSE_access_token_" ".txt" p = false) ->
  get_list_of_exising_token E token_dir None w = (Ok [], w).
Proof.
  intros Hnone. unfold get_list_of_exising_token, bind, glob.
  rewrite filter_nil_none; [reflexivity|].
  intros p Hin. apply Hnone.
  apply list_elem_of_In, elem_of_elements, elem_of_dom in Hin. exact Hin.
Qed.

(** X19. When the token directory holds no lease file and the identity
    endpoint rejects the request, [download_list_product] returns normally
    without downloading anything: no request is sent to the download
    endpoint and no file changes, whatever the listing. *)
Theorem download_list_product_without_token
    (E : Env) (session : SessionModule) (conf : Conf)
    (list_id list_safename : list string) (outputdir : string)
    (specific_account specific_passwd : option string)
    (group : list (string * string)) (w : World) :
  length list_id = length list_safename ->
  (forall p, is_Some (w_fs w !! p) ->
             glob_matches E (token_directory conf) "CDSE_access_token_" ".txt" p
             = false) ->
  (forall sent, endpoint_rejects (e_identity E sent)) ->
  dict_get "logins" (groups conf) = Some group ->
  exists w',
    download_list_product E session conf list_id list_safename outputdir
      specific_account specific_passwd w = (Ok tt, w') /\
    w_gets w' = w_gets w /\ w_fs w' = w_fs w.
Proof.
  intros Hlen Hnone Hrej Hg. unfold download_list_product.
  assert ((length list_id =? length list_safename)%nat = true) as ->
    by (apply Nat.eqb_eq; exact Hlen).
  unfold bind at 1. cbn [ret].
  unfold initial_token.
  destruct (get_bearer_access_token_rejected_run E conf specific_account
              specific_passwd "logins" group w Hrej Hg)
    as (w' & Hrun & Hfs & Hgets).
  unfold bind at 1.
  rewrite (bind_run _ _ _ _ _ (no_lease_listed E (token_directory conf) w Hnone)).
  rewrite (bind_run _ _ _ _ _ Hrun). cbn.
  exists w'. auto.
Qed.

(** The identity endpoint answers with a page that is not JSON: the two
    products of the listing are not requested. *)
Lemma download_list_product_without_token_witness :
  let E := sample_env sample_midnight (fun _ => 0%nat) nothing_denied
             identity_malformed sample_download_ok (zip_always ZipSound) in
  exists w',
    download_list_product E (session_without_slot 1) sample_conf
      ["id1"; "id2"] ["P1.SAFE"; "P2.SAFE"] "/out" (Some "alice") None
      empty_world = (Ok tt, w') /\
    w_gets w' = [].
Proof.
  intros E.
  destruct (download_list_product_without_token E (session_without_slot 1)
              sample_conf ["id1"; "id2"] ["P1.SAFE"; "P2.SAFE"] "/out"
              (Some "alice") None [("alice", "pw-alice"); ("bob", "pw-bob")]
              empty_world) as (w' & Hrun & Hgets & _).
  - reflexivity.
  - intros p [n Hn]. vm_compute in Hn. discriminate Hn.
  - intros sent. right. reflexivity.
  - reflexivity.
  - exists w'. split; [exact Hrun|exact Hgets].
Defined.

(** ** The requests of a download *)

Lemma path_join_longer a c :
  startswith "/" c = false -> c <> "" ->
  (String.length a < String.length (path_join a c))%nat.
Proof.
  intros Hc Hne. unfold path_join. rewrite Hc.
  assert (1 <= String.length c)%nat by (destruct c; [congruence|cbn; lia]).
  destruct (String.eqb a "" || endswith "/" a); rewrite !string_length_app; lia.
Qed.

(** The temporary path is neither the staging directory nor a directory
    above it. *)
Lemma tmp_path_below_staging conf out :
  tmp_path conf out <> pre_spool conf /\
  ~ In (tmp_path conf out) (ancestors (pre_spool conf)).
Proof.
  assert (Hc : no_sep "/" (basename out +:+ ".tmp") = true).
  { rewrite no_sep_app, basename_no_slash. reflexivity. }
  assert (Hlen : (String.length (pre_spool conf)
                  < String.length (tmp_path conf out))%nat).
  { apply path_join_longer; [apply startswith_slash_no_sep; exact Hc|].
    intros H. apply (f_equal String.length) in H.
    rewrite string_length_app in H. simpl in H. lia. }
  split.
  - intros H. rewrite H in Hlen. lia.
  - intros H. apply ancestors_shorter in H. lia.
Qed.

Lemma enter_try_refused E conf w :
  staging_refused E conf w = true ->
  exists e, enter_try E conf w = (Raise e, tick w) /\ exn_cls e = OSError.
Proof.
  unfold staging_refused, enter_try, bind, time_time, os_path_exists.
  cbn [w_fs w_clock]. intros Href.
  destruct (w_fs w !! pre_spool conf) as [n|] eqn:Hn; [discriminate|].
  rewrite bool_decide_eq_false_2 by (intros [n Hn']; discriminate).
  unfold os_makedirs_exist_ok. cbn [w_fs]. rewrite Hn, Href.
  eexists. split; reflexivity.
Qed.

Lemma enter_try_entered E conf w :
  staging_refused E conf w = false ->
  enter_try E conf w = (Ok (e_time E (w_clock w)), world_at_try E conf w) /\
  w_gets (world_at_try E conf w) = w_gets w /\
  forall out,
    w_fs (world_at_try E conf w) !! tmp_path conf out
    = w_fs w !! tmp_path conf out.
Proof.
  intros Href.
  destruct (enter_try_run E conf w) as [[e He]|(Hrun & Hgets & _ & Hfs)].
  - exfalso. revert He.
    unfold staging_refused in Href.
    unfold enter_try, bind, time_time, os_path_exists. cbn [w_fs w_clock].
    destruct (w_fs w !! pre_spool conf) as [n|] eqn:Hn.
    + rewrite bool_decide_eq_true_2 by eauto. discriminate.
    + rewrite bool_decide_eq_false_2 by (intros [n Hn']; discriminate).
      unfold os_makedirs_exist_ok. cbn [w_fs]. rewrite Hn, Href. discriminate.
  - split; [exact Hrun|]. split; [exact Hgets|].
    intros out. destruct Hfs as [->|(_ & ->)]; [reflexivity|].
    destruct (tmp_path_below_staging conf out) as [Hne Hanc].
    rewrite lookup_insert_ne by congruence.
    apply make_missing_other. exact Hanc.
Qed.

(** Lines 42-150: the requests of a run of the executor. *)
Lemma executor_requests {T} E conf headers url out (sem : T) w :
  w_gets (snd (CDS_Odata_download_one_product_v2 E conf headers url out sem w))
  = (w_gets w ++ requests_of_download E conf url headers out w)%list.
Proof.
  unfold requests_of_download.
  destruct (staging_refused E conf w) eqn:Href; cbn [negb andb].
  - destruct (enter_try_refused E conf w Href) as (e & Henter & _).
    unfold CDS_Odata_download_one_product_v2. unfold bind at 1. rewrite Henter.
    cbn [snd tick w_gets]. symmetry. apply app_nil_r.
  - destruct (enter_try_entered E conf w Href) as (Henter & Hgets & Hfs).
    destruct (request_and_stream_shape E url headers (tmp_path conf out)
                (world_at_try E conf w))
      as (status & meaning & tl & w1 & Hrun & H200 & Hw1).
    rewrite (executor_final_gets E conf headers url out sem w _ _ status meaning
               tl w1 Henter Hrun H200).
    unfold can_open. rewrite <- (Hfs out).
    destruct Hw1 as [(-> & [Hd|Hdir])|(Hd & Hnd & data & mode & ->)].
    + rewrite Hd, Hgets. cbn [negb andb]. symmetry. apply app_nil_r.
    + rewrite Hdir, Hgets, andb_false_r. symmetry. apply app_nil_r.
    + rewrite Hd. cbn [negb andb after_request w_gets]. rewrite Hgets.
      destruct (w_fs (world_at_try E conf w) !! tmp_path conf out) as [[|]|];
        try reflexivity.
      congruence.
Qed.

Lemma requests_of_download_fs E conf url headers out w w' :
  w_fs w' = w_fs w ->
  requests_of_download E conf url headers out w'
  = requests_of_download E conf url headers out w.
Proof.
  intros Hfs. unfold requests_of_download, staging_refused, can_open.
  rewrite Hfs. reflexivity.
Qed.

(** Lines 426-484 for a product that is neither archived nor in the spool:
    the requests sent are those of the executor, with the header of the
    token that [renew_if_expired] hands over. *)
Lemma download_product_gets E session conf outputdir id_product
    safename_product h w url_product h1 w1 :
  (forall d s l, keeps same_gets (remove_semaphore_session_file session d s l)) ->
  format_with E (URL_download conf) id_product w = (Ok url_product, w) ->
  e_in_archive E safename_product (w_fs w) = false ->
  fst (check_safe_in_spool conf safename_product w) = Ok false ->
  renew_if_expired E conf h w = (Ok h1, w1) ->
  w_gets (snd (download_product E session conf outputdir id_product
                 safename_product h w))
  = (w_gets w
     ++ requests_of_download E conf url_product (held_headers h1)
          (path_join outputdir (safename_product +:+ ".zip")) w1)%list.
Proof.
  intros Hsession Hurl Harchived Hspool Hrenew.
  unfold download_product.
  rewrite (bind_run _ _ _ _ _ Hurl).
  rewrite (bind_run (check_safe_in_archive E conf safename_product) _ w
             (e_in_archive E safename_product (w_fs w)) w eq_refl).
  rewrite Harchived.
  destruct (check_safe_in_spool_run conf safename_product w) as [spooled Hrun].
  rewrite Hrun in Hspool. cbn [fst] in Hspool. inversion Hspool; subst spooled.
  rewrite (bind_run _ _ _ _ _ Hrun), (bind_run _ _ _ _ _ Hrenew).
  pose proof (renew_if_expired_same_gets E conf h w) as Hgets.
  rewrite Hrenew in Hgets. unfold same_gets in Hgets. cbn [snd] in Hgets.
  rewrite <- Hgets.
  set (out := path_join outputdir (safename_product +:+ ".zip")).
  rewrite <- (executor_requests E conf (held_headers h1) url_product out
                (held_path h1) w1).
  destruct (CDS_Odata_download_one_product_v2 E conf (held_headers h1)
              url_product out (held_path h1) w1)
    as [[[[[speed meaning] base] sem]|e] w2] eqn:Hexec;
    [|unfold bind; rewrite Hexec; reflexivity].
  rewrite (bind_run _ _ _ _ _ Hexec). cbn [snd].
  match goal with
  | |- w_gets (snd (?m w2)) = _ =>
      assert (Hk : keeps same_gets m); [|exact (Hk w2)]
  end.
  keeps_gets; auto using remove_semaphore_token_file_same_gets with keeps.
Qed.

(** X20. In the sequential download, when the held token has expired and
    the identity endpoint rejects the renewal, the product is still
    requested, with the header "Bearer None": exactly one request is sent
    for the URL of the product when the staging directory is there or can
    be made and the temporary file can be opened, and none otherwise.  The
    download then fails: with the [AttributeError] of the release of a
    lease without date, or with the [OSError] of a staging directory that
    cannot be made. *)
Theorem download_product_renewal_rejected
    (E : Env) (session : SessionModule) (conf : Conf)
    (outputdir id_product safename_product url_product : string) (h : held)
    (issued_at : datetime) (group : list (string * string)) (w : World) :
  format_with E (URL_download conf) id_product w = (Ok url_product, w) ->
  e_in_archive E safename_product (w_fs w) = false ->
  fst (check_safe_in_spool conf safename_product w) = Ok false ->
  held_date h = Some issued_at ->
  expired (e_today E (w_clock w)) issued_at ->
  (forall sent, endpoint_rejects (e_identity E sent)) ->
  dict_get "logins" (groups conf) = Some group ->
  (forall d s l, keeps same_gets (remove_semaphore_session_file session d s l)) ->
  exists e w',
    download_product E session conf outputdir id_product safename_product h w
    = (Raise e, w') /\
    exn_cls e = (if staging_refused E conf w then OSError else AttributeError) /\
    w_gets w'
    = (w_gets w
       ++ requests_of_download E conf url_product "Bearer None"
            (path_join outputdir (safename_product +:+ ".zip")) w)%list.
Proof.
  intros Hurl Harchived Hspool Hdate Hexpired Hrej Hg Hsession.
  destruct (get_bearer_access_token_rejected_run E conf (held_account h) None
              "logins" group (tick w) Hrej Hg) as (w1 & Hmint & Hfs & Hgets).
  assert (Hrenew : renew_if_expired E conf h w
                   = (Ok (Held JNull None None None "Bearer None"), w1)).
  { unfold renew_if_expired. unfold bind at 1. unfold datetime_today at 1.
    fold (tick w). rewrite Hdate. unfold bind at 1. cbn [ret].
    apply seconds_ge_iff in Hexpired. rewrite Hexpired.
    rewrite (bind_run _ _ _ _ _ Hmint). reflexivity. }
  pose proof (download_product_gets E session conf outputdir id_product
                safename_product h w url_product _ w1 Hsession Hurl Harchived
                Hspool Hrenew) as Hsent.
  cbn [held_headers] in Hsent.
  rewrite (requests_of_download_fs E conf url_product "Bearer None" _ w w1 Hfs)
    in Hsent.
  assert (Href : staging_refused E conf w1 = staging_refused E conf w).
  { unfold staging_refused. rewrite Hfs. reflexivity. }
  revert Hsent. unfold download_product.
  rewrite (bind_run _ _ _ _ _ Hurl).
  rewrite (bind_run (check_safe_in_archive E conf safename_product) _ w
             (e_in_archive E safename_product (w_fs w)) w eq_refl).
  rewrite Harchived.
  destruct (check_safe_in_spool_run conf safename_product w) as [spooled Hrun].
  rewrite Hrun in Hspool. cbn [fst] in Hspool. inversion Hspool; subst spooled.
  rewrite (bind_run _ _ _ _ _ Hrun), (bind_run _ _ _ _ _ Hrenew).
  cbn [held_headers held_path held_date held_account held_access_token].
  set (out := path_join outputdir (safename_product +:+ ".zip")).
  destruct (staging_refused E conf w) eqn:Hw.
  - destruct (enter_try_refused E conf w1) as (e & Henter & Hcls);
      [rewrite Href; reflexivity|].
    assert (Hexec : CDS_Odata_download_one_product_v2 E conf "Bearer None"
                      url_product out (@None string) w1 = (Raise e, tick w1)).
    { unfold CDS_Odata_download_one_product_v2. unfold bind at 1.
      rewrite Henter. reflexivity. }
    rewrite (bind_raise _ _ _ _ _ Hexec). cbn [snd]. intros Hsent.
    exists e, (tick w1). split; [reflexivity|]. split; [exact Hcls|exact Hsent].
  - destruct (executor_outcomes E conf "Bearer None" url_product out
                (@None string) w1)
      as [(speed & meaning & w2 & Hok)|(Hnone & Hden & _)].
    + rewrite (bind_run _ _ _ _ _ Hok). unfold bind, raise. cbn [snd].
      intros Hsent. eexists _, w2. split; [reflexivity|].
      split; [reflexivity|exact Hsent].
    + exfalso. unfold staging_refused in Href.
      rewrite Hnone in Href. congruence.
Qed.

(** A token of alice issued at midnight is held at 00:10:00; the identity
    endpoint has stopped answering with JSON.  The product is requested
    once, without a token. *)
Lemma download_product_renewal_rejected_witness :
  let E := sample_env (sample_midnight + 600000000) (fun _ => 0%nat)
             nothing_denied identity_malformed sample_download_ok
             (zip_always ZipSound) in
  let h := Held (JStr "tok") (Some sample_midnight) (Some "alice")
             (Some alice_lease) "Bearer tok" in
  exists e w',
    download_product E (session_without_slot 1) sample_conf "/out" "42"
      "S1A_IW_GRDH" h staged_world = (Raise e, w') /\
    exn_cls e = AttributeError /\
    w_gets w' = [GetRequest sample_url "Bearer None"].
Proof.
  intros E h.
  destruct (download_product_renewal_rejected E (session_without_slot 1)
              sample_conf "/out" "42" "S1A_IW_GRDH" sample_url h sample_midnight
              [("alice", "pw-alice"); ("bob", "pw-bob")] staged_world)
    as (e & w' & Hrun & Hcls & Hsent).
  - vm_compute. reflexivity.
  - reflexivity.
  - vm_compute. reflexivity.
  - reflexivity.
  - vm_compute. discriminate.
  - intros sent. right. reflexivity.
  - reflexivity.
  - intros d s l w. reflexivity.
  - exists e, w'. split; [exact Hrun|]. split; [exact Hcls|].
    rewrite Hsent. vm_compute. reflexivity.
Defined.

(** ** A lease that was written is listed while it is valid *)

Lemma split_on_sep_app sep a b :
  split_on sep (a +:+ String sep b) = (split_on sep a ++ split_on sep b)%list.
Proof.
  induction a as [|ch a IH].
  - change ("" +:+ String sep b) with (String sep b). cbn [split_on].
    rewrite Ascii.eqb_refl. reflexivity.
  - change (String ch a +:+ String sep b) with (String ch (a +:+ String sep b)).
    cbn [split_on]. rewrite IH.
    pose proof (split_on_not_nil sep a) as Hne.
    destruct (Ascii.eqb ch sep); [reflexivity|].
    destruct (split_on sep a) as [|q qs]; [congruence|]. reflexivity.
Qed.

Lemma last_app_nonempty {A} (l1 l2 : list A) d :
  l2 <> [] -> List.last (l1 ++ l2) d = List.last l2 d.
Proof.
  intros Hne. induction l1 as [|x l1 IH]; [reflexivity|].
  rewrite <- IH. cbn [app].
  destruct (l1 ++ l2)%list as [|y l] eqn:Hl; [|reflexivity].
  destruct l1; cbn in Hl; congruence.
Qed.


Lemma prefix_app a b : String.prefix a (a +:+ b) = true.
Proof.
  induction a as [|c a IH]; [apply prefix_nil|].
  change (String c a +:+ b) with (String c (a +:+ b)). cbn [String.prefix].
  destruct (ascii_dec c c); [exact IH|congruence].
Qed.

Lemma substring_full b : substring 0 (String.length b) b = b.
Proof.
  induction b as [|c b IH]; [reflexivity|].
  cbn [String.length substring]. rewrite IH. reflexivity.
Qed.

Lemma substring_app_tail a b :
  substring (String.length a) (String.length b) (a +:+ b) = b.
Proof.
  induction a as [|c a IH]; [apply substring_full|].
  change (String c a +:+ b) with (String c (a +:+ b)).
  cbn [String.length substring]. exact IH.
Qed.

Lemma endswith_app a suf : endswith suf (a +:+ suf) = true.
Proof.
  unfold endswith. rewrite string_length_app.
  apply andb_true_iff. split; [apply Nat.leb_le; lia|].
  replace (String.length a + String.length suf - String.length suf)%nat
    with (String.length a) by lia.
  rewrite substring_app_tail. apply String.eqb_refl.
Qed.

Lemma no_sep_contains s : no_sep "/" s = true -> contains "/" s = false.
Proof.
  induction s as [|c s IH]; [reflexivity|].
  cbn [no_sep contains String.prefix]. intros H.
  apply andb_true_iff in H as [Hc Hs]. apply negb_true_iff in Hc.
  rewrite (IH Hs).
  destruct (ascii_dec "/" c) as [<-|Hne]; [|reflexivity].
  rewrite Ascii.eqb_refl in Hc. discriminate.
Qed.

Lemma endswith_slash_inv a : endswith "/" a = true -> exists y, a = y +:+ "/".
Proof.
  induction a as [|ch a IH]; [discriminate|].
  destruct a as [|ch' a].
  - unfold endswith. cbn. intros H.
    apply andb_true_iff in H as [H _]. apply Ascii.eqb_eq in H. subst ch.
    exists "". reflexivity.
  - intros H. destruct IH as [y Hy].
    + unfold endswith in *. cbn [String.length] in *.
      apply andb_true_iff in H as [_ H]. apply andb_true_iff. split; [reflexivity|].
      replace (S (S (String.length a)) - 1)%nat with (S (String.length a)) in H by lia.
      replace (S (String.length a) - 1)%nat with (String.length a) by lia.
      exact H.
    + exists (String ch y). rewrite Hy. reflexivity.
Qed.

Lemma path_join_dir_prefix a c :
  startswith "/" c = false -> path_join a c = dir_prefix a +:+ c.
Proof.
  intros Hc. unfold path_join, dir_prefix. rewrite Hc.
  destruct (String.eqb a "" || endswith "/" a); [reflexivity|].
  rewrite string_app_assoc. reflexivity.
Qed.

Lemma basename_ends_with_slash y : basename (y +:+ "/") = "".
Proof.
  unfold basename. rewrite (split_on_sep_app "/" y "").
  rewrite last_app_nonempty by discriminate. reflexivity.
Qed.

Lemma basename_dir_prefix a : basename (dir_prefix a) = "".
Proof.
  unfold dir_prefix.
  destruct (String.eqb a "") eqn:Ha.
  - apply String.eqb_eq in Ha. subst a. reflexivity.
  - cbn [orb]. destruct (endswith "/" a) eqn:Hend.
    + destruct (endswith_slash_inv a Hend) as [y ->]. apply basename_ends_with_slash.
    + apply basename_ends_with_slash.
Qed.

(** A name matched by the pattern made of a directory, a prefix and a
    suffix. *)
Lemma matches_literally_app dir pre mid suf :
  startswith "/" pre = false ->
  startswith "/" (pre +:+ (mid +:+ suf)) = false ->
  no_sep "/" (mid +:+ suf) = true ->
  matches_literally dir pre suf (path_join dir (pre +:+ (mid +:+ suf))) = true.
Proof.
  intros Hpre Hp Hmid. unfold matches_literally.
  rewrite (path_join_dir_prefix dir pre Hpre), (path_join_dir_prefix dir _ Hp).
  rewrite <- (string_app_assoc (dir_prefix dir) pre (mid +:+ suf)).
  set (full := dir_prefix dir +:+ pre). set (rest := mid +:+ suf) in *.
  apply andb_true_iff; split;
    [apply andb_true_iff; split; [apply andb_true_iff; split|]|].
  - apply prefix_app.
  - subst rest. rewrite <- (string_app_assoc full mid suf). apply endswith_app.
  - apply Nat.leb_le. subst rest. rewrite !string_length_app. lia.
  - rewrite (string_length_app full rest).
    replace (String.length full + String.length rest - String.length full)%nat
      with (String.length rest) by lia.
    rewrite substring_app_tail, (no_sep_contains _ Hmid). reflexivity.
Qed.

Lemma prefix_app_sep sep old :
  no_sep sep old = true ->
  forall a b, String.prefix old (a +:+ String sep b) = String.prefix old a.
Proof.
  induction old as [|o old IH]; intros Hold a b; [rewrite !prefix_nil; reflexivity|].
  cbn [no_sep] in Hold. apply andb_true_iff in Hold as [Ho Hold].
  apply negb_true_iff in Ho.
  destruct a as [|c a].
  - change ("" +:+ String sep b) with (String sep b). cbn [String.prefix].
    destruct (ascii_dec o sep) as [->|Hne]; [|reflexivity].
    rewrite Ascii.eqb_refl in Ho. discriminate.
  - change (String c a +:+ String sep b) with (String c (a +:+ String sep b)).
    cbn [String.prefix]. destruct (ascii_dec o c); [apply IH; exact Hold|reflexivity].
Qed.

Lemma prefix_length old :
  forall a, String.prefix old a = true -> (String.length old <= String.length a)%nat.
Proof.
  induction old as [|o old IH]; intros a H; [cbn; lia|].
  destruct a as [|c a]; [discriminate|].
  cbn [String.prefix] in H. destruct (ascii_dec o c); [|discriminate].
  cbn [String.length]. specialize (IH a H). lia.
Qed.

(** A replacement does not cross a separator that the replaced string does
    not contain. *)
Lemma replace_from_sep sep old new b :
  no_sep sep old = true -> old <> "" ->
  forall a skip, (skip <= String.length a)%nat ->
    replace_from old new skip (a +:+ String sep b)
    = replace_from old new skip a +:+ String sep (replace_from old new 0 b).
Proof.
  intros Hold Hne. induction a as [|c a IH]; intros skip Hskip.
  - cbn [String.length] in Hskip. assert (skip = 0)%nat as -> by lia.
    change ("" +:+ String sep b) with (String sep b). cbn [replace_from].
    pose proof (prefix_app_sep sep old Hold "" b) as Hp.
    change ("" +:+ String sep b) with (String sep b) in Hp. rewrite Hp.
    destruct old; [congruence|]. reflexivity.
  - change (String c a +:+ String sep b) with (String c (a +:+ String sep b)).
    destruct skip as [|k].
    + cbn [replace_from].
      change (String c (a +:+ String sep b)) with (String c a +:+ String sep b).
      rewrite (prefix_app_sep sep old Hold (String c a) b).
      destruct (String.prefix old (String c a)) eqn:Hp.
      * apply prefix_length in Hp. cbn [String.length] in Hp.
        rewrite IH by lia. rewrite string_app_assoc. reflexivity.
      * rewrite IH by lia. reflexivity.
    + cbn [replace_from]. apply IH. cbn [String.length] in Hskip. lia.
Qed.

Lemma replace_txt_stamp s :
  no_sep "." s = true -> replace ".txt" "" (s +:+ ".txt") = s.
Proof.
  unfold replace. induction s as [|c s IH]; [reflexivity|].
  intros H. cbn [no_sep] in H. apply andb_true_iff in H as [Hc Hs].
  apply negb_true_iff in Hc.
  change (String c s +:+ ".txt") with (String c (s +:+ ".txt")).
  cbn [replace_from String.prefix].
  destruct (ascii_dec "." c) as [<-|Hne].
  - rewrite Ascii.eqb_refl in Hc. discriminate.
  - rewrite (IH Hs). reflexivity.
Qed.

(** The name of a lease reads back: its base name is the file name, which
    has two parts or more between underscores, the last of them the stamp. *)
Lemma token_path_reads_back E token_dir login d :
  no_sep "/" login = true ->
  no_sep "/" (e_strftime E d) = true ->
  no_sep "_" (e_strftime E d) = true ->
  no_sep "." (e_strftime E d) = true ->
  let p := path_join token_dir (token_file_name E login d) in
  lease_stamp p = e_strftime E d /\
  (length (split_on "_" (replace ".txt" "" (basename p))) <? 2)%nat = false.
Proof.
  intros Hlogin Hslash Hunder Hdot p.
  assert (Hname : no_sep "/" (token_file_name E login d) = true).
  { unfold token_file_name. rewrite !no_sep_app, Hlogin, Hslash. reflexivity. }
  assert (Hbase : basename p = token_file_name E login d).
  { subst p. rewrite (path_join_dir_prefix _ _ (token_file_name_relative E login d)).
    rewrite (basename_app_no_slash _ _ Hname), basename_dir_prefix. reflexivity. }
  assert (Hparts : split_on "_" (replace ".txt" "" (basename p))
                   = (split_on "_" (replace ".txt" "" ("CDSE_access_token_" +:+ login))
                      ++ [e_strftime E d])%list).
  { rewrite Hbase. unfold token_file_name.
    rewrite <- (string_app_assoc "CDSE_access_token_" login).
    change ("_" +:+ e_strftime E d +:+ ".txt")
      with (String "_" (e_strftime E d +:+ ".txt")).
    unfold replace. rewrite (replace_from_sep "_" ".txt" "");
      [|reflexivity|discriminate|lia].
    fold (replace ".txt" "" (e_strftime E d +:+ ".txt")).
    rewrite (replace_txt_stamp _ Hdot), split_on_sep_app.
    rewrite (split_on_no_sep "_" _ Hunder). reflexivity. }
  unfold lease_stamp. rewrite Hparts. split.
  - apply last_last.
  - apply Nat.ltb_ge. rewrite length_app. cbn [length].
    pose proof (split_on_not_nil "_"
                  (replace ".txt" "" ("CDSE_access_token_" +:+ login))) as Hne.
    clear Hparts.
    set (parts := split_on "_" (replace ".txt" "" ("CDSE_access_token_" +:+ login)))
      in *.
    destruct parts; [congruence|]. cbn [length]. lia.
Qed.

Lemma contains_char_app c a b :
  contains (String c "") (a +:+ b)
  = contains (String c "") a || contains (String c "") b.
Proof.
  induction a as [|x a IH].
  - change ("" +:+ b) with b. cbn [contains String.prefix orb]. reflexivity.
  - change (String x a +:+ b) with (String x (a +:+ b)).
    cbn [contains String.prefix]. rewrite IH, !prefix_nil.
    destruct (ascii_dec c x); [reflexivity|]. reflexivity.
Qed.

Lemma has_magic_app a b : has_magic (a +:+ b) = has_magic a || has_magic b.
Proof.
  unfold has_magic. rewrite !contains_char_app.
  destruct (contains "*" a), (contains "?" a), (contains "[" a),
    (contains "*" b), (contains "?" b), (contains "[" b); reflexivity.
Qed.

(** The patterns of [get_list_of_exising_token] match the name of a
    lease, when the token directory holds no wildcard of [glob], nor the
    account asked for. *)
Lemma token_path_matches E token_dir login d account :
  no_sep "/" login = true ->
  no_sep "/" (e_strftime E d) = true ->
  has_magic token_dir = false ->
  endswith "//" token_dir = false ->
  account = None \/ (account = Some login /\ has_magic login = false) ->
  glob_matches E token_dir
    match account with
    | Some a => "CDSE_access_token_" +:+ a +:+ "_"
    | None => "CDSE_access_token_"
    end ".txt" (path_join token_dir (token_file_name E login d))
  = true.
Proof.
  intros Hlogin Hslash Hdir Hend [->|(-> & Hmagic)];
    unfold glob_matches, token_file_name.
  - rewrite Hdir, Hend. cbn [orb].
    change (has_magic "CDSE_access_token_" || has_magic ".txt" || false)
      with false.
    cbv iota.
    rewrite <- (string_app_assoc login "_" (e_strftime E d +:+ ".txt")).
    rewrite <- (string_app_assoc (login +:+ "_") (e_strftime E d) ".txt").
    apply matches_literally_app; [reflexivity|reflexivity|].
    rewrite !no_sep_app, Hlogin, Hslash. reflexivity.
  - rewrite Hdir, Hend, !has_magic_app, Hmagic. cbn [orb].
    change (has_magic "CDSE_access_token_" || has_magic "_" || has_magic ".txt"
            || false)
      with false.
    cbv iota.
    rewrite <- (string_app_assoc login "_" (e_strftime E d +:+ ".txt")).
    rewrite <- (string_app_assoc "CDSE_access_token_" (login +:+ "_")
                  (e_strftime E d +:+ ".txt")).
    apply matches_literally_app; [reflexivity|reflexivity|].
    rewrite !no_sep_app, Hslash. reflexivity.
Qed.

Lemma keep_if_unexpired_step E ll lst w :
  exists lst' w',
    keep_if_unexpired E ll lst w = (Ok lst', w') /\
    (forall x, In x lst -> In x lst') /\
    (w_clock w <= w_clock w' <= S (w_clock w))%nat.
Proof.
  unfold keep_if_unexpired.
  destruct (length _ <? 2)%nat; [exists lst, w; cbn; auto with arith|].
  destruct (e_strptime E _) as [d|]; [|exists lst, w; cbn; auto with arith].
  unfold bind, datetime_today.
  destruct (seconds_lt _ _).
  - eexists _, _. split; [reflexivity|]. cbn. split; [|lia].
    intros x Hx. apply in_or_app. left. exact Hx.
  - eexists _, _. split; [reflexivity|]. cbn. split; [auto|lia].
Qed.

Lemma keep_if_unexpired_valid E ll lst w d :
  (length (split_on "_" (replace ".txt" "" (basename ll))) <? 2)%nat = false ->
  e_strptime E (lease_stamp ll) = Some d ->
  still_valid (e_today E (w_clock w)) d ->
  keep_if_unexpired E ll lst w = (Ok (lst ++ [ll])%list, tick w).
Proof.
  intros Hparts Hparse Hvalid. unfold keep_if_unexpired.
  rewrite Hparts. fold (lease_stamp ll). rewrite Hparse.
  unfold bind, datetime_today.
  apply seconds_lt_iff in Hvalid. rewrite Hvalid. reflexivity.
Qed.

Lemma listing_includes_valid E p d :
  (length (split_on "_" (replace ".txt" "" (basename p))) <? 2)%nat = false ->
  e_strptime E (lease_stamp p) = Some d ->
  forall l lst w,
    (forall k, (w_clock w <= k < w_clock w + length l)%nat ->
               still_valid (e_today E k) d) ->
    exists lst' w',
      for_each l (keep_if_unexpired E) lst w = (Ok lst', w') /\
      (In p lst \/ In p l -> In p lst').
Proof.
  intros Hparts Hparse. induction l as [|x l IH]; intros lst w Hvalid.
  - exists lst, w. split; [reflexivity|]. intros [H|[]]. exact H.
  - cbn [for_each]. cbn [length] in Hvalid.
    destruct (string_dec x p) as [->|Hne].
    + rewrite (bind_run _ _ _ _ _
                 (keep_if_unexpired_valid E p lst w d Hparts Hparse
                    (Hvalid (w_clock w) ltac:(lia)))).
      destruct (IH (lst ++ [p])%list (tick w)) as (lst' & w' & Hrun & Hin).
      * intros k Hk. apply Hvalid. cbn [tick w_clock] in Hk. lia.
      * exists lst', w'. split; [exact Hrun|]. intros _. apply Hin. left.
        apply in_or_app. right. left. reflexivity.
    + destruct (keep_if_unexpired_step E x lst w) as (lst1 & w1 & Hx & Hsub & Hclock).
      rewrite (bind_run _ _ _ _ _ Hx).
      destruct (IH lst1 w1) as (lst' & w' & Hrun & Hin).
      * intros k Hk. apply Hvalid. lia.
      * exists lst', w'. split; [exact Hrun|].
        intros [H|[H|H]]; [apply Hin; left; apply Hsub; exact H|congruence|].
        apply Hin. right. exact H.
Qed.

(** Lines 155-198 on a directory that holds the lease of [login] issued at
    [d], whose stamp reads as [d']. *)
Lemma existing_lease_is_listed E token_dir login d d' account w :
  let p := path_join token_dir (token_file_name E login d) in
  is_Some (w_fs w !! p) ->
  no_sep "/" login = true ->
  no_sep "/" (e_strftime E d) = true ->
  no_sep "_" (e_strftime E d) = true ->
  no_sep "." (e_strftime E d) = true ->
  e_strptime E (e_strftime E d) = Some d' ->
  has_magic token_dir = false ->
  endswith "//" token_dir = false ->
  account = None \/ (account = Some login /\ has_magic login = false) ->
  (forall k,
     (w_clock w <= k < w_clock w + length (elements (dom (w_fs w))))%nat ->
     still_valid (e_today E k) d') ->
  exists lst w',
    get_list_of_exising_token E token_dir account w = (Ok lst, w') /\
    In p lst.
Proof.
  intros p Hfile Hlogin Hslash Hunder Hdot Hparse Hdir Hend Haccount Hvalid.
  destruct (token_path_reads_back E token_dir login d Hlogin Hslash Hunder Hdot)
    as [Hstamp Hparts]. fold p in Hstamp, Hparts.
  pose proof (token_path_matches E token_dir login d account Hlogin Hslash
                Hdir Hend Haccount) as Hmatch. fold p in Hmatch.
  unfold get_list_of_exising_token.
  set (pre := match account with
              | Some a => "CDSE_access_token_" +:+ a +:+ "_"
              | None => "CDSE_access_token_"
              end) in *.
  assert (Hglob : (match account with
                   | Some a => glob E token_dir ("CDSE_access_token_" +:+ a +:+ "_") ".txt"
                   | None => glob E token_dir "CDSE_access_token_" ".txt"
                   end) w
                  = (Ok (List.filter (glob_matches E token_dir pre ".txt")
                           (elements (dom (w_fs w)))), w)).
  { subst pre. destruct account; reflexivity. }
  rewrite (bind_run _ _ _ _ _ Hglob).
  set (lst0 := List.filter (glob_matches E token_dir pre ".txt")
                 (elements (dom (w_fs w)))).
  assert (Hin0 : In p lst0).
  { apply filter_In. split; [|exact Hmatch].
    apply list_elem_of_In, elem_of_elements, elem_of_dom. exact Hfile. }
  destruct (listing_includes_valid E p d' Hparts
              ltac:(rewrite Hstamp; exact Hparse) lst0 [] w)
    as (lst & w' & Hrun & Hin).
  - intros k Hk. apply Hvalid.
    pose proof (List.filter_length_le (glob_matches E token_dir pre ".txt")
                  (elements (dom (w_fs w)))) as Hle.
    fold lst0 in Hle. lia.
  - exists lst, w'. split; [exact Hrun|]. apply Hin. right. exact Hin0.
Qed.

(** X21. A lease that [write_token_semphore_file] has written for a login
    (without a slash) is found by [get_list_of_exising_token], asked for
    that login or for all, as long as less than 600 seconds have passed
    since the date that its stamp reads as, at the readings of the clock
    that the listing takes (not more than one for each path of the file
    system).  The stamp that [strftime] writes for the date of issue is
    assumed to hold no slash, underscore or dot and to be read by
    [strptime] as a date, which is the date of issue without its
    microseconds; the token directory, and the login when the listing is
    asked for it, are assumed to hold none of the wildcards [*], [?] and
    [[] of [glob], and the token directory not to end with two slashes. *)
Theorem written_lease_is_listed
    (E : Env) (login : string) (d d' : datetime) (token_dir token : string)
    (account : option string) (w0 w : World) (p : string) :
  write_token_semphore_file E login d token_dir (JStr token) w0 = (Ok (Some p), w) ->
  no_sep "/" login = true ->
  no_sep "/" (e_strftime E d) = true ->
  no_sep "_" (e_strftime E d) = true ->
  no_sep "." (e_strftime E d) = true ->
  e_strptime E (e_strftime E d) = Some d' ->
  has_magic token_dir = false ->
  endswith "//" token_dir = false ->
  account = None \/ (account = Some login /\ has_magic login = false) ->
  (forall k,
     (w_clock w <= k < w_clock w + length (elements (dom (w_fs w))))%nat ->
     still_valid (e_today E k) d') ->
  exists lst w',
    get_list_of_exising_token E token_dir account w = (Ok lst, w') /\
    In p lst.
Proof.
  intros Hwrite Hlogin Hslash Hunder Hdot Hparse Hdir Hend Haccount Hvalid.
  pose proof (write_token_semphore_file_run E login d token_dir token w0) as Hrun.
  cbv zeta in Hrun. rewrite Hwrite in Hrun.
  assert (Hp : p = path_join token_dir (token_file_name E login d) /\
               is_Some (w_fs w !! p)).
  { destruct (e_denied E _); [discriminate|].
    destruct (w_fs (after_makedirs E token_dir w0) !! _) as [[data m|]|];
      [|discriminate|];
      inversion Hrun; subst; (split; [reflexivity|]);
      cbn [w_fs with_fs]; rewrite lookup_insert_eq; eauto. }
  destruct Hp as [-> Hfile].
  apply (existing_lease_is_listed E token_dir login d d'); assumption.
Qed.

(** The lease of alice, written 123456 microseconds after midnight, is
    listed at once: its stamp reads as midnight. *)
Lemma written_lease_is_listed_witness :
  let E := sample_env sample_midnight (fun _ => 0%nat) nothing_denied
             (identity_grants "tok") sample_download_ok (zip_always ZipSound) in
  let w := snd (write_token_semphore_file E "alice" (sample_midnight + 123456)
                  "/tokens" (JStr "tok") (world_with [("/tokens", Dir)])) in
  e_strptime E (e_strftime E (sample_midnight + 123456)) = Some sample_midnight /\
  exists lst w',
    get_list_of_exising_token E "/tokens" (Some "alice") w = (Ok lst, w') /\
    In alice_lease lst.
Proof.
  intros E w. split; [vm_compute; reflexivity|].
  apply (written_lease_is_listed E "alice" (sample_midnight + 123456)
           sample_midnight "/tokens" "tok"
           (Some "alice") (world_with [("/tokens", Dir)]) w alice_lease).
  - vm_compute. reflexivity.
  - reflexivity.
  - vm_compute. reflexivity.
  - vm_compute. reflexivity.
  - vm_compute. reflexivity.
  - vm_compute. reflexivity.
  - reflexivity.
  - reflexivity.
  - right. split; reflexivity.
  - intros k Hk.
    assert (Hlen : length (elements (dom (w_fs w))) = 2%nat)
      by (vm_compute; reflexivity).
    assert (Hclock : w_clock w = 0%nat) by (vm_compute; reflexivity).
    rewrite Hlen, Hclock in Hk.
    assert (Hcases : k = 0%nat \/ k = 1%nat) by lia.
    destruct Hcases as [-> | ->]; vm_compute; reflexivity.
Defined.

(** ** A lease that is reused is read back *)

Lemma basename_token_path E token_dir login d :
  no_sep "/" login = true ->
  no_sep "/" (e_strftime E d) = true ->
  basename (path_join token_dir (token_file_name E login d))
  = token_file_name E login d.
Proof.
  intros Hlogin Hslash.
  assert (Hname : no_sep "/" (token_file_name E login d) = true).
  { unfold token_file_name. rewrite !no_sep_app, Hlogin, Hslash. reflexivity. }
  rewrite (path_join_dir_prefix _ _ (token_file_name_relative E login d)).
  rewrite (basename_app_no_slash _ _ Hname), basename_dir_prefix. reflexivity.
Qed.

(** The part of index 4 of the name of a lease, for a login without
    underscore. *)
Lemma token_file_name_fifth_part E login d :
  no_sep "_" login = true ->
  no_sep "_" (e_strftime E d) = true ->
  nth_error (split_on "_" (token_file_name E login d)) 4
  = Some (e_strftime E d +:+ ".txt").
Proof.
  intros Hlogin Hstamp. unfold token_file_name.
  change ("CDSE_access_token_" +:+ login +:+ "_" +:+ e_strftime E d +:+ ".txt")
    with ("CDSE" +:+ String "_" ("access" +:+ String "_" ("token" +:+ String "_"
            (login +:+ String "_" (e_strftime E d +:+ ".txt"))))).
  rewrite !split_on_sep_app.
  rewrite (split_on_no_sep "_" "CDSE") by reflexivity.
  rewrite (split_on_no_sep "_" "access") by reflexivity.
  rewrite (split_on_no_sep "_" "token") by reflexivity.
  rewrite (split_on_no_sep "_" login Hlogin).
  rewrite (split_on_no_sep "_" (e_strftime E d +:+ ".txt"))
    by (rewrite no_sep_app, Hstamp; reflexivity).
  reflexivity.
Qed.

(** X22. The sequential download reads a reused lease back: when the
    lease drawn among the listed ones is the lease of a login (without
    slash and without underscore) issued at a date, and it holds a token,
    [download_list_product] starts with the first line of the lease as its
    token, with that date and with the path of the lease, and nothing is
    sent to the identity endpoint.  The date is read from the part of
    index 4 of the name between underscores, which is why the login may
    hold no underscore; the stamp that [strftime] writes is assumed to be
    read back by [strptime] and to hold no slash, underscore or dot. *)
Theorem initial_token_reads_lease_back
    (E : Env) (conf : Conf) (specific_account specific_passwd : option string)
    (login : string) (d : datetime) (token : string) (mode : Z)
    (w w1 : World) (lst : list string) :
  get_list_of_exising_token E (token_directory conf) None w = (Ok lst, w1) ->
  let p := path_join (token_directory conf) (token_file_name E login d) in
  nth_error lst (e_random E (w_rand w1) mod length lst)%nat = Some p ->
  w_fs w !! p = Some (File token mode) ->
  token <> "" ->
  no_sep "/" login = true ->
  no_sep "_" login = true ->
  no_sep "/" (e_strftime E d) = true ->
  no_sep "_" (e_strftime E d) = true ->
  no_sep "." (e_strftime E d) = true ->
  e_strptime E (e_strftime E d) = Some d ->
  exists w',
    initial_token E conf specific_account specific_passwd w
    = (Ok (JStr (first_line token), Some d, Some p), w') /\
    w_posted w' = w_posted w /\ w_fs w' = w_fs w.
Proof.
  intros Hlist p Hdrawn Hfile Htoken Hlogin Hlogin' Hslash Hunder Hdot Hparse.
  pose proof (get_list_of_exising_token_same_fs E (token_directory conf) None w)
    as Hfs.
  pose proof (get_list_of_exising_token_same_posted E (token_directory conf)
                None w) as Hposted.
  rewrite Hlist in Hfs, Hposted. unfold same_fs, same_posted in Hfs, Hposted.
  cbn [snd] in Hfs, Hposted.
  unfold initial_token. rewrite (bind_run _ _ _ _ _ Hlist).
  destruct lst as [|x l]; [destruct (_ mod _)%nat; discriminate|].
  set (lst := x :: l) in *.
  unfold bind at 1. unfold random_choice at 1. rewrite Hdrawn.
  pose proof (basename_token_path E (token_directory conf) login d Hlogin Hslash)
    as Hbase. fold p in Hbase.
  unfold bind at 1. rewrite Hbase.
  unfold list_getitem.
  rewrite (token_file_name_fifth_part E login d Hlogin' Hunder). cbn [ret].
  unfold bind at 1. rewrite (replace_txt_stamp _ Hdot), Hparse. cbn [ret].
  unfold bind at 1. unfold read_first_line. cbn [w_fs]. rewrite Hfs, Hfile.
  destruct token as [|c token]; [congruence|].
  eexists. split; [reflexivity|]. cbn [w_posted w_fs]. auto.
Qed.

(** The lease of alice, issued at midnight, is the only one of the token
    directory. *)
Lemma initial_token_reads_lease_back_witness :
  let E := sample_env sample_midnight (fun _ => 0%nat) nothing_denied
             (identity_grants "other") sample_download_ok (zip_always ZipSound) in
  let w := world_with [("/tokens", Dir); (alice_lease, File "tok" 420)] in
  exists w',
    initial_token E sample_conf None None w
    = (Ok (JStr "tok", Some sample_midnight, Some alice_lease), w') /\
    w_posted w' = [].
Proof.
  intros E w.
  destruct (initial_token_reads_lease_back E sample_conf None None "alice"
              sample_midnight "tok" 420 w
              (snd (get_list_of_exising_token E (token_directory sample_conf)
                      None w))
              [alice_lease])
    as (w' & Hrun & Hposted & _).
  - vm_compute. reflexivity.
  - vm_compute. reflexivity.
  - vm_compute. reflexivity.
  - discriminate.
  - reflexivity.
  - reflexivity.
  - vm_compute. reflexivity.
  - vm_compute. reflexivity.
  - vm_compute. reflexivity.
  - vm_compute. reflexivity.
  - assert (Hp : path_join (token_directory sample_conf)
                   (token_file_name E "alice" sample_midnight) = alice_lease)
      by (vm_compute; reflexivity).
    rewrite Hp in Hrun. exists w'. split; [exact Hrun|exact Hposted].
Defined.

(** ** The archive of a download and the presence check *)

Lemma endswith_path_join outputdir name suf :
  endswith suf (path_join outputdir (name +:+ suf)) = true.
Proof.
  unfold path_join.
  destruct (startswith "/" (name +:+ suf)); [apply endswith_app|].
  destruct (String.eqb outputdir "" || endswith "/" outputdir).
  - rewrite <- string_app_assoc. apply endswith_app.
  - rewrite <- !string_app_assoc. apply endswith_app.
Qed.

(** X23. The output path that a download of a product is given (the row
    made by [filter_product_already_present]) is the first candidate of
    the presence check of that product: an archive published there is
    tested by the next [check_safe_in_outputdir], which reports the product
    present when the archive is sound, and removes the archive and reports
    the product absent when the archive fails the test. *)
Theorem published_archive_is_first_candidate
    (E : Env) (conf : Conf) (outputdir : string) (r : row)
    (data : string) (mode : Z) (w : World) :
  let out := df_outputpath (todo_row conf outputdir r) in
  w_fs w !! out = Some (File data mode) ->
  (e_zip E data = ZipSound ->
   check_safe_in_outputdir E outputdir (df_safe r) w = (Ok true, w)) /\
  (zip_fails (e_zip E data) ->
   check_safe_in_outputdir E outputdir (df_safe r) w
   = (Ok false, without E out w)).
Proof.
  intros out Hfile. cbn [todo_row df_outputpath] in out.
  rewrite check_safe_in_outputdir_run.
  unfold outputdir_candidates. cbn [find]. fold out. rewrite Hfile.
  rewrite (bool_decide_eq_true_2 _ (mk_is_Some _ _ eq_refl)).
  pose proof (endswith_path_join outputdir (df_safe r) ".zip") as Hzip.
  fold out in Hzip. rewrite (endswith_zip_not_empty out Hzip), Hzip.
  pose proof (remove_quietly_run E out) as Hremove.
  set (quietly := try_except (os_remove E out) [OSError] (fun _ => ret tt)) in *.
  unfold try_except, bind, test_zip. rewrite Hfile. split.
  - intros ->. reflexivity.
  - intros Hfails. destruct (e_zip E data); cbn in Hfails; try contradiction;
      cbn; rewrite Hremove; reflexivity.
Qed.

(** A sound archive of the product lies where its download would write
    it. *)
Lemma published_archive_is_first_candidate_witness :
  let E := sample_env sample_midnight (fun _ => 0%nat) nothing_denied
             (identity_grants "tok") sample_download_ok (zip_always ZipSound) in
  let r := Row "S1A_IW_GRDH.SAFE" 0 "42" "" "" in
  let w := world_with [(sample_outdir_zip, File "PK..." 509)] in
  check_safe_in_outputdir E "/out" "S1A_IW_GRDH.SAFE" w = (Ok true, w).
Proof.
  intros E r w.
  destruct (published_archive_is_first_candidate E sample_conf "/out" r
              "PK..." 509 w) as [Hsound _].
  - vm_compute. reflexivity.
  - apply Hsound. reflexivity.
Defined.

(** ** Token leases in the sequential download *)

















